(** * Washington Commanders Hub: the fetch-cache-render engine and its normalizers

    A shallow embedding of the client script of the hub (the file that
    defines [fetchDataAndDisplay], [processPodcasts],
    [processTeamEventsData] and [processStandingsData]) and the properties
    of the engine and of the response normalizers.

    Conventions of the embedding:
    - a JSON document is a [JsVal]; numbers are the integers ([Z]), which is
      exact for the integer-valued numbers up to 2^53 that the upstream
      service sends for scores, counts and statistics; the statements that
      read numbers off strings are stated for such numbers;
    - a JavaScript string is a [string] holding its UTF-8 bytes;
    - a function that can raise an exception returns a [Res]; so does the
      conversion of a value to text, which throws for an object that has a
      property named [toString] (in a parsed document it is no function);
    - the browser (DOM, localStorage, network) is an explicit [World] that
      the engine threads through its steps; the room that the storage has
      for an entry and the answers of the network are parameters. *)

From Stdlib Require Import ZArith String Ascii List Bool Lia.
From stdpp Require Import base option list strings pretty gmap.

Local Open Scope string_scope.
Local Open Scope Z_scope.

Set Warnings "-register-all".

(** ** JavaScript values and the built-ins the script uses *)

Module Js.

(** A value obtained from [JSON.parse], plus [undefined] (a missing
    property) and [JFun] (a built-in method read as a property, such as
    [entries] of an array). *)
Inductive JsVal : Type :=
| JUndefined
| JNull
| JBool (b : bool)
| JNum (n : Z)
| JStr (s : string)
| JArr (items : list JsVal)
| JObj (fields : list (string * JsVal))
| JFun.

(** Exceptions: the script's own [FetchDataError] (message, type, status)
    and the run-time's errors (a [TypeError] of a property read on
    [undefined] or [null] or of a call of something that is no function; a
    [DOMException] of a storage that cannot be used). *)
Inductive JsError : Type :=
| FetchDataError (message type : string) (status : option Z)
| TypeError
| DOMException.

Inductive Res (A : Type) : Type :=
| Ret (a : A)
| Throw (e : JsError).
Arguments Ret {A} a.
Arguments Throw {A} e.

Definition bind {A B} (m : Res A) (k : A -> Res B) : Res B :=
  match m with
  | Ret a => k a
  | Throw e => Throw e
  end.

Notation "'let*' x ':=' m 'in' k" := (bind m (fun x => k))
  (at level 10, x name, m at level 100, k at level 200).

(** [ToBoolean]. *)
Definition truthy (v : JsVal) : bool :=
  match v with
  | JUndefined | JNull => false
  | JBool b => b
  | JNum n => negb (n =? 0)
  | JStr s => negb (String.eqb s "")
  | JArr _ | JObj _ | JFun => true
  end.

(** [typeof v === 'object'], [typeof v === 'string'] and
    [typeof v === 'number']. *)
Definition typeof_object (v : JsVal) : bool :=
  match v with JNull | JArr _ | JObj _ => true | _ => false end.
Definition typeof_string (v : JsVal) : bool :=
  match v with JStr _ => true | _ => false end.
Definition typeof_number (v : JsVal) : bool :=
  match v with JNum _ => true | _ => false end.

Definition isArray (v : JsVal) : bool :=
  match v with JArr _ => true | _ => false end.

(** [v === 'lit'] against a string literal. *)
Definition eq_str (v : JsVal) (lit : string) : bool :=
  match v with JStr s => String.eqb s lit | _ => false end.

(** [v === n] against a number literal. *)
Definition eq_num (v : JsVal) (n : Z) : bool :=
  match v with JNum m => m =? n | _ => false end.

(** The own property [k] of a parsed object, whose fields are listed with
    the one that counts first. *)
Fixpoint assoc (k : string) (fs : list (string * JsVal)) : JsVal :=
  match fs with
  | [] => JUndefined
  | (k', v) :: rest => if String.eqb k k' then v else assoc k rest
  end.

(** Number of UTF-16 code units of a string given by its UTF-8 bytes: one
    per lead byte, two for the lead byte of a four-byte sequence. *)
Fixpoint utf16_length (s : string) : Z :=
  match s with
  | EmptyString => 0
  | String c t =>
      let n := nat_of_ascii c in
      (if (n <? 128)%nat then 1
       else if (n <? 192)%nat then 0
       else if (n <? 240)%nat then 1
       else 2) + utf16_length t
  end.

(** Methods of [Array.prototype]: reading one of them off an array gives a
    function. *)
Definition array_methods : list string :=
  ["at"; "concat"; "copyWithin"; "entries"; "every"; "fill"; "filter";
   "find"; "findIndex"; "findLast"; "findLastIndex"; "flat"; "flatMap";
   "forEach"; "includes"; "indexOf"; "join"; "keys"; "lastIndexOf"; "map";
   "pop"; "push"; "reduce"; "reduceRight"; "reverse"; "shift"; "slice";
   "some"; "sort"; "splice"; "toLocaleString"; "toReversed"; "toSorted";
   "toSpliced"; "toString"; "unshift"; "values"; "with"].

Definition mem_str (k : string) (l : list string) : bool :=
  existsb (String.eqb k) l.

(** [v.p] for a [v] that is neither [undefined] nor [null]. The names the
    script reads are plain data names, never an index; of the inherited
    properties only [length] (arrays, strings) and the array methods can be
    met under such a name. *)
Definition prop (v : JsVal) (p : string) : JsVal :=
  match v with
  | JObj fs => assoc p fs
  | JArr l =>
      if String.eqb p "length" then JNum (Z.of_nat (length l))
      else if mem_str p array_methods then JFun
      else JUndefined
  | JStr s =>
      if String.eqb p "length" then JNum (utf16_length s) else JUndefined
  | _ => JUndefined
  end.

Definition nullish (v : JsVal) : bool :=
  match v with JUndefined | JNull => true | _ => false end.

(** [v.p]: a [TypeError] on [undefined] and [null]. *)
Definition get (v : JsVal) (p : string) : Res JsVal :=
  if nullish v then Throw TypeError else Ret (prop v p).

(** [v[0]] for a [v] that is neither [undefined] nor [null]; of a string,
    its first unit (exact for ASCII text). *)
Definition item0 (v : JsVal) : JsVal :=
  match v with
  | JArr l => hd JUndefined l
  | JObj fs => assoc "0" fs
  | JStr (String c _) => JStr (String c EmptyString)
  | _ => JUndefined
  end.

Definition index0 (v : JsVal) : Res JsVal :=
  if nullish v then Throw TypeError else Ret (item0 v).

Notation "v @. p" := (get v p) (at level 8, left associativity).
Notation "m @@ p" := (bind m (fun v => get v p))
  (at level 8, left associativity).
Notation "m @@@ f" := (bind m f) (at level 8, left associativity).

(** Conditions: [a && b] and [a || b] on conditions, left to right and
    short-circuit; [T e] is the truth value of an expression. *)
Definition T (e : Res JsVal) : Res bool := let* v := e in Ret (truthy v).
Definition andR (a b : Res bool) : Res bool :=
  let* x := a in if x then b else Ret false.
Definition orR (a b : Res bool) : Res bool :=
  let* x := a in if x then Ret true else b.
Definition notR (a : Res bool) : Res bool := let* x := a in Ret (negb x).
Infix "&&&" := andR (at level 40, left associativity).
Infix "|||" := orR (at level 50, left associativity).

(** An object has an own property [k], whatever its value. *)
Definition hasOwn (k : string) (fs : list (string * JsVal)) : bool :=
  existsb (fun kv => String.eqb k (fst kv)) fs.

(** [String(v)], as a template literal converts a value. A parsed object
    holds no function: when it has an own [toString], that is not callable,
    [valueOf] gives back the object (or is not callable either), and the
    conversion is a [TypeError]; without one it is ['[object Object]']. An
    array joins the conversions of its entries, so it throws when one of
    them does. A number is written with its digits (exact for the integers
    up to 2^53). *)
Fixpoint toStr (v : JsVal) : Res string :=
  match v with
  | JUndefined => Ret "undefined"
  | JNull => Ret "null"
  | JBool true => Ret "true"
  | JBool false => Ret "false"
  | JNum n => Ret (pretty n)
  | JStr s => Ret s
  | JArr l =>
      let* parts :=
        (fix elems (l : list JsVal) : Res (list string) :=
           match l with
           | [] => Ret []
           | x :: r =>
               let* s := match x with
                         | JUndefined | JNull => Ret ""
                         | _ => toStr x
                         end in
               let* ss := elems r in
               Ret (s :: ss)
           end) l in
      Ret (String.concat "," parts)
  | JObj fs =>
      if hasOwn "toString" fs then Throw TypeError
      else Ret "[object Object]"
  | JFun => Ret "function () { [native code] }"
  end.

(** [Array.prototype.find], [some] and [map] with a callback that may
    throw; called on something that is no array they are a [TypeError]. *)
Fixpoint findR (p : JsVal -> Res bool) (l : list JsVal) : Res JsVal :=
  match l with
  | [] => Ret JUndefined
  | x :: r => let* b := p x in if b then Ret x else findR p r
  end.

Fixpoint someR (p : JsVal -> Res bool) (l : list JsVal) : Res bool :=
  match l with
  | [] => Ret false
  | x :: r => let* b := p x in if b then Ret true else someR p r
  end.

Fixpoint mapR {B} (f : nat -> JsVal -> Res B) (i : nat) (l : list JsVal)
  : Res (list B) :=
  match l with
  | [] => Ret []
  | x :: r => let* y := f i x in let* ys := mapR f (S i) r in Ret (y :: ys)
  end.

Definition find (arr : JsVal) (p : JsVal -> Res bool) : Res JsVal :=
  match arr with JArr l => findR p l | _ => Throw TypeError end.

Definition some (arr : JsVal) (p : JsVal -> Res bool) : Res bool :=
  match arr with JArr l => someR p l | _ => Throw TypeError end.

(** ** Strings: white space, [trim], [includes], [parseInt], the summary
    pattern *)

Definition byte (c : ascii) : nat := nat_of_ascii c.

(** One-byte white space and line terminators: TAB, LF, VT, FF, CR, SP. *)
Definition ws1 (a : ascii) : bool :=
  ((9 <=? byte a)%nat && (byte a <=? 13)%nat) || (byte a =? 32)%nat.

(** U+00A0. *)
Definition ws2 (a b : ascii) : bool :=
  (byte a =? 194)%nat && (byte b =? 160)%nat.

(** U+1680, U+2000..U+200A, U+2028, U+2029, U+202F, U+205F, U+3000,
    U+FEFF. *)
Definition ws3 (a b c : ascii) : bool :=
  ((byte a =? 225)%nat && (byte b =? 154)%nat && (byte c =? 128)%nat)
  || ((byte a =? 226)%nat && (byte b =? 128)%nat
      && (((128 <=? byte c)%nat && (byte c <=? 138)%nat)
          || (byte c =? 168)%nat || (byte c =? 169)%nat || (byte c =? 175)%nat))
  || ((byte a =? 226)%nat && (byte b =? 129)%nat && (byte c =? 159)%nat)
  || ((byte a =? 227)%nat && (byte b =? 128)%nat && (byte c =? 128)%nat)
  || ((byte a =? 239)%nat && (byte b =? 187)%nat && (byte c =? 191)%nat).

Fixpoint trimStart (s : string) : string :=
  match s with
  | EmptyString => s
  | String a t =>
      if ws1 a then trimStart t
      else
        match t with
        | String b t' =>
            if ws2 a b then trimStart t'
            else
              match t' with
              | String c t'' => if ws3 a b c then trimStart t'' else s
              | EmptyString => s
              end
        | EmptyString => s
        end
  end.

(** The same scan on the reversed string, where the bytes of a character
    come last byte first. *)
Fixpoint trimStart_rev (s : string) : string :=
  match s with
  | EmptyString => s
  | String a t =>
      if ws1 a then trimStart_rev t
      else
        match t with
        | String b t' =>
            if ws2 b a then trimStart_rev t'
            else
              match t' with
              | String c t'' => if ws3 c b a then trimStart_rev t'' else s
              | EmptyString => s
              end
        | EmptyString => s
        end
  end.

Definition trimEnd (s : string) : string :=
  String.rev (trimStart_rev (String.rev s)).

Definition trim (s : string) : string := trimEnd (trimStart s).

(** [hay.includes(needle)]. *)
Fixpoint includes (hay needle : string) : bool :=
  String.prefix needle hay
  || match hay with
     | EmptyString => false
     | String _ t => includes t needle
     end.

Definition is_digit (c : ascii) : bool :=
  (48 <=? byte c)%nat && (byte c <=? 57)%nat.

(** The longest prefix of decimal digits, and what follows it. *)
Fixpoint span_digits (s : string) : string * string :=
  match s with
  | String c t =>
      if is_digit c
      then let '(d, r) := span_digits t in (String c d, r)
      else (EmptyString, s)
  | EmptyString => (EmptyString, EmptyString)
  end.

Fixpoint digits_value (acc : Z) (s : string) : Z :=
  match s with
  | EmptyString => acc
  | String c t => digits_value (10 * acc + (Z.of_nat (byte c) - 48)) t
  end.

(** [parseInt(s, 10)] for a string whose numeral is at most 2^53, the
    range in which a number holds every integer; [None] is [NaN]. (Beyond
    that range JavaScript rounds the numeral, and writes the number back
    with other digits.) *)
Definition parseInt (s : string) : option Z :=
  let s := trimStart s in
  let '(neg, s) :=
    match s with
    | String "-" t => (true, t)
    | String "+" t => (false, t)
    | _ => (false, s)
    end in
  let '(d, _) := span_digits s in
  if String.eqb d "" then None
  else Some (if neg then - digits_value 0 d else digits_value 0 d).

(** [parseInt(v, 10) || 0]: the value is converted to a string first. *)
Definition parseInt_or0 (v : JsVal) : Res Z :=
  let* s := toStr v in
  Ret (match parseInt s with Some n => n | None => 0 end).

(** [s.match(/^(\d+)-(\d+)(?:-(\d+))?$/)]: the three groups, the third
    [undefined] for a two-part summary. *)
Definition summaryMatch (s : string) : option (JsVal * JsVal * JsVal) :=
  let '(w, r1) := span_digits s in
  if String.eqb w "" then None
  else
    match r1 with
    | String "-" r2 =>
        let '(l, r3) := span_digits r2 in
        if String.eqb l "" then None
        else
          match r3 with
          | EmptyString => Some (JStr w, JStr l, JUndefined)
          | String "-" r4 =>
              let '(t, r5) := span_digits r4 in
              if String.eqb t "" then None
              else if String.eqb r5 "" then Some (JStr w, JStr l, JStr t)
              else None
          | _ => None
          end
    | _ => None
    end.

End Js.

(** ** The response normalizers *)

Module Normalizers.
Import Js.

Infix "++" := String.append : string_scope.

(** The double quote and the line feed of the script's template literals. *)
Definition dq : string := String (ascii_of_nat 34) EmptyString.
Definition nl : string := String (ascii_of_nat 10) EmptyString.

(** [a || b] and [a && b] on values: [b] is looked at only when [a] does
    not decide. *)
Definition orElseR (a b : Res JsVal) : Res JsVal :=
  let* v := a in if truthy v then Ret v else b.
Definition andThenR (a b : Res JsVal) : Res JsVal :=
  let* v := a in if truthy v then b else Ret v.
Infix "||>" := orElseR (at level 50, left associativity).
Infix "&&>" := andThenR (at level 40, left associativity).

(** [l.join('')]. *)
Definition join (l : list string) : string := String.concat "" l.

(** *** Podcasts *)

(** The callback of [data.podcasts.map] in [processPodcasts]. The title is
    converted on both paths: by the warning that names the podcast that is
    skipped, and by the card. *)
Definition podcastCard (podcast : JsVal) : Res string :=
  let* title := podcast @. "title" ||> Ret (JStr "Untitled Podcast") in
  let* src := podcast @. "src" ||> Ret (JStr "") in
  if negb (truthy src) then
    let* warned := toStr title in
    Ret ""
  else
    let* titleText := toStr title in
    let* srcText := toStr src in
    Ret (nl ++ "        <div class=" ++ dq ++ "podcast-item" ++ dq ++ ">" ++ nl
         ++ "            <h3>" ++ titleText ++ "</h3>" ++ nl
         ++ "            <audio controls aria-label=" ++ dq ++ "Reproducir "
         ++ titleText ++ dq ++ ">" ++ nl
         ++ "                <source src=" ++ dq ++ srcText ++ dq
         ++ " type=" ++ dq ++ "audio/mpeg" ++ dq ++ ">" ++ nl
         ++ "                Tu navegador no soporta audio HTML5." ++ nl
         ++ "            </audio>" ++ nl
         ++ "        </div>" ++ nl
         ++ "    ").

(** [processPodcasts]: [None] is [null]. *)
Definition processPodcasts (data : JsVal) : Res (option string) :=
  let* invalid :=
    Ret (negb (truthy data))
    ||| notR (T (data @. "podcasts"))
    ||| notR (let* p := data @. "podcasts" in Ret (isArray p))
    ||| (let* n := data @. "podcasts" @@ "length" in Ret (eq_num n 0)) in
  if invalid then Ret None
  else
    let* podcasts := data @. "podcasts" in
    match podcasts with
    | JArr items =>
        let* cards := mapR (fun _ => podcastCard) 0 items in
        Ret (Some (join cards))
    | _ => Throw TypeError
    end.

(** *** Team events *)

Section Events.

(** The two pieces of the run-time that the embedding leaves open:
    [formatDate v] is [new Date(v).toLocaleString('es-ES', ...)] in the
    Madrid time zone, [None] when [new Date(v)] is an invalid date;
    [numLtTwo s] tells whether the string [s], converted to a number, is
    below 2. *)
Variable formatDate : JsVal -> option string.
Variable numLtTwo : string -> bool.

(** [v < 2]: [undefined] is [NaN], [null] is 0, a boolean 0 or 1; strings,
    and arrays and objects through their string, are converted. The
    conversion of an object or of an array to a primitive ends with its
    [toString], as for a template, and throws when that does. *)
Definition lt2 (v : JsVal) : Res bool :=
  match v with
  | JUndefined => Ret false
  | JNull | JBool _ => Ret true
  | JNum n => Ret (n <? 2)
  | JStr s => Ret (numLtTwo s)
  | JArr _ | JObj _ | JFun => let* s := toStr v in Ret (numLtTwo s)
  end.

(** The date block: ['Date N/A'] unless [event.date] is there and valid.
    [new Date(d)] converts an object or an array to a primitive; when that
    throws, the [catch] of the block converts the value again for its
    warning, which throws out of the block. The warning for an invalid
    date converts a value that [new Date] has converted already. *)
Definition eventDateStr (event : JsVal) : Res string :=
  let* d := event @. "date" in
  if truthy d
  then
    let* converted := toStr d in
    Ret (match formatDate d with Some s => s | None => "Date N/A" end)
  else Ret "Date N/A".

Definition formatTeamInfo (teamData : JsVal) : Res string :=
  let* team := teamData @. "team" in
  let* name := team @. "displayName" ||> team @. "name"
               ||> Ret (JStr "Unknown Team") in
  let* abbreviation := team @. "abbreviation" ||> Ret (JStr "N/A") in
  let* logo := team @. "logo" ||> Ret (JStr "") in
  let* abbreviationText := toStr abbreviation in
  let* logoText := toStr logo in
  let* nameText := toStr name in
  Ret (abbreviationText ++ " <img src=" ++ dq ++ logoText ++ dq
       ++ " alt=" ++ dq ++ nameText ++ " logo" ++ dq
       ++ " style=" ++ dq ++ "height: 20px; vertical-align: middle; "
       ++ (if negb (truthy logo) then "display:none;" else "") ++ dq ++ ">").

(** The score block: the score of a completed game, else the description of
    the status, else ['Pendiente']. *)
Definition scoreText (competition homeTeamData awayTeamData : JsVal)
  : Res string :=
  let* completed :=
    T (competition @. "status")
    &&& T (competition @. "status" @@ "type")
    &&& T (competition @. "status" @@ "type" @@ "completed") in
  if completed then
    let* homeScore := homeTeamData @. "score" ||> Ret (JStr "0") in
    let* awayScore := awayTeamData @. "score" ||> Ret (JStr "0") in
    let* homeText := toStr homeScore in
    let* awayText := toStr awayScore in
    Ret (homeText ++ " - " ++ awayText)
  else
    let* described :=
      T (competition @. "status")
      &&& T (competition @. "status" @@ "type")
      &&& T (competition @. "status" @@ "type" @@ "description") in
    if described
    then let* d := competition @. "status" @@ "type" @@ "description" in
         toStr d
    else Ret "Pendiente".

(** The callback of [data.events.map]: the line of one event, [''] for an
    entry that is no object. *)
Definition eventLine (event : JsVal) : Res string :=
  if negb (truthy event) || negb (typeof_object event) then Ret ""
  else
    let* date := eventDateStr event in
    let* competition :=
      event @. "competitions" &&> (event @. "competitions" @@@ index0) in
    let* incomplete :=
      Ret (negb (truthy competition))
      ||| notR (T (competition @. "competitors"))
      ||| (let* n := competition @. "competitors" @@ "length" in lt2 n) in
    if incomplete then
      let* name := event @. "name" ||> Ret (JStr "Unnamed Event") in
      let* nameText := toStr name in
      Ret ("<p>Evento: " ++ nameText ++ " - Fecha: " ++ date
           ++ " - Datos de competición incompletos</p>")
    else
      let* competitors := competition @. "competitors" in
      let* homeTeamData :=
        find competitors
          (fun t => Ret (truthy t) &&& (let* h := t @. "homeAway" in
                                        Ret (eq_str h "home"))) in
      let* awayTeamData :=
        find competitors
          (fun t => Ret (truthy t) &&& (let* h := t @. "homeAway" in
                                        Ret (eq_str h "away"))) in
      let* noTeams :=
        Ret (negb (truthy homeTeamData))
        ||| Ret (negb (truthy awayTeamData))
        ||| notR (T (homeTeamData @. "team"))
        ||| notR (T (awayTeamData @. "team")) in
      if noTeams then
        let* name := event @. "name" ||> Ret (JStr "Unnamed Event") in
        let* nameText := toStr name in
        Ret ("<p>Evento: " ++ nameText ++ " - Fecha: " ++ date
             ++ " - Datos de equipo incompletos</p>")
      else
        let* homeTeamDisplay := formatTeamInfo homeTeamData in
        let* awayTeamDisplay := formatTeamInfo awayTeamData in
        let* score := scoreText competition homeTeamData awayTeamData in
        Ret ("<p>" ++ awayTeamDisplay ++ " @ " ++ homeTeamDisplay
             ++ " | Fecha: " ++ date ++ " | Estado: " ++ score ++ "</p>").

(** The lines that are kept:
    [.map(...).filter(eventHtml => eventHtml !== '')]. *)
Definition eventLines (events : list JsVal) : Res (list string) :=
  let* lines := mapR (fun _ => eventLine) 0 events in
  Ret (List.filter (fun l => negb (String.eqb l "")) lines).

Definition processTeamEventsData (data : JsVal) : Res (option string) :=
  let* invalid :=
    Ret (negb (truthy data))
    ||| notR (T (data @. "events"))
    ||| notR (let* e := data @. "events" in Ret (isArray e))
    ||| (let* n := data @. "events" @@ "length" in Ret (eq_num n 0)) in
  if invalid then Ret None
  else
    let* events := data @. "events" in
    match events with
    | JArr items =>
        let* lines := eventLines items in
        let processedEvents := join lines in
        if String.eqb processedEvents "" || String.eqb (trim processedEvents) ""
        then Ret None
        else Ret (Some processedEvents)
    | _ => Throw TypeError
    end.

End Events.

(** *** Standings *)

(** Attempt 1, the loop over [data.children]: [teamRecord] is assigned by
    each group that has a [standings.entries] array, and the loop stops at
    the first group where the tracked team (id ['28']) is found. *)
Definition isTrackedTeam (entry : JsVal) : Res bool :=
  T (entry @. "team")
  &&& (let* id := entry @. "team" @@ "id" in Ret (eq_str id "28")).

Fixpoint searchChildren (teamRecord : JsVal) (children : list JsVal)
  : Res JsVal :=
  match children with
  | [] => Ret teamRecord
  | child :: rest =>
      let* hasEntries :=
        T (child @. "standings")
        &&& T (child @. "standings" @@ "entries")
        &&& (let* e := child @. "standings" @@ "entries" in Ret (isArray e)) in
      if hasEntries then
        let* entries := child @. "standings" @@ "entries" in
        let* teamRecord := find entries isTrackedTeam in
        if truthy teamRecord then Ret teamRecord
        else searchChildren teamRecord rest
      else searchChildren teamRecord rest
  end.

Definition isOverallItem (item : JsVal) : Res bool :=
  (let* t := item @. "type" in Ret (eq_str t "total"))
  ||| (let* d := item @. "description" in Ret (eq_str d "Overall")).

Definition isOverallRecord (r : JsVal) : Res bool :=
  (let* t := r @. "type" in Ret (eq_str t "total"))
  ||| (let* n := r @. "name" in Ret (eq_str n "Overall")).

(** [n > 0] for the length of an array. *)
Definition gt0 (v : JsVal) : bool :=
  match v with JNum n => 0 <? n | _ => false end.

(** The three attempts of [processStandingsData], up to the test
    [if (!teamRecord)]; [attempt1] is the first of them. *)
Definition attempt1 (data : JsVal) : Res JsVal :=
  let* nested :=
    T (data @. "children")
    &&& (let* c := data @. "children" in Ret (isArray c)) in
  if nested then
    let* children := data @. "children" in
    match children with
    | JArr groups => searchChildren JUndefined groups
    | _ => Throw TypeError
    end
  else Ret JUndefined.

Definition findTeamRecord (data : JsVal) : Res JsVal :=
  let* teamRecord := attempt1 data in
  let* useItems :=
    Ret (negb (truthy teamRecord))
    &&& T (data @. "record")
    &&& (let* i := data @. "record" @@ "items" in Ret (isArray i))
    &&& (let* n := data @. "record" @@ "items" @@ "length" in Ret (gt0 n)) in
  if useItems then
    let* items := data @. "record" @@ "items" in
    find items isOverallItem
  else
    let* useRecords :=
      Ret (negb (truthy teamRecord))
      &&& (let* r := data @. "records" in Ret (isArray r))
      &&& (let* n := data @. "records" @@ "length" in Ret (gt0 n)) in
    if useRecords then
      let* records := data @. "records" in
      find records isOverallRecord
    else Ret teamRecord.

(** [name.toUpperCase().slice(0, 1)] for the ASCII names the script
    passes. *)
Definition upperInitial (name : string) : string :=
  match name with
  | String c _ =>
      String (if (97 <=? byte c)%nat && (byte c <=? 122)%nat
              then ascii_of_nat (byte c - 32) else c) EmptyString
  | EmptyString => EmptyString
  end.

(** [getStatValue]: the conditional reads
    [(stat && typeof stat.value === 'number') ? stat.value : (...)], so its
    second branch reads [stat.value] also when no entry was found. *)
Definition getStatValue (teamRecord : JsVal) (name : string) : Res Z :=
  let* stats := teamRecord @. "stats" in
  let* stat :=
    find stats
      (fun s =>
         Ret (truthy s)
         &&& ((let* n := s @. "name" in Ret (eq_str n name))
              ||| (let* a := s @. "abbreviation" in
                   Ret (eq_str a (upperInitial name))))) in
  let* isNumber :=
    Ret (truthy stat)
    &&& (let* v := stat @. "value" in Ret (typeof_number v)) in
  if isNumber then
    let* v := stat @. "value" in
    Ret (match v with JNum n => n | _ => 0 end)
  else
    let* v := stat @. "value" in
    if typeof_string v then parseInt_or0 v else Ret 0.

Definition standingsLine (wins losses ties : Z) (source : string) : string :=
  "<p>Washington Commanders: " ++ pretty wins ++ "V - " ++ pretty losses
  ++ "D - " ++ pretty ties ++ "E (Source: " ++ source ++ ")</p>".

(** Priority 2 of [processStandingsData]: the [stats] array. *)
Definition fromStats (teamRecord : JsVal) : Res (option string) :=
  let* hasStats :=
    T (teamRecord @. "stats")
    &&& (let* s := teamRecord @. "stats" in Ret (isArray s)) in
  if hasStats then
    let* wins := getStatValue teamRecord "wins" in
    let* losses := getStatValue teamRecord "losses" in
    let* ties := getStatValue teamRecord "ties" in
    let* meaningful :=
      Ret (0 <? wins) ||| Ret (0 <? losses) ||| Ret (0 <? ties)
      ||| (let* stats := teamRecord @. "stats" in
           some stats (fun s => let* n := s @. "name" in
                                Ret (eq_str n "wins"))) in
    if meaningful
    then Ret (Some (standingsLine wins losses ties "Stats Array"))
    else Ret None
  else Ret None.

(** Priorities 1 and 2: the [summary] string, then the [stats] array. *)
Definition recordLine (teamRecord : JsVal) : Res (option string) :=
  let* summary := teamRecord @. "summary" in
  match (if truthy summary && typeof_string summary
         then match summary with JStr s => summaryMatch s | _ => None end
         else None) with
  | Some (m1, m2, m3) =>
      let* wins := parseInt_or0 m1 in
      let* losses := parseInt_or0 m2 in
      let* ties := parseInt_or0 m3 in
      Ret (Some (standingsLine wins losses ties "Summary String"))
  | None => fromStats teamRecord
  end.

Definition processStandingsData (data : JsVal) : Res (option string) :=
  if negb (truthy data) || negb (typeof_object data) then Ret None
  else
    let* teamRecord := findTeamRecord data in
    if negb (truthy teamRecord) then Ret None
    else recordLine teamRecord.

End Normalizers.

(** ** The fetch-cache-render engine *)

Module Engine.
Import Js.

Infix "++" := String.append : string_scope.

(** *** The browser *)

(** An element of which the run uses the class [hidden] and the text. *)
Record Element := { hidden : bool; textContent : string }.

(** A display target as [fetchDataAndDisplay] sees it: the elements that
    its three [querySelector] calls find. [dataContent] is the markup of
    the ['.data-content'] child; without such a child the content area is
    the target itself, whose markup is [ownHTML]. *)
Record Target := {
  loader : option Element;
  errorMessageElement : option Element;
  dataContent : option string;
  ownHTML : string
}.

(** What [fetch(url)] gives: a failure of the network, or a response with
    its status line, its [content-type] header and the outcome of
    [response.json()] ([None] when the body does not parse). *)
Record Response := {
  ok : bool;
  status : Z;
  statusText : string;
  contentType : option string;
  json : option JsVal
}.

Inductive FetchOutcome : Type :=
| NetworkFailure
| Responded (r : Response).

(** The page: its targets by id, [localStorage] ([None] when the browser
    refuses access to it, an access then throws), and the requests issued,
    latest first. *)
Record World := {
  document : gmap string Target;
  localStorage : option (gmap string string);
  requests : list string
}.

(** What a run works on once it has found its target: the elements it
    holds, the storage and the requests issued. *)
Record Frame := {
  target : Target;
  storage : option (gmap string string);
  issued : list string
}.

(** *** Steps: state and exceptions *)

Definition Step (A : Type) : Type := Frame -> Res A * Frame.

Definition pure {A} (a : A) : Step A := fun w => (Ret a, w).
Definition raise {A} (e : JsError) : Step A := fun w => (Throw e, w).
Definition lift {A} (r : Res A) : Step A := fun w => (r, w).

Definition andThen {A B} (m : Step A) (k : A -> Step B) : Step B :=
  fun w =>
    match m w with
    | (Ret a, w') => k a w'
    | (Throw e, w') => (Throw e, w')
    end.

(** [try { m } catch (e) { h e }]. *)
Definition tryCatch {A} (m : Step A) (h : JsError -> Step A) : Step A :=
  fun w =>
    match m w with
    | (Ret a, w') => (Ret a, w')
    | (Throw e, w') => h e w'
    end.

(** [try { m } finally { f }]. *)
Definition tryFinally {A} (m : Step A) (f : Step unit) : Step A :=
  fun w =>
    match m w with
    | (r, w') =>
        match f w' with
        | (Ret _, w'') => (r, w'')
        | (Throw e, w'') => (Throw e, w'')
        end
    end.

Notation "'let!' x ':=' m 'in' k" := (andThen m (fun x => k))
  (at level 10, x name, m at level 100, k at level 200).
Notation "m ;; k" := (andThen m (fun _ => k))
  (at level 100, k at level 200, right associativity).

Definition when (b : bool) (m : Step unit) : Step unit :=
  if b then m else pure tt.

(** *** Operations on the page *)

Definition setHidden (b : bool) (e : Element) : Element :=
  {| hidden := b; textContent := textContent e |}.
Definition setText (s : string) (e : Element) : Element :=
  {| hidden := hidden e; textContent := s |}.

Definition onTarget (f : Target -> Target) : Step unit :=
  fun w => (Ret tt, {| target := f (target w); storage := storage w;
                       issued := issued w |}).

(** [if (loader) loader.classList.add/remove('hidden')]. *)
Definition loaderHidden (b : bool) : Step unit :=
  onTarget (fun t => {| loader := setHidden b <$> loader t;
                        errorMessageElement := errorMessageElement t;
                        dataContent := dataContent t; ownHTML := ownHTML t |}).

Definition onError (f : Element -> Element) : Step unit :=
  onTarget (fun t => {| loader := loader t;
                        errorMessageElement := f <$> errorMessageElement t;
                        dataContent := dataContent t; ownHTML := ownHTML t |}).

(** [contentArea.innerHTML = html]. *)
Definition writeContent (html : string) : Step unit :=
  onTarget (fun t =>
    match dataContent t with
    | Some _ => {| loader := loader t;
                   errorMessageElement := errorMessageElement t;
                   dataContent := Some html; ownHTML := ownHTML t |}
    | None => {| loader := loader t;
                 errorMessageElement := errorMessageElement t;
                 dataContent := None; ownHTML := html |}
    end).

(** The markup of the content area. *)
Definition content (t : Target) : string :=
  match dataContent t with
  | Some html => html
  | None => ownHTML t
  end.

Definition present {A} (o : option A) : bool :=
  match o with Some _ => true | None => false end.

(** [contentArea !== displayElement]. *)
Definition contentIsChild : Step bool :=
  fun w => (Ret (present (dataContent (target w))), w).
Definition hasErrorElement : Step bool :=
  fun w => (Ret (present (errorMessageElement (target w))), w).

(** [localStorage.getItem(k)]: [None] is [null]. *)
Definition getItem (k : string) : Step (option string) :=
  fun w =>
    match storage w with
    | Some m => (Ret (m !! k), w)
    | None => (Throw DOMException, w)
    end.

(** *** [fetchDataAndDisplay] *)

Section FetchDataAndDisplay.

(** The room of the storage: whether it takes the entry [v] under the key
    [k]. A storage that is full, or that keeps nothing (as in some private
    modes), refuses entries. The room for an entry is taken not to depend
    on the other entries of the page, which are four fragments under keys
    of their own. *)
Variable accepts : string -> string -> bool.

(** The network answers a request by its URL. *)
Variable network : string -> FetchOutcome.
Variables url elementId cacheKey : string.
Variable processDataFunction : JsVal -> Res (option string).
Variable emptyDataMessage : string.

(** [localStorage.setItem(k, v)]: an entry that the storage has no room
    for is refused with a [QuotaExceededError], a [DOMException], and the
    storage stays as it was. *)
Definition setItem (k v : string) : Step unit :=
  fun w =>
    match storage w with
    | Some m =>
        if accepts k v
        then (Ret tt, {| target := target w;
                         storage := Some (<[k := v]> m);
                         issued := issued w |})
        else (Throw DOMException, w)
    | None => (Throw DOMException, w)
    end.

(** [await fetch(u)], recorded among the requests issued. *)
Definition fetch (u : string) : Step FetchOutcome :=
  fun w => (Ret (network u),
            {| target := target w; storage := storage w;
               issued := u :: issued w |}).

Definition showError (message : string) : Step unit :=
  let! hasError := hasErrorElement in
  (if hasError
   then onError (fun e => setHidden false (setText message e))
   else writeContent ("<p>" ++ message ++ "</p>")) ;;
  let! child := contentIsChild in
  when (hasError && child) (writeContent "").

(** The network part: the request and the three checks of the response. *)
Definition retrieve : Step JsVal :=
  let! outcome := fetch url in
  match outcome with
  | NetworkFailure =>
      raise (FetchDataError
               "Could not connect to the server. Please check your internet connection."
               "NetworkError" None)
  | Responded response =>
      if negb (ok response) then
        raise (FetchDataError
                 ("Failed to load data: Server responded with "
                  ++ pretty (status response) ++ " ("
                  ++ statusText response ++ ").")
                 "HttpError" (Some (status response)))
      else if match contentType response with
              | None => true
              | Some ct => negb (truthy (JStr ct))
                           || negb (includes ct "application/json")
              end then
        raise (FetchDataError
                 "The server provided data in an unexpected format (expected JSON)."
                 "JsonParseError" None)
      else
        match json response with
        | None =>
            raise (FetchDataError
                     "There was an issue understanding the data from the server (JSON parsing failed)."
                     "JsonParseError" None)
        | Some data => pure data
        end
  end.

(** The call of the transform: a [FetchDataError] of the transform is
    thrown again, anything else is wrapped. *)
Definition process (data : JsVal) : Step (option string) :=
  tryCatch (lift (processDataFunction data))
    (fun processingError =>
       match processingError with
       | FetchDataError _ _ _ => raise processingError
       | _ => raise (FetchDataError
                       "There was an issue preparing the data for display."
                       "DataProcessingError" None)
       end).

(** [htmlContent && htmlContent.trim() !== '']. *)
Definition hasContent (htmlContent : option string) : bool :=
  match htmlContent with
  | Some html => negb (String.eqb html "") && negb (String.eqb (trim html) "")
  | None => false
  end.

(** From the request to the display, when the cache gave nothing. *)
Definition fetchAndRender : Step unit :=
  let! data := retrieve in
  let! htmlContent := process data in
  if hasContent htmlContent then
    writeContent (default "" htmlContent) ;;
    setItem cacheKey (default "" htmlContent)
  else
    writeContent ("<p>" ++ emptyDataMessage ++ "</p>").

(** The [try] block. *)
Definition tryBlock : Step unit :=
  loaderHidden false ;;
  onError (setHidden true) ;;
  (let! child := contentIsChild in when child (writeContent "")) ;;
  let! cachedData := getItem cacheKey in
  match cachedData with
  | Some cached =>
      if truthy (JStr cached)
      then writeContent cached ;; loaderHidden true
      else fetchAndRender
  | None => fetchAndRender
  end.

(** The [catch] block. *)
Definition catchBlock (error : JsError) : Step unit :=
  match error with
  | FetchDataError message _ _ => showError message
  | _ => showError "An unexpected error occurred. Please try again."
  end.

Definition runOnTarget : Step unit :=
  tryFinally (tryCatch tryBlock catchBlock) (loaderHidden true).

(** The whole function: without the target nothing happens; with it, the
    run works on the elements it holds. *)
Definition fetchDataAndDisplay (w : World) : World :=
  match document w !! elementId with
  | None => w
  | Some t =>
      let '(_, f) := runOnTarget {| target := t; storage := localStorage w;
                                    issued := requests w |} in
      {| document := <[elementId := target f]> (document w);
         localStorage := storage f;
         requests := issued f |}
  end.

End FetchDataAndDisplay.

(** Unfolds a run into its steps. *)
Ltac unfold_steps :=
  unfold runOnTarget, tryBlock, fetchAndRender, retrieve, process, catchBlock,
    showError, fetch, tryFinally, tryCatch, andThen, loaderHidden, onError,
    onTarget, contentIsChild, hasErrorElement, when, getItem, setItem,
    writeContent, pure, raise, lift.

End Engine.

(** ** Notions used to state the properties *)

Module Terms.
Import Js Normalizers Engine.

(** *** Of the engine *)

(** The cache gives nothing for [key]: no entry, or the empty string
    (which [if (cachedData)] takes for no entry). *)
Definition CacheMiss (w : World) (key : string) : Prop :=
  exists m, localStorage w = Some m /\ (m !! key = None \/ m !! key = Some "").

(** The storage of a page whose cache is written by the engine only: it
    was empty to begin with (or access to it is refused), and it has been
    changed since by runs of the engine, with whatever arguments, and by
    the removal of entries. *)
Inductive EngineCache : option (gmap string string) -> Prop :=
| cache_refused : EngineCache None
| cache_empty : EngineCache (Some ∅)
| cache_run accepts network url elementId cacheKey processDataFunction
    emptyDataMessage w :
    EngineCache (localStorage w) ->
    EngineCache
      (localStorage
         (fetchDataAndDisplay accepts network url elementId cacheKey
            processDataFunction emptyDataMessage w))
| cache_removed m k :
    EngineCache (Some m) -> EngineCache (Some (delete k m)).

(** A response that passes the checks of the engine. *)
Definition JsonResponse (r : Response) : Prop :=
  ok r = true
  /\ exists ct, contentType r = Some ct /\ includes ct "application/json" = true.

(** The run on [w] gets as far as the transform, and calls it on [data]. *)
Definition ReachesTransform (network : string -> FetchOutcome)
  (url elementId cacheKey : string) (w : World) (data : JsVal) : Prop :=
  is_Some (document w !! elementId)
  /\ CacheMiss w cacheKey
  /\ exists r, network url = Responded r /\ JsonResponse r /\ json r = Some data.

(** The empty signal of a transform: [null] or the empty string. *)
Definition EmptySignal (r : option string) : Prop :=
  r = None \/ r = Some "".

(** The target once the [try] block has begun: loader shown, error element
    hidden, the ['.data-content'] child emptied. *)
Definition started (t : Target) : Target :=
  {| loader := setHidden false <$> loader t;
     errorMessageElement := setHidden true <$> errorMessageElement t;
     dataContent := (fun _ => "") <$> dataContent t;
     ownHTML := ownHTML t |}.

(** The target after a run that showed [markup] in the content area and
    no error: loader and error element hidden. *)
Definition showing (markup : string) (t : Target) : Target :=
  {| loader := setHidden true <$> loader t;
     errorMessageElement := setHidden true <$> errorMessageElement t;
     dataContent := (fun _ => markup) <$> dataContent t;
     ownHTML := if present (dataContent t) then ownHTML t else markup |}.

(** A step keeps the relation [P] between the frame it starts from and the
    frame it ends in. *)
Definition Keeps (P : Frame -> Frame -> Prop) {A} (m : Step A) : Prop :=
  forall w, P w (snd (m w)).

(** The loader is there or not as before, with the text it had. *)
Definition SameLoader (a b : Frame) : Prop :=
  textContent <$> loader (target b) = textContent <$> loader (target a).

Definition SameStorage (a b : Frame) : Prop := storage b = storage a.

(** Between [fr] and [fr'] the storage was written: the transform gave a
    fragment with content for the data of a response that passed the
    checks, the storage had room for it, and that fragment is now under
    the cache key. *)
Definition Written (accepts : string -> string -> bool)
  (network : string -> FetchOutcome) (url cacheKey : string)
  (processDataFunction : JsVal -> Res (option string)) (fr fr' : Frame)
  : Prop :=
  exists m r data html,
    storage fr = Some m
    /\ network url = Responded r /\ JsonResponse r /\ json r = Some data
    /\ processDataFunction data = Ret (Some html)
    /\ hasContent (Some html) = true
    /\ accepts cacheKey html = true
    /\ storage fr' = Some (<[cacheKey := html]> m).

(** The string of the given bytes. *)
Definition bytes (l : list nat) : string :=
  fold_right (fun n s => String (ascii_of_nat n) s) EmptyString l.

(** The white space and line terminator characters of ECMAScript, each by
    its UTF-8 bytes: TAB, LF, VT, FF, CR, SP, U+00A0, U+1680,
    U+2000..U+200A, U+2028, U+2029, U+202F, U+205F, U+3000, U+FEFF. *)
Definition whitespaceChars : list string :=
  map bytes
    [[9]; [10]; [11]; [12]; [13]; [32]; [194; 160]; [225; 154; 128];
     [226; 128; 128]; [226; 128; 129]; [226; 128; 130]; [226; 128; 131];
     [226; 128; 132]; [226; 128; 133]; [226; 128; 134]; [226; 128; 135];
     [226; 128; 136]; [226; 128; 137]; [226; 128; 138]; [226; 128; 168];
     [226; 128; 169]; [226; 128; 175]; [226; 129; 159]; [227; 128; 128];
     [239; 187; 191]]%nat.

(** A string made of white space characters only. *)
Inductive OnlyWhitespace : string -> Prop :=
| ows_empty : OnlyWhitespace ""
| ows_char c s :
    In c whitespaceChars -> OnlyWhitespace s -> OnlyWhitespace (c ++ s).

End Terms.

(** *** Of the normalizers *)

Module Shapes.
Import Js Normalizers.

(** A value converts to text: not an object with a property named
    [toString], nor an array that joins one. *)
Definition converts (v : JsVal) : bool :=
  match toStr v with
  | Ret _ => true
  | Throw _ => false
  end.

(** A document in which no object has a property named [toString]: each
    of its values converts to text, in a template as in a comparison. *)
Fixpoint plain (v : JsVal) : bool :=
  match v with
  | JArr l => forallb plain l
  | JObj fs =>
      negb (hasOwn "toString" fs)
      && forallb (fun kv => let '(_, x) := kv in plain x) fs
  | _ => true
  end.

(** The text that a template shows for a value that converts. *)
Definition shown (v : JsVal) : string :=
  match toStr v with
  | Ret s => s
  | Throw _ => ""
  end.

(** A computation that throws nothing but a [TypeError]. *)
Definition OnlyTypeError {A} (m : Res A) : Prop :=
  forall e, m = Throw e -> e = TypeError.

(** A podcast item with a playable source. *)
Definition hasSource (podcast : JsVal) : bool := truthy (prop podcast "src").

(** An entry of the podcasts list that is an item: it is not [null], and
    its title and its source, as far as it has them, convert to text. *)
Definition isPodcastItem (podcast : JsVal) : bool :=
  negb (nullish podcast)
  && converts (prop podcast "title") && converts (prop podcast "src").

(** The entry that [getStatValue] picks for [name]: the first entry that is
    truthy and carries that name, or its capital initial as abbreviation. *)
Definition statEntry (stats : list JsVal) (name : string) : option JsVal :=
  List.find
    (fun s => truthy s
              && (eq_str (prop s "name") name
                  || eq_str (prop s "abbreviation") (upperInitial name)))
    stats.

(** The number that [getStatValue] reads off an entry: its [value] when a
    number, the integer it parses to (else 0) when a string, else 0. *)
Definition statNumber (stat : JsVal) : Z :=
  match prop stat "value" with
  | JNum n => n
  | JStr s => match parseInt s with Some n => n | None => 0 end
  | _ => 0
  end.

(** An entry of the list is named ['wins']. *)
Definition hasNamedWins (stats : list JsVal) : bool :=
  existsb (fun s => eq_str (prop s "name") "wins") stats.

(** The summary of a record is absent, no string, or does not parse. *)
Definition SummaryUnusable (record : JsVal) : Prop :=
  forall s, prop record "summary" = JStr s -> summaryMatch s = None.

(** An entry of the events list that the normalizer takes for an event:
    an object (or array), not [null]. *)
Definition isEventObject (event : JsVal) : bool :=
  truthy event && typeof_object event.

(** [event.competitions && event.competitions[0]]. *)
Definition competitionOf (event : JsVal) : JsVal :=
  let cs := prop event "competitions" in
  if truthy cs then item0 cs else cs.

(** The competitor of a side: the first one tagged with it. *)
Definition sideOf (side : string) (competitors : list JsVal) : JsVal :=
  default JUndefined
    (List.find (fun t => truthy t && eq_str (prop t "homeAway") side)
       competitors).

(** An event is well formed when the competitors of its competition, if
    there are any, come as an array. *)
Definition WellFormedEvent (event : JsVal) : Prop :=
  truthy (prop (competitionOf event) "competitors") = true ->
  isArray (prop (competitionOf event) "competitors") = true.

(** An event that lacks its competition, has fewer than two competitors,
    or lacks the home or the away side or the team of one of them. *)
Definition MissingParts (event : JsVal) : Prop :=
  let competition := competitionOf event in
  truthy competition = false
  \/ truthy (prop competition "competitors") = false
  \/ exists cs,
       prop competition "competitors" = JArr cs
       /\ ((length cs < 2)%nat
           \/ truthy (prop (sideOf "home" cs) "team") = false
           \/ truthy (prop (sideOf "away" cs) "team") = false).

(** [v < 2] for a value that converts. *)
Definition belowTwo (numLtTwo : string -> bool) (v : JsVal) : bool :=
  match lt2 numLtTwo v with
  | Ret b => b
  | Throw _ => false
  end.

(** The first test of [eventLine]: no competition, no competitors, or a
    number of competitors below two. *)
Definition tooLittle (numLtTwo : string -> bool) (competition : JsVal)
  : bool :=
  negb (truthy competition)
  || negb (truthy (prop competition "competitors"))
  || belowTwo numLtTwo (prop (prop competition "competitors") "length").

(** The second test: a side without its team. *)
Definition noTeams (home away : JsVal) : bool :=
  negb (truthy (prop home "team")) || negb (truthy (prop away "team")).

(** The name and the date that a line shows for an event. *)
Definition nameOf (event : JsVal) : string :=
  shown (if truthy (prop event "name") then prop event "name"
         else JStr "Unnamed Event").

Definition dateOf (formatDate : JsVal -> option string) (event : JsVal)
  : string :=
  if truthy (prop event "date")
  then match formatDate (prop event "date") with
       | Some s => s
       | None => "Date N/A"
       end
  else "Date N/A".

(** The minimal line of an event with missing parts. *)
Definition fallbackLine (name date what : string) : string :=
  "<p>Evento: " ++ name ++ " - Fecha: " ++ date ++ " - Datos de " ++ what
  ++ " incompletos</p>".

(** A string that opens with [<] and closes with [>]. *)
Definition Markup (s : string) : Prop :=
  exists body, s = String "<" (body ++ ">").

(** The status of a competition says that the game is completed; it has a
    description. *)
Definition isCompleted (competition : JsVal) : bool :=
  truthy (prop competition "status")
  && truthy (prop (prop competition "status") "type")
  && truthy (prop (prop (prop competition "status") "type") "completed").

Definition hasDescription (competition : JsVal) : bool :=
  truthy (prop competition "status")
  && truthy (prop (prop competition "status") "type")
  && truthy (prop (prop (prop competition "status") "type") "description").

Definition descriptionOf (competition : JsVal) : string :=
  shown (prop (prop (prop competition "status") "type") "description").

(** The score of a side, ['0'] when there is none. *)
Definition scoreOr0 (teamData : JsVal) : string :=
  shown (if truthy (prop teamData "score") then prop teamData "score"
         else JStr "0").

End Shapes.

(** ** Sample pages and documents *)

Module Samples.
Import Js Normalizers Engine.

(** A section as the page prepares it: loader and error element hidden, an
    empty ['.data-content'] child. *)
Definition preparedSection : Target :=
  {| loader := Some {| hidden := true; textContent := "Cargando..." |};
     errorMessageElement := Some {| hidden := true; textContent := "" |};
     dataContent := Some "";
     ownHTML := "" |}.

Definition page (cache : gmap string string) : World :=
  {| document := {["podcast-list" := preparedSection]};
     localStorage := Some cache;
     requests := [] |}.

Definition offline : string -> FetchOutcome := fun _ => NetworkFailure.

Definition serving (data : JsVal) : string -> FetchOutcome :=
  fun _ => Responded {| ok := true; status := 200; statusText := "OK";
                        contentType := Some "application/json; charset=utf-8";
                        json := Some data |}.

(** A storage with room for every entry, and one that takes none. *)
Definition roomy : string -> string -> bool := fun _ _ => true.
Definition full : string -> string -> bool := fun _ _ => false.

Definition noPodcasts : string := "No hay podcasts disponibles en este momento.".

(** The engine as [fetchPodcasts] calls it, with a given transform, on a
    storage with room. *)
Definition podcastsRun (network : string -> FetchOutcome)
  (transform : JsVal -> Res (option string)) : World -> World :=
  fetchDataAndDisplay roomy network "/api/content" "podcast-list"
    "podcasts-cache" transform noPodcasts.

(** A podcasts document whose only item has no [src], and one with a
    playable item. *)
Definition silentPodcasts : JsVal :=
  JObj [("podcasts", JArr [JObj [("title", JStr "Sin audio")]])].

Definition onePodcast : JsVal :=
  JObj [("podcasts",
         JArr [JObj [("title", JStr "Episodio 1"); ("src", JStr "ep1.mp3")]])].

(** A podcasts list whose only entry is [null]. *)
Definition nullPodcast : JsVal := JObj [("podcasts", JArr [JNull])].

(** An item without source, whose title is an object with a property named
    [toString]. *)
Definition oddTitlePodcast : JsVal :=
  JObj [("title", JObj [("toString", JStr "Episodio 2")])].

(** A transform that returns a space, a line feed and a no-break space. *)
Definition blankFragment : string := Terms.bytes [32; 10; 194; 160]%nat.
Definition blankTransform : JsVal -> Res (option string) :=
  fun _ => Ret (Some blankFragment).

(** Standings documents. *)
Definition totalItem : JsVal :=
  JObj [("type", JStr "total"); ("summary", JStr "11-5-1")].

Definition itemsStandings : JsVal :=
  JObj [("record", JObj [("items", JArr [totalItem])])].

Definition overallRecord : JsVal :=
  JObj [("type", JStr "total"); ("summary", JStr "10-6")].

(** [record.items] holds a home record only; the overall record is in
    [records]. *)
Definition itemsWithoutTotal : JsVal :=
  JObj [("record",
         JObj [("items",
                JArr [JObj [("type", JStr "home"); ("summary", JStr "5-3")]])]);
        ("records", JArr [overallRecord])].

Definition recordsOnly : JsVal :=
  JObj [("records", JArr [overallRecord])].

Definition stat (key name : string) (value : Z) : JsVal :=
  JObj [(key, JStr name); ("value", JNum value)].

(** Records whose statistics are given by abbreviation only. *)
Definition abbreviatedStats (w l t : Z) : list JsVal :=
  [stat "abbreviation" "W" w; stat "abbreviation" "L" l;
   stat "abbreviation" "T" t].

Definition abbreviatedRecord (w l t : Z) : JsVal :=
  JObj [("stats", JArr (abbreviatedStats w l t))].

(** The record of the specification's example: wins and losses by name, no
    entry for ties. *)
Definition winsLossesRecord : JsVal :=
  JObj [("stats", JArr [stat "name" "wins" 7; stat "name" "losses" 9])].

Definition fullStatsRecord : JsVal :=
  JObj [("stats", JArr [stat "name" "wins" 0; stat "name" "losses" 0;
                        stat "name" "ties" 0])].

(** Events. *)
Definition team (abbreviation name : string) : JsVal :=
  JObj [("abbreviation", JStr abbreviation); ("displayName", JStr name)].

Definition competitor (side abbreviation name score : string) : JsVal :=
  JObj [("homeAway", JStr side); ("score", JStr score);
        ("team", team abbreviation name)].

Definition finishedCompetitors : list JsVal :=
  [competitor "home" "DAL" "Dallas Cowboys" "34";
   competitor "away" "WSH" "Washington Commanders" "26"].

Definition finishedGame : JsVal :=
  JObj [("name", JStr "Washington at Dallas");
        ("competitions",
         JArr [JObj [("competitors", JArr finishedCompetitors);
                     ("status",
                      JObj [("type",
                             JObj [("completed", JBool true);
                                   ("description", JStr "Final")])])]])].

(** The finished game with the score of the home side sent as an object
    that has a [toString] property. *)
Definition oddScore : JsVal := JObj [("toString", JNum 34)].

Definition oddScoreGame : JsVal :=
  JObj [("name", JStr "Washington at Dallas");
        ("competitions",
         JArr [JObj [("competitors",
                      JArr [JObj [("homeAway", JStr "home");
                                  ("score", oddScore);
                                  ("team", team "DAL" "Dallas Cowboys")];
                            competitor "away" "WSH" "Washington Commanders"
                              "26"]);
                     ("status",
                      JObj [("type",
                             JObj [("completed", JBool true);
                                   ("description", JStr "Final")])])]])].

(** An event without competitions, and a list with two entries that are no
    objects. *)
Definition bareEvent : JsVal := JObj [("name", JStr "Bye week")].

Definition schedule : list JsVal := [finishedGame; JNull; JNum 7; bareEvent].

(** A run-time in which no date is valid and no string is a number below
    two. *)
Definition noDate : JsVal -> option string := fun _ => None.
Definition noNumber : string -> bool := fun _ => false.

End Samples.

(** ** How runs end *)

Module Outcomes.
Import Js Engine Terms.

(** The target after a run that failed with [message]: the loader hidden;
    with an error element, the message in it, shown, and the
    ['.data-content'] child emptied; without one, the message as a
    paragraph in the content area. *)
Definition showingError (message : string) (t : Target) : Target :=
  {| loader := setHidden true <$> loader t;
     errorMessageElement :=
       (fun e => {| hidden := false; textContent := message |})
       <$> errorMessageElement t;
     dataContent :=
       (fun _ => if present (errorMessageElement t) then ""
                 else "<p>" ++ message ++ "</p>")
       <$> dataContent t;
     ownHTML :=
       if present (errorMessageElement t) || present (dataContent t)
       then ownHTML t
       else "<p>" ++ message ++ "</p>" |}.

(** The message of the [catch] block for what is no [FetchDataError]. *)
Definition unexpectedMessage : string :=
  "An unexpected error occurred. Please try again.".

(** The messages of the four kinds of [FetchDataError]. *)
Definition networkMessage : string :=
  "Could not connect to the server. Please check your internet connection.".

Definition httpMessage (r : Response) : string :=
  "Failed to load data: Server responded with " ++ pretty (status r)
  ++ " (" ++ statusText r ++ ").".

Definition formatMessage : string :=
  "The server provided data in an unexpected format (expected JSON).".

Definition parseMessage : string :=
  "There was an issue understanding the data from the server (JSON parsing failed).".

Definition processingMessage : string :=
  "There was an issue preparing the data for display.".

(** The message that the user sees for an exception of the transform: its
    own when it is a [FetchDataError], else the one for processing. *)
Definition shownFor (e : JsError) : string :=
  match e with
  | FetchDataError message _ _ => message
  | _ => processingMessage
  end.

(** The [content-type] header is missing or does not name JSON. *)
Definition NotJson (r : Response) : Prop :=
  match contentType r with
  | None => True
  | Some ct => includes ct "application/json" = false
  end.

(** The target after a run of which the storage refused the fragment: the
    message for the unexpected is shown as an error; the fragment, which
    was written to the content area before, stays in a target that is its
    own content area and has an error element. *)
Definition showingRefused (html : string) (t : Target) : Target :=
  showingError unexpectedMessage
    {| loader := loader t;
       errorMessageElement := errorMessageElement t;
       dataContent := dataContent t;
       ownHTML := if present (dataContent t) then ownHTML t else html |}.

(** The ways in which a run leaves the target [t]: showing some markup,
    or showing some message as an error, be it after the storage refused
    a fragment. *)
Definition Ending (t t' : Target) : Prop :=
  exists text,
    t' = showing text t \/ t' = showingError text t
    \/ t' = showingRefused text t.

(** What a run did besides changing its target: the fragment it wrote to
    the storage, if any, and whether it issued its request. *)
Record Effect := { written : option string; asked : bool }.

Definition store (cacheKey : string) (e : Effect)
  (s : option (gmap string string)) : option (gmap string string) :=
  match written e with
  | Some html => <[cacheKey := html]> <$> s
  | None => s
  end.

Definition ask (url : string) (e : Effect) (requests : list string)
  : list string :=
  if asked e then url :: requests else requests.

(** Two worlds with the same page and storage, and the same requests up to
    their order. *)
Definition SameButOrder (w1 w2 : World) : Prop :=
  document w1 = document w2
  /\ localStorage w1 = localStorage w2
  /\ requests w1 ≡ₚ requests w2.

(** What the storage gives a run for its key: [None] when the storage is
    blocked. *)
Definition cached (cacheKey : string) (s : option (gmap string string))
  : option (option string) :=
  (fun m : gmap string string => m !! cacheKey) <$> s.

End Outcomes.

(** ** More sample pages and answers *)

Module Answers.
Import Js Engine.

Definition answering (r : Response) : string -> FetchOutcome :=
  fun _ => Responded r.

(** A failure of the proxy, a page that is no JSON, and a JSON body that
    does not parse. *)
Definition serverError : Response :=
  {| ok := false; status := 500; statusText := "Internal Server Error";
     contentType := Some "application/json; charset=utf-8";
     json := Some (JObj [("error", JStr "Failed to fetch content")]) |}.

Definition htmlPage : Response :=
  {| ok := true; status := 200; statusText := "OK";
     contentType := Some "text/html"; json := None |}.

Definition brokenJson : Response :=
  {| ok := true; status := 200; statusText := "OK";
     contentType := Some "application/json"; json := None |}.

(** A page of which the storage is blocked. *)
Definition blockedPage : World :=
  {| document := {["podcast-list" := Samples.preparedSection]};
     localStorage := None;
     requests := [] |}.

(** A transform that throws, and one that throws a [FetchDataError]. *)
Definition failingTransform : JsVal -> Res (option string) :=
  fun _ => Throw TypeError.

Definition refusingTransform : JsVal -> Res (option string) :=
  fun _ => Throw (FetchDataError "No podcasts today." "Custom" None).

End Answers.

(** ** Articles, the four tasks and the preparation of the page *)

Module Page.
Import Js Normalizers Engine.

Section Articles.

(** [linkSource] is the text that the run-time gives for its built-in
    [String.prototype.link] when a template literal converts it: an entry
    of the articles list that is a string has this method under the name
    [link]. *)
Variable linkSource : string.

(** [article.link || "#"], converted for the template. *)
Definition articleLink (article : JsVal) : Res string :=
  match article with
  | JStr _ => Ret linkSource
  | _ => let* link := article @. "link" ||> Ret (JStr "#") in
         toStr link
  end.

(** The callback of [data.articles.map] in [processArticles]. *)
Definition articleCard (article : JsVal) : Res string :=
  let* title := article @. "title" ||> Ret (JStr "Untitled Article") in
  let* summary := article @. "summary" ||> Ret (JStr "No summary available.") in
  let* titleText := toStr title in
  let* summaryText := toStr summary in
  let* link := articleLink article in
  Ret (nl ++ "        <article>" ++ nl
       ++ "            <h3>" ++ titleText ++ "</h3>" ++ nl
       ++ "            <p>" ++ summaryText ++ " <a href=" ++ dq ++ link ++ dq
       ++ " rel=" ++ dq ++ "noopener" ++ dq ++ " target=" ++ dq ++ "_blank"
       ++ dq ++ ">Leer más</a></p>" ++ nl
       ++ "        </article>" ++ nl
       ++ "    ").

Definition processArticles (data : JsVal) : Res (option string) :=
  let* invalid :=
    Ret (negb (truthy data))
    ||| notR (T (data @. "articles"))
    ||| notR (let* a := data @. "articles" in Ret (isArray a))
    ||| (let* n := data @. "articles" @@ "length" in Ret (eq_num n 0)) in
  if invalid then Ret None
  else
    let* articles := data @. "articles" in
    match articles with
    | JArr items =>
        let* cards := mapR (fun _ => articleCard) 0 items in
        Ret (Some (join cards))
    | _ => Throw TypeError
    end.

End Articles.

(** *** The four tasks *)

Definition eventsUrl : string := "/api/espn-events".
Definition standingsUrl : string := "/api/espn-standings".
Definition contentUrl : string := "/api/content".

Section Tasks.

(** The storage, the network and the run-time of the page. *)
Variable accepts : string -> string -> bool.
Variable network : string -> FetchOutcome.
Variable linkSource : string.
Variable formatDate : JsVal -> option string.
Variable numLtTwo : string -> bool.

Definition fetchArticles : World -> World :=
  fetchDataAndDisplay accepts network contentUrl "articles-list"
    "articles-cache" (processArticles linkSource)
    "No hay artículos disponibles en este momento.".

Definition fetchPodcasts : World -> World :=
  fetchDataAndDisplay accepts network contentUrl "podcast-list"
    "podcasts-cache" processPodcasts
    "No hay podcasts disponibles en este momento.".

Definition fetchTeamEvents : World -> World :=
  fetchDataAndDisplay accepts network eventsUrl "teams-data"
    "commanders-events" (processTeamEventsData formatDate numLtTwo)
    "No hay partidos disponibles para los Commanders en este momento.".

Definition fetchStandingsData : World -> World :=
  fetchDataAndDisplay accepts network standingsUrl "temporada-data"
    "commanders-standings" processStandingsData
    "No hay datos de clasificación disponibles en este momento.".

End Tasks.

(** *** The preparation of the sections *)

Definition mainDataSections : list string :=
  ["teams-data"; "temporada-data"; "articles-list"; "podcast-list"].

(** What the handler of [DOMContentLoaded] does to a section that is on
    the page: a hidden loader, a hidden error element and an empty
    ['.data-content'] child are added, each unless there is one. The
    elements that a section has are taken to be its children, as they are
    on the page of the repository. *)
Definition prepare (section : Target) : Target :=
  {| loader :=
       match loader section with
       | Some l => Some l
       | None => Some {| hidden := true; textContent := "Cargando..." |}
       end;
     errorMessageElement :=
       match errorMessageElement section with
       | Some e => Some e
       | None => Some {| hidden := true; textContent := "" |}
       end;
     dataContent :=
       match dataContent section with
       | Some html => Some html
       | None => Some ""
       end;
     ownHTML := ownHTML section |}.

(** [mainDataSections.forEach(...)]: a section that is not on the page is
    passed over. *)
Definition prepareSections (w : World) : World :=
  {| document :=
       fold_left (fun d id => alter prepare id d) mainDataSections
         (document w);
     localStorage := localStorage w;
     requests := requests w |}.

(** A target with its three elements. *)
Definition Prepared (t : Target) : Prop :=
  present (loader t) = true
  /\ present (errorMessageElement t) = true
  /\ present (dataContent t) = true.

End Page.

(** ** Shapes of lists and standings documents *)

Module Documents.
Import Js Normalizers.

(** An array with at least one entry. *)
Definition isFilledArray (v : JsVal) : bool :=
  match v with JArr (_ :: _) => true | _ => false end.

(** An entry of the articles list that is an article: it is not [null],
    and its title, its summary and its link, as far as it has them,
    convert to text. *)
Definition isArticleEntry (article : JsVal) : bool :=
  negb (nullish article)
  && Shapes.converts (prop article "title")
  && Shapes.converts (prop article "summary")
  && Shapes.converts (prop article "link").

(** A count that a number of JavaScript holds exactly. *)
Definition Exact (n : N) : Prop := (n <= 2 ^ 53)%N.

(** A string that does not begin with a digit. *)
Definition NoDigitAhead (s : string) : Prop :=
  span_digits s = (EmptyString, s).

(** The summary string of a record: wins and losses, and the ties when
    they are given. *)
Definition summaryOf (wins losses : N) (ties : option N) : string :=
  pretty wins ++ "-" ++ pretty losses
  ++ match ties with Some t => "-" ++ pretty t | None => "" end.

(** The entries of a group of [data.children], when it has them as an
    array. *)
Definition groupEntries (child : JsVal) : option (list JsVal) :=
  if truthy (prop child "standings")
  then match prop (prop child "standings") "entries" with
       | JArr entries => Some entries
       | _ => None
       end
  else None.

(** A group that the search passes over: it is not [null], and the
    tracked team is in none of its entries. *)
Definition WithoutTrackedTeam (child : JsVal) : Prop :=
  nullish child = false
  /\ forall entries,
       groupEntries child = Some entries ->
       Forall (fun entry => isTrackedTeam entry = Ret false) entries.

(** A fragment that opens, after a line break and its indentation, with a
    tag. *)
Definition Indented (s : string) : Prop :=
  exists body, s = nl ++ "        <" ++ body.

(** A record with a [stats] array in which wins, losses or ties have no
    entry. *)
Definition LacksStat (stats : list JsVal) : Prop :=
  Shapes.statEntry stats "wins" = None
  \/ Shapes.statEntry stats "losses" = None
  \/ Shapes.statEntry stats "ties" = None.

End Documents.

(** ** Sample documents *)

Module Cases.
Import Js Normalizers Engine.

(** The page with its four sections, each prepared. *)
Definition fullPage (cache : gmap string string) : World :=
  {| document :=
       list_to_map
         ((fun id => (id, Samples.preparedSection)) <$> Page.mainDataSections);
     localStorage := Some cache;
     requests := [] |}.

(** Articles: one with its three fields and one with none; a list with a
    [null] entry. *)
Definition twoArticles : JsVal :=
  JObj [("articles",
         JArr [JObj [("title", JStr "Victoria en casa");
                     ("summary", JStr "Resumen del partido.");
                     ("link", JStr "https://example.com/victoria")];
               JObj []])].

Definition articlesWithNull : JsVal :=
  JObj [("articles", JArr [JObj [("title", JStr "Victoria en casa")]; JNull])].

(** League standings by groups, the tracked team in the second group, with
    a [record.items] list beside them. *)
Definition trackedEntry : JsVal :=
  JObj [("team", JObj [("id", JStr "28")]); ("summary", JStr "12-5")].

Definition leagueStandings : JsVal :=
  JObj [("children",
         JArr [JObj [("name", JStr "American Football Conference")];
               JObj [("standings",
                      JObj [("entries",
                             JArr [JObj [("team", JObj [("id", JStr "6")]);
                                         ("summary", JStr "7-10")];
                                   trackedEntry])])]]);
        ("record", JObj [("items", JArr [Samples.totalItem])])].

(** Standings whose overall record has statistics for wins and losses
    only. *)
Definition totalWithoutTies : list (string * JsVal) :=
  [("type", JStr "total");
   ("stats", JArr [Samples.stat "name" "wins" 7;
                   Samples.stat "name" "losses" 9])].

Definition standingsWithoutTies : JsVal :=
  JObj [("records", JArr [JObj totalWithoutTies])].

(** An event whose competitors come keyed by side and not as a list, after
    a well-formed event. *)
Definition keyedEvent : JsVal :=
  JObj [("name", JStr "Washington at New York");
        ("competitions",
         JArr [JObj [("competitors",
                      JObj [("home", Samples.competitor "home" "NYG"
                                       "New York Giants" "0");
                            ("away", Samples.competitor "away" "WSH"
                                       "Washington Commanders" "0")])]])].

Definition keyedSchedule : JsVal :=
  JObj [("events", JArr [Samples.finishedGame; keyedEvent])].

(** A network that answers the request for the events with a schedule and
    every other request with a podcast. *)
Definition siteNetwork : string -> FetchOutcome :=
  fun u =>
    if String.eqb u Page.eventsUrl
    then Samples.serving (JObj [("events", JArr Samples.schedule)]) u
    else Samples.serving Samples.onePodcast u.

End Cases.

(** ** The proxy of the ESPN API *)

Module Proxy.
Import Js Normalizers Engine.

(** *** The query string of [URLSearchParams] *)

(** The bytes that the serializer leaves as they are: letters, digits and
    [*], [-], [.], [_]. *)
Definition formUnreserved (c : ascii) : bool :=
  let n := byte c in
  (n =? 42)%nat || (n =? 45)%nat || (n =? 46)%nat || (n =? 95)%nat
  || ((48 <=? n)%nat && (n <=? 57)%nat)
  || ((65 <=? n)%nat && (n <=? 90)%nat)
  || ((97 <=? n)%nat && (n <=? 122)%nat).

Definition hexDigit (n : nat) : ascii :=
  ascii_of_nat (if (n <? 10)%nat then 48 + n else 55 + n).

Definition percentEncode (c : ascii) : string :=
  String "%" (String (hexDigit (byte c / 16))
                (String (hexDigit (byte c mod 16)) EmptyString)).

(** A name or a value in the query string, byte by byte of its UTF-8
    form: a space as [+], the unreserved bytes as they are, every other byte
    as a percent sign and two hexadecimal digits. *)
Fixpoint formEncode (s : string) : string :=
  match s with
  | EmptyString => EmptyString
  | String c t =>
      (if (byte c =? 32)%nat then "+"
       else if formUnreserved c then String c EmptyString
       else percentEncode c)
      ++ formEncode t
  end.

(** [new URLSearchParams(record).toString()]: the values converted to
    strings, the pairs joined with [&]. The values are the numbers and the
    strings that the handlers pass, and the key. *)
Definition toString (record : list (string * JsVal)) : string :=
  String.concat "&"
    (map (fun '(name, value) =>
            formEncode name ++ "=" ++ formEncode (Shapes.shown value))
       record).

(** [{ ...queryParams, apikey: API_KEY }] for the property [name]: the
    property takes the new value where it is, or is added last (the names
    are no array indices, which an object would list first). *)
Fixpoint spread (queryParams : list (string * JsVal)) (name : string)
  (value : JsVal) : list (string * JsVal) :=
  match queryParams with
  | [] => [(name, value)]
  | (name', value') :: rest =>
      if String.eqb name name' then (name, value) :: rest
      else (name', value') :: spread rest name value
  end.

(** *** [fetchEspnApi] *)

Definition ESPN_API_BASE_URL : string :=
  "http://site.api.espn.com/apis/site/v2".

(** What the promise of [fetchEspnApi] settles to: the data, or an [Error]
    with its message. *)
Inductive Settled : Type :=
| Resolved (data : JsVal)
| Rejected (message : string).

Definition keyMissingMessage : string :=
  "ESPN_API_KEY is not defined in environment variables. This is a server configuration issue.".

Definition unreachableMessage : string :=
  "A network error occurred while trying to reach the ESPN API. Please check connectivity.".

Definition statusMessage (response : Response) : string :=
  "Request to ESPN API failed with status " ++ pretty (status response)
  ++ " (" ++ statusText response ++ ").".

Definition malformedMessage : string :=
  "Failed to parse a supposedly valid JSON response from the ESPN API.".

Definition requestUrl (API_KEY path : string)
  (queryParams : list (string * JsVal)) : string :=
  ESPN_API_BASE_URL ++ "/" ++ path ++ "?"
  ++ toString (spread queryParams "apikey" (JStr API_KEY)).

(** [env] is [process.env.ESPN_API_KEY], [upstream] the answer of the ESPN
    API to a request. The result comes with the requests that were
    made. *)
Definition fetchEspnApi (env : option string)
  (upstream : string -> FetchOutcome) (path : string)
  (queryParams : list (string * JsVal)) : Settled * list string :=
  match env with
  | None => (Rejected keyMissingMessage, [])
  | Some API_KEY =>
      if negb (truthy (JStr API_KEY)) then (Rejected keyMissingMessage, [])
      else
        let url := requestUrl API_KEY path queryParams in
        (match upstream url with
         | NetworkFailure => Rejected unreachableMessage
         | Responded response =>
             if negb (ok response) then Rejected (statusMessage response)
             else
               match json response with
               | Some data => Resolved data
               | None => Rejected malformedMessage
               end
         end, [url])
  end.

(** *** The handlers *)

(** What a handler sends: [res.status(code).json(body)]. *)
Record Reply := { code : Z; body : JsVal }.

(** The [try] and [catch] of a handler around its call of
    [fetchEspnApi]; [failure] is the opening of its error text. *)
Definition reply (failure : string) (settled : Settled) : Reply :=
  match settled with
  | Resolved data => {| code := 200; body := data |}
  | Rejected message =>
      {| code := 500;
         body := JObj [("error", JStr (failure ++ " " ++ message))] |}
  end.

(** The two handlers are the same function, up to the path, the
    parameters and the error text. *)
Definition handle (path : string) (queryParams : list (string * JsVal))
  (failure : string) (env : option string)
  (upstream : string -> FetchOutcome) : Reply * list string :=
  let '(settled, asked) := fetchEspnApi env upstream path queryParams in
  (reply failure settled, asked).

Module EspnEvents.

Definition TEAM_ID : string := "28".
Definition API_PATH : string :=
  "sports/football/nfl/teams/" ++ TEAM_ID ++ "/schedule".

Definition queryParams : list (string * JsVal) :=
  [("seasontype", JNum 2); ("groups", JStr "all"); ("limit", JNum 500)].

Definition handler : option string -> (string -> FetchOutcome)
                     -> Reply * list string :=
  handle API_PATH queryParams "Failed to fetch ESPN team events.".

End EspnEvents.

Module EspnStandings.

Definition LEAGUE : string := "nfl".
Definition API_PATH : string := "sports/football/" ++ LEAGUE ++ "/standings".

Definition queryParams : list (string * JsVal) :=
  [("groups", JStr "all"); ("limit", JNum 500)].

Definition handler : option string -> (string -> FetchOutcome)
                     -> Reply * list string :=
  handle API_PATH queryParams
    ("Failed to fetch ESPN " ++ LEAGUE ++ " standings.").

End EspnStandings.

(** *** For the statements *)

(** Every character of a string passes a test. *)
Fixpoint allChars (p : ascii -> bool) (s : string) : bool :=
  match s with
  | EmptyString => true
  | String c t => p c && allChars p t
  end.

(** The characters of an encoded name or value. *)
Definition formSafe (c : ascii) : bool :=
  formUnreserved c || (byte c =? 43)%nat || (byte c =? 37)%nat.

(** The key is there and not empty. *)
Definition KeySet (env : option string) (key : string) : Prop :=
  env = Some key /\ key <> "".

(** The messages of the [Error]s of [fetchEspnApi] after a request:
    they are fixed, or made of the status of the response. *)
Definition afterRequest (outcome : FetchOutcome) (message : string) : Prop :=
  match outcome with
  | NetworkFailure => message = unreachableMessage
  | Responded response =>
      message = statusMessage response \/ message = malformedMessage
  end.

(** An upstream that always answers with the same response. *)
Definition espnAnswers (data : JsVal) : string -> FetchOutcome :=
  fun _ => Responded {| ok := true; status := 200; statusText := "OK";
                        contentType := Some "application/json";
                        json := Some data |}.

End Proxy.

(** ** The calls of a page load, started together *)

Module Concurrent.
Import Js Normalizers Engine Outcomes.

(** A call of [fetchDataAndDisplay], by its arguments. *)
Record Call := {
  url : string;
  elementId : string;
  cacheKey : string;
  processDataFunction : JsVal -> Res (option string);
  emptyDataMessage : string
}.

(** The call run from its beginning to its end. *)
Definition complete (accepts : string -> string -> bool)
  (network : string -> FetchOutcome) (c : Call) : World -> World :=
  fetchDataAndDisplay accepts network (url c) (elementId c) (cacheKey c)
    (processDataFunction c) (emptyDataMessage c).

Section Segments.

Variable accepts : string -> string -> bool.
Variable network : string -> FetchOutcome.
Variable c : Call.

(** [fetch(url)] is called: the request is issued, the function waits. *)
Definition issue : Step unit :=
  fun w => (Ret tt, {| target := target w; storage := storage w;
                       issued := url c :: issued w |}).

(** The function from its [try] to its first [await], the one of
    [fetch(url)]: it gets there ([true]), or it is over before ([false]),
    with the cached fragment shown or with an exception caught, and the
    [finally] block done. *)
Definition untilFetch : Step bool :=
  let! waiting :=
    tryCatch
      (loaderHidden false ;;
       onError (setHidden true) ;;
       (let! child := contentIsChild in when child (writeContent "")) ;;
       let! cachedData := getItem (cacheKey c) in
       match cachedData with
       | Some cached =>
           if truthy (JStr cached)
           then writeContent cached ;; loaderHidden true ;; pure false
           else issue ;; pure true
       | None => issue ;; pure true
       end)
      (fun error => catchBlock error ;; pure false) in
  if waiting then pure true else loaderHidden true ;; pure false.

(** The checks on what [fetch] gave. The two further [await]s, of
    [response.text()] and of [response.json()], lie between steps that
    touch neither the page nor the storage. *)
Definition checked (outcome : FetchOutcome) : Step JsVal :=
  match outcome with
  | NetworkFailure =>
      raise (FetchDataError
               "Could not connect to the server. Please check your internet connection."
               "NetworkError" None)
  | Responded response =>
      if negb (ok response) then
        raise (FetchDataError
                 ("Failed to load data: Server responded with "
                  ++ pretty (status response) ++ " ("
                  ++ statusText response ++ ").")
                 "HttpError" (Some (status response)))
      else if match contentType response with
              | None => true
              | Some ct => negb (truthy (JStr ct))
                           || negb (includes ct "application/json")
              end then
        raise (FetchDataError
                 "The server provided data in an unexpected format (expected JSON)."
                 "JsonParseError" None)
      else
        match json response with
        | None =>
            raise (FetchDataError
                     "There was an issue understanding the data from the server (JSON parsing failed)."
                     "JsonParseError" None)
        | Some data => pure data
        end
  end.

(** The function from the moment its [fetch] has settled to its end. *)
Definition afterFetch : Step unit :=
  tryFinally
    (tryCatch
       (let! data := checked (network (url c)) in
        let! htmlContent := process (processDataFunction c) data in
        if hasContent htmlContent then
          writeContent (default "" htmlContent) ;;
          setItem accepts (cacheKey c) (default "" htmlContent)
        else
          writeContent ("<p>" ++ emptyDataMessage c ++ "</p>"))
       catchBlock)
    (loaderHidden true).

(** A segment of the function, on the page: the function holds the
    elements of its target, which no other call touches. *)
Definition onPage {A} (segment : Step A) (otherwise : A) (w : World)
  : World * A :=
  match document w !! elementId c with
  | None => (w, otherwise)
  | Some t =>
      let '(r, f) := segment {| target := t; storage := localStorage w;
                                issued := requests w |} in
      ({| document := <[elementId c := target f]> (document w);
          localStorage := storage f;
          requests := issued f |},
       match r with Ret a => a | Throw _ => otherwise end)
  end.

(** The call is made: it runs to its [fetch], or to its end. *)
Definition start (w : World) : World * bool := onPage untilFetch false w.

(** Its [fetch] has settled: it runs to its end. *)
Definition settle (w : World) : World := fst (onPage afterFetch tt w).

End Segments.

(** The calls are made one after the other, none awaited: each runs to
    its [fetch]; the calls that wait are listed. *)
Fixpoint startAll (calls : list Call) (w : World) : World * list Call :=
  match calls with
  | [] => (w, [])
  | c :: rest =>
      let '(w1, waiting) := start c w in
      let '(w2, others) := startAll rest w1 in
      (w2, if waiting then c :: others else others)
  end.

(** The requests settle in some order. *)
Definition settleAll (accepts : string -> string -> bool)
  (network : string -> FetchOutcome) (order : list Call) (w : World)
  : World :=
  fold_left (fun w c => settle accepts network c w) order w.

(** The calls run one after the other, each to its end. *)
Definition completeAll (accepts : string -> string -> bool)
  (network : string -> FetchOutcome) (calls : list Call) (w : World)
  : World :=
  fold_left (fun w c => complete accepts network c w) calls w.

(** What a segment does to a page is local to its call: it depends on the
    target of the call and on what the storage gives for its key only, and
    it changes that target, that key and the requests only; [quiet] says
    that it issues no request. *)
Definition LocalTo (c : Call) (quiet : bool) (f : World -> World) : Prop :=
  (forall w, document w !! elementId c = None -> f w = w)
  /\ forall t look,
       exists t' e,
         (quiet = true -> asked e = false)
         /\ forall w,
              document w !! elementId c = Some t ->
              cached (cacheKey c) (localStorage w) = look ->
              f w = {| document := <[elementId c := t']> (document w);
                       localStorage := store (cacheKey c) e (localStorage w);
                       requests := ask (url c) e (requests w) |}.

(** Two calls with different targets and different keys. *)
Definition Apart (a b : Call) : Prop :=
  elementId a <> elementId b /\ cacheKey a <> cacheKey b.

(** How a run leaves a target that has its three elements: they are
    still there, the loader is hidden, the markup of the target itself is
    as it was, and the error element is hidden, or it is shown with a
    message and the content child is empty. *)
Definition Settled (t t' : Target) : Prop :=
  Page.Prepared t'
  /\ hidden <$> loader t' = Some true
  /\ ownHTML t' = ownHTML t
  /\ ((exists e, errorMessageElement t' = Some e /\ hidden e = true)
      \/ (exists message,
            errorMessageElement t'
            = Some {| hidden := false; textContent := message |}
            /\ content t' = "")).

(** The four calls of the page, in the order in which the handler of
    [DOMContentLoaded] makes them. *)
Definition pageCalls (linkSource : string)
  (formatDate : JsVal -> option string) (numLtTwo : string -> bool)
  : list Call :=
  [ {| url := Page.eventsUrl; elementId := "teams-data";
       cacheKey := "commanders-events";
       processDataFunction := processTeamEventsData formatDate numLtTwo;
       emptyDataMessage :=
         "No hay partidos disponibles para los Commanders en este momento." |};
    {| url := Page.standingsUrl; elementId := "temporada-data";
       cacheKey := "commanders-standings";
       processDataFunction := processStandingsData;
       emptyDataMessage :=
         "No hay datos de clasificación disponibles en este momento." |};
    {| url := Page.contentUrl; elementId := "articles-list";
       cacheKey := "articles-cache";
       processDataFunction := Page.processArticles linkSource;
       emptyDataMessage := "No hay artículos disponibles en este momento." |};
    {| url := Page.contentUrl; elementId := "podcast-list";
       cacheKey := "podcasts-cache";
       processDataFunction := processPodcasts;
       emptyDataMessage := "No hay podcasts disponibles en este momento." |} ].

End Concurrent.

(** ** Properties of the engine *)

Module EngineProps.
Import Js Engine Terms.

(** *** What every step keeps *)

Section Keeps.
Variable P : Frame -> Frame -> Prop.
Hypothesis P_refl : forall w, P w w.
Hypothesis P_trans : forall a b c, P a b -> P b c -> P a c.

Lemma keeps_pure {A} (a : A) : Keeps P (pure a).
Proof. intros w. apply P_refl. Qed.

Lemma keeps_raise {A} e : Keeps P (@raise A e).
Proof. intros w. apply P_refl. Qed.

Lemma keeps_lift {A} (r : Res A) : Keeps P (lift r).
Proof. intros w. apply P_refl. Qed.

Lemma keeps_andThen {A B} (m : Step A) (k : A -> Step B) :
  Keeps P m -> (forall a, Keeps P (k a)) -> Keeps P (andThen m k).
Proof.
  intros Hm Hk w. unfold andThen. specialize (Hm w).
  destruct (m w) as [[a|e] w']; simpl in *; [|exact Hm].
  eapply P_trans; [exact Hm|apply Hk].
Qed.

Lemma keeps_tryCatch {A} (m : Step A) h :
  Keeps P m -> (forall e, Keeps P (h e)) -> Keeps P (tryCatch m h).
Proof.
  intros Hm Hh w. unfold tryCatch. specialize (Hm w).
  destruct (m w) as [[a|e] w']; simpl in *; [exact Hm|].
  eapply P_trans; [exact Hm|apply Hh].
Qed.

Lemma keeps_tryFinally {A} (m : Step A) f :
  Keeps P m -> Keeps P f -> Keeps P (tryFinally m f).
Proof.
  intros Hm Hf w. unfold tryFinally. specialize (Hm w).
  destruct (m w) as [r w']. specialize (Hf w'). simpl in *.
  destruct (f w') as [[u|e] w'']; simpl in *; eapply P_trans; eauto.
Qed.

Lemma keeps_when b (m : Step unit) : Keeps P m -> Keeps P (when b m).
Proof. intros Hm. destruct b; [exact Hm|apply keeps_pure]. Qed.

End Keeps.

(** *** The runs of [fetchDataAndDisplay] *)

Section Run.
Context (accepts : string -> string -> bool)
        (network : string -> FetchOutcome) (url elementId cacheKey : string)
        (processDataFunction : JsVal -> Res (option string))
        (emptyDataMessage : string).

Local Abbreviation run :=
  (fetchDataAndDisplay accepts network url elementId cacheKey
     processDataFunction emptyDataMessage).
Local Abbreviation runT :=
  (runOnTarget accepts network url cacheKey processDataFunction
     emptyDataMessage).
Local Abbreviation tryB :=
  (tryBlock accepts network url cacheKey processDataFunction
     emptyDataMessage).
Local Abbreviation render :=
  (fetchAndRender accepts network url cacheKey processDataFunction
     emptyDataMessage).

Lemma sameLoader_refl w : SameLoader w w.
Proof. reflexivity. Qed.

Lemma sameLoader_trans a b c :
  SameLoader a b -> SameLoader b c -> SameLoader a c.
Proof. unfold SameLoader. congruence. Qed.

Lemma sameLoader_loaderHidden b : Keeps SameLoader (loaderHidden b).
Proof. intros [[[lo|] er dc own] st iss]; reflexivity. Qed.

Lemma sameLoader_onError f : Keeps SameLoader (onError f).
Proof. intros w. reflexivity. Qed.

Lemma sameLoader_writeContent html : Keeps SameLoader (writeContent html).
Proof. intros [[lo er [d|] own] st iss]; reflexivity. Qed.

(** One step after another, for the loader. *)
Ltac then_loader :=
  apply keeps_andThen; [apply sameLoader_trans| |].

Lemma sameLoader_showError msg : Keeps SameLoader (showError msg).
Proof.
  unfold showError.
  then_loader; [intros w; reflexivity|intros hasError].
  then_loader; [|intros _].
  - destruct hasError;
      [apply sameLoader_onError|apply sameLoader_writeContent].
  - then_loader; [intros w; reflexivity|intros child].
    apply keeps_when; [apply sameLoader_refl|apply sameLoader_writeContent].
Qed.

Lemma sameLoader_retrieve : Keeps SameLoader (retrieve network url).
Proof.
  unfold retrieve. then_loader; [intros w; reflexivity|].
  intros [|r]; [apply keeps_raise, sameLoader_refl|].
  destruct (negb (ok r)); [apply keeps_raise, sameLoader_refl|].
  destruct (match contentType r with Some _ => _ | None => _ end);
    [apply keeps_raise, sameLoader_refl|].
  destruct (json r); [apply keeps_pure|apply keeps_raise];
    apply sameLoader_refl.
Qed.

Lemma sameLoader_process data :
  Keeps SameLoader (process processDataFunction data).
Proof.
  unfold process. apply keeps_tryCatch; [apply sameLoader_trans| |].
  - apply keeps_lift, sameLoader_refl.
  - intros []; apply keeps_raise, sameLoader_refl.
Qed.

Lemma sameLoader_fetchAndRender : Keeps SameLoader render.
Proof.
  unfold fetchAndRender.
  then_loader; [apply sameLoader_retrieve|intros data].
  then_loader; [apply sameLoader_process|intros html].
  destruct (hasContent html); [|apply sameLoader_writeContent].
  then_loader; [apply sameLoader_writeContent|].
  intros _ [t [m|] iss]; unfold SameLoader, setItem; simpl;
    [destruct (accepts _ _)|]; reflexivity.
Qed.

Lemma sameLoader_tryBlock : Keeps SameLoader tryB.
Proof.
  unfold tryBlock.
  then_loader; [apply sameLoader_loaderHidden|intros _].
  then_loader; [apply sameLoader_onError|intros _].
  then_loader; [|intros _].
  { then_loader; [intros w; reflexivity|intros child].
    apply keeps_when; [apply sameLoader_refl|apply sameLoader_writeContent]. }
  then_loader; [intros [t [m|] iss]; reflexivity|].
  intros [cached|]; [|apply sameLoader_fetchAndRender].
  destruct (truthy (JStr cached)); [|apply sameLoader_fetchAndRender].
  then_loader; [apply sameLoader_writeContent|intros _].
  apply sameLoader_loaderHidden.
Qed.

Lemma sameLoader_run : Keeps SameLoader (tryCatch tryB catchBlock).
Proof.
  apply keeps_tryCatch;
    [apply sameLoader_trans|apply sameLoader_tryBlock|].
  intros []; apply sameLoader_showError.
Qed.

(** The [finally] block then hides the loader that the steps kept. *)
Lemma run_hides_loader fr :
  loader (target (snd (runT fr))) = setHidden true <$> loader (target fr).
Proof.
  unfold runOnTarget, tryFinally.
  pose proof (sameLoader_run fr) as H.
  destruct (tryCatch _ _ fr) as [r [[lo er dc own] st iss]].
  unfold SameLoader in H. simpl in *.
  destruct lo as [[h x]|], (loader (target fr)) as [[h' x']|]; simpl in *;
    try discriminate; [|reflexivity].
  injection H as ->. reflexivity.
Qed.

Lemma content_showing markup t : content (showing markup t) = markup.
Proof. destruct t as [lo er [d|] own]; reflexivity. Qed.

(** *** The [try] block, by what the storage gives *)

Local Abbreviation begun fr :=
  {| target := started (target fr); storage := storage fr;
     issued := issued fr |}.

Lemma tryBlock_no_storage fr :
  storage fr = None ->
  tryB fr = (Throw DOMException, begun fr).
Proof.
  destruct fr as [[lo er dc own] st iss]. simpl. intros ->.
  destruct dc; reflexivity.
Qed.

Lemma tryBlock_hit fr m cached :
  storage fr = Some m -> m !! cacheKey = Some cached -> cached <> "" ->
  tryB fr = (Ret tt, {| target := showing cached (target fr);
                        storage := storage fr; issued := issued fr |}).
Proof.
  destruct fr as [[lo er dc own] st iss]. simpl. intros -> Hk Hne.
  apply String.eqb_neq in Hne.
  destruct dc, lo, er; unfold_steps; simpl; rewrite Hk; simpl; rewrite Hne;
    reflexivity.
Qed.

Lemma tryBlock_miss fr m :
  storage fr = Some m ->
  (m !! cacheKey = None \/ m !! cacheKey = Some "") ->
  tryB fr = render (begun fr).
Proof.
  destruct fr as [[lo er dc own] st iss]. simpl. intros -> Hk.
  unfold tryBlock, andThen, loaderHidden, onError, onTarget, contentIsChild,
    when, getItem, writeContent, pure.
  destruct dc, Hk as [Hk|Hk]; simpl; rewrite Hk; reflexivity.
Qed.

(** The run on a warm cache. *)
Lemma run_cache_hit fr m cached :
  storage fr = Some m -> m !! cacheKey = Some cached -> cached <> "" ->
  runT fr = (Ret tt, {| target := showing cached (target fr);
                        storage := storage fr; issued := issued fr |}).
Proof.
  intros Hs Hk Hne. unfold runOnTarget, tryFinally, tryCatch.
  rewrite (tryBlock_hit fr m cached Hs Hk Hne).
  destruct fr as [[[lo|] er [d|] own] st iss]; reflexivity.
Qed.

Lemma jsonResponse_passes r :
  JsonResponse r ->
  negb (ok r) = false
  /\ match contentType r with
     | None => true
     | Some ct =>
         negb (truthy (JStr ct)) || negb (includes ct "application/json")
     end = false.
Proof.
  intros [Hok (ct & Hct & Hinc)]. rewrite Hok, Hct, Hinc.
  split; [reflexivity|]. destruct ct; [discriminate Hinc|reflexivity].
Qed.

Lemma retrieve_ok fr r data :
  network url = Responded r -> JsonResponse r -> json r = Some data ->
  retrieve network url fr
  = (Ret data, {| target := target fr; storage := storage fr;
                  issued := url :: issued fr |}).
Proof.
  intros Hn Hr Hj. destruct (jsonResponse_passes r Hr) as [Hok Hct].
  unfold retrieve, andThen, fetch. rewrite Hn. cbn beta iota.
  rewrite Hok, Hct, Hj. reflexivity.
Qed.

(** The run when the transform gives nothing to show. *)
Lemma run_nothing_to_show fr m r data res :
  storage fr = Some m ->
  (m !! cacheKey = None \/ m !! cacheKey = Some "") ->
  network url = Responded r -> JsonResponse r -> json r = Some data ->
  processDataFunction data = Ret res -> hasContent res = false ->
  runT fr
  = (Ret tt, {| target := showing ("<p>" ++ emptyDataMessage ++ "</p>")
                            (target fr);
                storage := storage fr;
                issued := url :: issued fr |}).
Proof.
  intros Hs Hk Hn Hr Hj Hp Hc.
  unfold runOnTarget, tryFinally, tryCatch.
  rewrite (tryBlock_miss fr m Hs Hk).
  unfold fetchAndRender, andThen.
  rewrite (retrieve_ok (begun fr) r data Hn Hr Hj).
  unfold process, tryCatch, lift. rewrite Hp, Hc.
  destruct fr as [[[lo|] [er|] [d|] own] st iss]; reflexivity.
Qed.

(** *** When the storage is written *)

Lemma sameStorage_showError msg : Keeps SameStorage (showError msg).
Proof. intros [[lo [e|] [d|] own] st iss]; reflexivity. Qed.

Lemma sameStorage_catchBlock e : Keeps SameStorage (catchBlock e).
Proof. destruct e; apply sameStorage_showError. Qed.

(** After the [try] block the storage is what the run ends with. *)
Lemma run_storage_tryBlock fr :
  storage (snd (runT fr))
  = storage (snd (tryB fr)).
Proof.
  unfold runOnTarget, tryFinally, tryCatch.
  destruct (tryBlock _ _ _ _ _ _ fr) as [[u|e] fr1]; simpl; [reflexivity|].
  pose proof (sameStorage_catchBlock e fr1) as E. unfold SameStorage in E.
  destruct (catchBlock e fr1) as [r1 fr2]. exact E.
Qed.

Local Abbreviation Written' :=
  (Written accepts network url cacheKey processDataFunction).

Lemma fetchAndRender_storage fr :
  let fr' := snd (render fr) in
  storage fr' = storage fr \/ Written' fr fr'.
Proof.
  destruct fr as [[lo er dc own] st iss].
  unfold fetchAndRender, retrieve, process, fetch, tryCatch, andThen, lift,
    raise, pure. simpl.
  destruct (network url) as [|r] eqn:Hn; simpl; [left; reflexivity|].
  destruct (ok r) eqn:Hok; simpl; [|left; reflexivity].
  destruct (contentType r) as [ct|] eqn:Hct; simpl; [|left; reflexivity].
  destruct (String.eqb ct "") eqn:Hne; simpl; [left; reflexivity|].
  destruct (includes ct "application/json") eqn:Hinc; simpl;
    [|left; reflexivity].
  destruct (json r) as [data|] eqn:Hj; simpl; [|left; reflexivity].
  destruct (processDataFunction data) as [res|e] eqn:Hp; simpl;
    [|left; destruct e; reflexivity].
  destruct (hasContent res) eqn:Hc; simpl;
    [|left; unfold writeContent, onTarget; reflexivity].
  destruct res as [html|]; [|discriminate Hc].
  unfold writeContent, onTarget, setItem. simpl.
  destruct st as [m|]; simpl; [|left; reflexivity].
  destruct (accepts cacheKey html) eqn:Ha; simpl; [|left; reflexivity].
  right. exists m, r, data, html. repeat split; try assumption.
  exists ct. split; assumption.
Qed.

Lemma written_same a a' b b' :
  Written' a b -> storage a' = storage a -> storage b' = storage b ->
  Written' a' b'.
Proof.
  intros (m & r & data & html & H1 & H2 & H3 & H4 & H5 & H6 & H7 & H8) Ea Eb.
  exists m, r, data, html. rewrite Ea, Eb. auto 10.
Qed.

(** A run leaves the storage as it was, or it missed the cache and wrote
    the fragment of the transform. *)
Lemma run_storage fr :
  let fr' := snd (runT fr) in
  storage fr' = storage fr
  \/ (exists m, storage fr = Some m
                /\ (m !! cacheKey = None \/ m !! cacheKey = Some ""))
     /\ Written' fr fr'.
Proof.
  cbn zeta. pose proof (run_storage_tryBlock fr) as E.
  destruct (storage fr) as [m|] eqn:Hs;
    [|rewrite (tryBlock_no_storage fr Hs) in E; simpl in E; left;
      congruence].
  assert (m !! cacheKey = None \/ m !! cacheKey = Some ""
          \/ exists cached, m !! cacheKey = Some cached /\ cached <> "")
    as [Hk|[Hk|(cached & Hk & Hne)]].
  { destruct (m !! cacheKey) as [cached|]; [|auto].
    destruct (String.eqb_spec cached "") as [->|Hne]; eauto. }
  - rewrite (tryBlock_miss fr m Hs (or_introl Hk)) in E.
    destruct (fetchAndRender_storage (begun fr)) as [H|H]; simpl in H.
    + left. congruence.
    + right. split; [exists m; auto|].
      apply (written_same _ _ _ _ H); [reflexivity|exact E].
  - rewrite (tryBlock_miss fr m Hs (or_intror Hk)) in E.
    destruct (fetchAndRender_storage (begun fr)) as [H|H]; simpl in H.
    + left. congruence.
    + right. split; [exists m; auto|].
      apply (written_same _ _ _ _ H); [reflexivity|exact E].
  - rewrite (tryBlock_hit fr m cached Hs Hk Hne) in E. simpl in E. left.
    congruence.
Qed.

(** *** White space *)

Lemma trimStart_whitespace c s :
  In c whitespaceChars -> trimStart (c ++ s) = trimStart s.
Proof.
  unfold whitespaceChars. simpl.
  intros H. repeat (destruct H as [<-|H]; [reflexivity|]). contradiction.
Qed.

Lemma onlyWhitespace_trim s : OnlyWhitespace s -> trim s = "".
Proof.
  intros H. unfold trim.
  assert (trimStart s = "") as ->; [|reflexivity].
  induction H as [|c s Hc _ IH]; [reflexivity|].
  rewrite trimStart_whitespace by exact Hc. exact IH.
Qed.

Lemma onlyWhitespace_hasContent s : OnlyWhitespace s -> hasContent (Some s) = false.
Proof.
  intros H. simpl. rewrite (onlyWhitespace_trim s H). simpl.
  apply andb_false_r.
Qed.

Lemma emptySignal_hasContent r : EmptySignal r -> hasContent r = false.
Proof. intros [->| ->]; reflexivity. Qed.

(** *** The properties of the engine *)

Lemma reaches_nothing_to_show w t data res :
  document w !! elementId = Some t ->
  ReachesTransform network url elementId cacheKey w data ->
  processDataFunction data = Ret res -> hasContent res = false ->
  run w = {| document := <[elementId := showing ("<p>" ++ emptyDataMessage ++ "</p>") t]>
                           (document w);
             localStorage := localStorage w;
             requests := url :: requests w |}.
Proof.
  intros Ht (_ & (m & Hm & Hk) & r & Hn & Hr & Hj) Hp Hc.
  unfold fetchDataAndDisplay. rewrite Ht.
  rewrite (run_nothing_to_show
             {| target := t; storage := localStorage w; issued := requests w |}
             m r data res Hm Hk Hn Hr Hj Hp Hc).
  reflexivity.
Qed.

End Run.

(** Without its target on the page a run changes nothing. *)
Lemma run_without_target
  accepts network url elementId cacheKey processDataFunction emptyDataMessage
  (w : World) :
  document w !! elementId = None ->
  fetchDataAndDisplay accepts network url elementId cacheKey processDataFunction
    emptyDataMessage w = w.
Proof. intros H. unfold fetchDataAndDisplay. rewrite H. reflexivity. Qed.

(** With the display target on the page and a non-empty entry for the
    cache key in the storage, the run shows the cached fragment and issues
    no request. *)
Lemma nonempty_entry_is_shown
  accepts network url elementId cacheKey processDataFunction emptyDataMessage
  (w : World) (t : Target) (m : gmap string string) (cached : string) :
  document w !! elementId = Some t ->
  localStorage w = Some m -> m !! cacheKey = Some cached -> cached <> "" ->
  fetchDataAndDisplay accepts network url elementId cacheKey
    processDataFunction emptyDataMessage w
  = {| document := <[elementId := showing cached t]> (document w);
       localStorage := localStorage w;
       requests := requests w |}.
Proof.
  intros Ht Hm Hk Hne. unfold fetchDataAndDisplay. rewrite Ht.
  rewrite (run_cache_hit accepts network url cacheKey processDataFunction
             emptyDataMessage
             {| target := t; storage := localStorage w; issued := requests w |}
             m cached Hm Hk Hne).
  reflexivity.
Qed.

(** What a run stores has content: it is not the empty string. *)
Lemma hasContent_nonempty html : hasContent (Some html) = true -> html <> "".
Proof. intros H ->. discriminate H. Qed.

(** A cache that only the engine writes holds no empty entry. *)
Lemma engineCache_entries s :
  EngineCache s ->
  forall m k v, s = Some m -> m !! k = Some v -> v <> "".
Proof.
  induction 1 as [| |accepts network url elementId cacheKey f msg w _ IH
                  |m0 k0 _ IH]; intros m k v Hs Hk.
  - discriminate Hs.
  - injection Hs as <-. rewrite lookup_empty in Hk. discriminate Hk.
  - unfold fetchDataAndDisplay in Hs.
    destruct (document w !! elementId) as [t|]; [|exact (IH m k v Hs Hk)].
    pose proof (run_storage accepts network url cacheKey f msg
                  {| target := t; storage := localStorage w;
                     issued := requests w |}) as H.
    destruct (runOnTarget _ _ _ _ _ _ _) as [r fr']. simpl in *.
    destruct H as [H|[_ H]]; [apply (IH m k v); congruence|].
    destruct H as (m' & r0 & data & html & Hm' & _ & _ & _ & _ & Hc & _ & Hw).
    simpl in *. assert (m = <[cacheKey := html]> m') as -> by congruence.
    destruct (decide (cacheKey = k)) as [<-|Hne].
    + rewrite lookup_insert_eq in Hk. injection Hk as <-.
      exact (hasContent_nonempty html Hc).
    + rewrite lookup_insert_ne in Hk by exact Hne.
      exact (IH m' k v Hm' Hk).
  - injection Hs as <-. apply lookup_delete_Some in Hk as [_ Hk].
    exact (IH m0 k v eq_refl Hk).
Qed.

(** C1. On a page whose cache is written by the engine only, a run that
    finds an entry for its cache key in the storage issues no request and
    leaves the storage as it was, whatever the network would answer and
    whatever else the storage holds; when its display target is on the
    page, it leaves that target showing exactly the cached fragment in the
    content area. *)
Theorem warm_cache_renders_without_fetch
  accepts network url elementId cacheKey processDataFunction emptyDataMessage
  (w : World) (m : gmap string string) (cached : string) :
  EngineCache (localStorage w) ->
  localStorage w = Some m -> m !! cacheKey = Some cached ->
  let w' := fetchDataAndDisplay accepts network url elementId cacheKey
              processDataFunction emptyDataMessage w in
  requests w' = requests w
  /\ localStorage w' = localStorage w
  /\ forall t, document w !! elementId = Some t ->
       document w' !! elementId = Some (showing cached t)
       /\ content (showing cached t) = cached.
Proof.
  intros Hcache Hm Hk. cbn zeta.
  pose proof (engineCache_entries _ Hcache m cacheKey cached Hm Hk) as Hne.
  destruct (document w !! elementId) as [t|] eqn:Ht.
  - rewrite (nonempty_entry_is_shown accepts network url elementId cacheKey
               processDataFunction emptyDataMessage w t m cached Ht Hm Hk
               Hne).
    cbn [requests localStorage document]. split; [reflexivity|].
    split; [reflexivity|]. intros t0 [= <-].
    split; [apply lookup_insert_eq|apply content_showing].
  - rewrite (run_without_target accepts network url elementId cacheKey
               processDataFunction emptyDataMessage w Ht).
    split; [reflexivity|]. split; [reflexivity|]. intros t0 H.
    discriminate H.
Qed.

Lemma warm_cache_renders_without_fetch_witness :
  let w := Samples.podcastsRun (Samples.serving Samples.onePodcast)
             Normalizers.processPodcasts (Samples.page ∅) in
  let cached := default "" (default ∅ (localStorage w) !! "podcasts-cache") in
  let w' := Samples.podcastsRun Samples.offline Normalizers.processPodcasts w in
  requests w' = requests w
  /\ localStorage w' = localStorage w
  /\ forall t, document w !! "podcast-list" = Some t ->
       document w' !! "podcast-list" = Some (showing cached t)
       /\ content (showing cached t) = cached.
Proof.
  apply (warm_cache_renders_without_fetch Samples.roomy Samples.offline
           "/api/content" "podcast-list" "podcasts-cache"
           Normalizers.processPodcasts Samples.noPodcasts
           (Samples.podcastsRun (Samples.serving Samples.onePodcast)
              Normalizers.processPodcasts (Samples.page ∅))
           (default ∅
              (localStorage
                 (Samples.podcastsRun (Samples.serving Samples.onePodcast)
                    Normalizers.processPodcasts (Samples.page ∅))))).
  - apply cache_run, cache_empty.
  - vm_compute. reflexivity.
  - vm_compute. reflexivity.
Defined.

(** An entry that is the empty string, which no run stores, is taken for
    no entry: the run issues its request. *)
Remark empty_entry_is_no_entry :
  let w := Samples.page {["podcasts-cache" := ""]} in
  requests w = []
  /\ requests (Samples.podcastsRun Samples.offline Normalizers.processPodcasts w)
     = ["/api/content"].
Proof. split; vm_compute; reflexivity. Qed.

(** C3. When the transform returns the empty signal, the run shows the
    empty-data message in the content area and leaves the storage as it
    was; and whenever a run changes the storage, the transform was reached
    and returned a fragment with content, which is what the run stored
    under the cache key. *)
Theorem empty_signal_shown_and_not_cached
  accepts network url elementId cacheKey processDataFunction emptyDataMessage
  (w : World) :
  let w' := fetchDataAndDisplay accepts network url elementId cacheKey
              processDataFunction emptyDataMessage w in
  (forall data res,
      ReachesTransform network url elementId cacheKey w data ->
      processDataFunction data = Ret res -> EmptySignal res ->
      localStorage w' = localStorage w
      /\ exists t', document w' !! elementId = Some t'
                    /\ content t' = "<p>" ++ emptyDataMessage ++ "</p>")
  /\ (localStorage w' <> localStorage w ->
      exists m data html,
        localStorage w = Some m
        /\ ReachesTransform network url elementId cacheKey w data
        /\ processDataFunction data = Ret (Some html)
        /\ hasContent (Some html) = true
        /\ accepts cacheKey html = true
        /\ localStorage w' = Some (<[cacheKey := html]> m)).
Proof.
  simpl. split.
  - intros data res Hreach Hp He.
    destruct Hreach as [[t Ht] Hrest].
    rewrite (reaches_nothing_to_show accepts network url elementId cacheKey
               processDataFunction emptyDataMessage w t data res Ht
               (conj (mk_is_Some _ _ Ht) Hrest) Hp
               (emptySignal_hasContent res He)).
    simpl. split; [reflexivity|]. eexists.
    split; [apply lookup_insert_eq|apply content_showing].
  - unfold fetchDataAndDisplay.
    destruct (document w !! elementId) as [t|] eqn:Ht; [|intros H; congruence].
    pose proof (run_storage accepts network url cacheKey processDataFunction
                  emptyDataMessage
                  {| target := t; storage := localStorage w;
                     issued := requests w |}) as H.
    destruct (runOnTarget _ _ _ _ _ _ _) as [r fr']. simpl in *.
    intros Hne. destruct H as [H|[(m & Hm & Hk) H]]; [congruence|].
    destruct H
      as (m' & r0 & data & html & Hm' & Hn & Hr & Hj & Hp & Hc & Ha & Hs).
    simpl in *. assert (m' = m) as -> by congruence.
    exists m, data, html. repeat split; try assumption.
    + exists t. exact Ht.
    + exists m. split; assumption.
    + exists r0. repeat split; try assumption; apply Hr.
Qed.

(** C9. A run that found its target leaves the loader of that target
    hidden, whatever the storage, the network and the transform do: on the
    warm cache, after a fragment or the empty-data message was shown, and
    after any error. *)
Theorem loader_hidden_on_exit
  accepts network url elementId cacheKey processDataFunction emptyDataMessage
  (w : World) (t : Target) :
  document w !! elementId = Some t ->
  exists t',
    document (fetchDataAndDisplay accepts network url elementId cacheKey
                processDataFunction emptyDataMessage w) !! elementId = Some t'
    /\ loader t' = setHidden true <$> loader t.
Proof.
  intros Ht. unfold fetchDataAndDisplay. rewrite Ht.
  pose proof (run_hides_loader accepts network url cacheKey processDataFunction
                emptyDataMessage
                {| target := t; storage := localStorage w;
                   issued := requests w |}) as H.
  destruct (runOnTarget _ _ _ _ _ _ _) as [r fr']. simpl in *.
  exists (target fr'). split; [apply lookup_insert_eq|exact H].
Qed.

(** C10. A fragment made of white space only is treated as the empty
    signal: the run shows the empty-data message, leaves the storage as it
    was, and ends in the very state that a transform returning [null]
    leads to. *)
Theorem whitespace_fragment_is_empty_signal
  accepts network url elementId cacheKey processDataFunction emptyDataMessage
  (w : World) (data : JsVal) (html : string) :
  ReachesTransform network url elementId cacheKey w data ->
  processDataFunction data = Ret (Some html) ->
  OnlyWhitespace html ->
  let w' := fetchDataAndDisplay accepts network url elementId cacheKey
              processDataFunction emptyDataMessage w in
  localStorage w' = localStorage w
  /\ (exists t', document w' !! elementId = Some t'
                 /\ content t' = "<p>" ++ emptyDataMessage ++ "</p>")
  /\ w' = fetchDataAndDisplay accepts network url elementId cacheKey
            (fun _ => Ret None) emptyDataMessage w.
Proof.
  intros Hreach Hp Hws. simpl.
  destruct Hreach as [[t Ht] Hrest].
  pose proof (conj (mk_is_Some _ _ Ht) Hrest) as Hreach.
  rewrite (reaches_nothing_to_show accepts network url elementId cacheKey
             processDataFunction emptyDataMessage w t data (Some html) Ht
             Hreach Hp (onlyWhitespace_hasContent html Hws)).
  rewrite (reaches_nothing_to_show accepts network url elementId cacheKey
             (fun _ => Ret None) emptyDataMessage w t data None Ht
             Hreach eq_refl eq_refl).
  simpl. split; [reflexivity|]. split; [|reflexivity].
  eexists. split; [apply lookup_insert_eq|apply content_showing].
Qed.

Lemma sample_reaches data :
  ReachesTransform (Samples.serving data) "/api/content" "podcast-list"
    "podcasts-cache" (Samples.page ∅) data.
Proof.
  split; [eexists; apply lookup_singleton_eq|].
  split; [exists ∅; split; [reflexivity|left; apply lookup_empty]|].
  eexists. split; [reflexivity|]. split; [|reflexivity].
  split; [reflexivity|]. eexists. split; reflexivity.
Qed.

Lemma empty_signal_shown_and_not_cached_witness :
  (let w := Samples.page ∅ in
   let w' := Samples.podcastsRun (Samples.serving Samples.silentPodcasts)
               Normalizers.processPodcasts w in
   localStorage w' = localStorage w
   /\ exists t', document w' !! "podcast-list" = Some t'
                 /\ content t' = "<p>" ++ Samples.noPodcasts ++ "</p>")
  /\ (let w := Samples.page ∅ in
      let w' := Samples.podcastsRun (Samples.serving Samples.onePodcast)
                  Normalizers.processPodcasts w in
      exists m data html,
        localStorage w = Some m
        /\ ReachesTransform (Samples.serving Samples.onePodcast) "/api/content"
             "podcast-list" "podcasts-cache" w data
        /\ Normalizers.processPodcasts data = Ret (Some html)
        /\ hasContent (Some html) = true
        /\ Samples.roomy "podcasts-cache" html = true
        /\ localStorage w' = Some (<["podcasts-cache" := html]> m)).
Proof.
  split.
  - apply (proj1 (empty_signal_shown_and_not_cached Samples.roomy
                    (Samples.serving Samples.silentPodcasts) "/api/content"
                    "podcast-list" "podcasts-cache"
                    Normalizers.processPodcasts Samples.noPodcasts
                    (Samples.page ∅))
             Samples.silentPodcasts (Some "")).
    + apply sample_reaches.
    + reflexivity.
    + right. reflexivity.
  - apply (proj2 (empty_signal_shown_and_not_cached Samples.roomy
                    (Samples.serving Samples.onePodcast) "/api/content"
                    "podcast-list" "podcasts-cache"
                    Normalizers.processPodcasts Samples.noPodcasts
                    (Samples.page ∅))).
    intros H.
    apply (f_equal (fun o => o ≫= (fun m : gmap string string => m !! "podcasts-cache"))) in H.
    vm_compute in H. discriminate H.
Defined.

Lemma loader_hidden_on_exit_witness :
  exists t',
    document (Samples.podcastsRun Samples.offline Normalizers.processPodcasts
                (Samples.page ∅)) !! "podcast-list" = Some t'
    /\ loader t' = Some {| hidden := true; textContent := "Cargando..." |}.
Proof.
  apply (loader_hidden_on_exit Samples.roomy Samples.offline "/api/content"
           "podcast-list" "podcasts-cache" Normalizers.processPodcasts
           Samples.noPodcasts
           (Samples.page ∅) Samples.preparedSection).
  apply lookup_singleton_eq.
Defined.

Lemma whitespace_fragment_is_empty_signal_witness :
  let w := Samples.page ∅ in
  let w' := Samples.podcastsRun (Samples.serving JNull) Samples.blankTransform w in
  localStorage w' = localStorage w
  /\ (exists t', document w' !! "podcast-list" = Some t'
                 /\ content t' = "<p>" ++ Samples.noPodcasts ++ "</p>")
  /\ w' = Samples.podcastsRun (Samples.serving JNull) (fun _ => Ret None) w.
Proof.
  apply (whitespace_fragment_is_empty_signal Samples.roomy
           (Samples.serving JNull) "/api/content" "podcast-list"
           "podcasts-cache"
           Samples.blankTransform Samples.noPodcasts (Samples.page ∅) JNull
           Samples.blankFragment).
  - apply sample_reaches.
  - reflexivity.
  - apply (ows_char (bytes [32]%nat)); [simpl; tauto|].
    apply (ows_char (bytes [10]%nat)); [simpl; tauto|].
    apply (ows_char (bytes [194; 160]%nat)); [simpl; tauto|].
    apply ows_empty.
Defined.

End EngineProps.

(** ** Facts about the built-ins *)

Module JsFacts.
Import Js Normalizers Shapes.

(** Induction on a value, with the entries of an array. *)
Lemma JsVal_ind' (P : JsVal -> Prop) :
  P JUndefined -> P JNull -> (forall b, P (JBool b)) ->
  (forall n, P (JNum n)) -> (forall s, P (JStr s)) ->
  (forall l, Forall P l -> P (JArr l)) ->
  (forall fs, P (JObj fs)) -> P JFun ->
  forall v, P v.
Proof.
  intros Hu Hn Hb Hz Hs Ha Ho Hf.
  fix IH 1.
  intros [| |b|n|s|l|fs|];
    [exact Hu|exact Hn|apply Hb|apply Hz|apply Hs| |apply Ho|exact Hf].
  apply Ha. induction l as [|x l IHl]; constructor; [apply IH|exact IHl].
Qed.

Lemma truthy_not_nullish v : truthy v = true -> nullish v = false.
Proof. destruct v; simpl; congruence. Qed.

Lemma get_ok v p : nullish v = false -> get v p = Ret (prop v p).
Proof. unfold get. intros ->. reflexivity. Qed.

Lemma get_truthy v p : truthy v = true -> get v p = Ret (prop v p).
Proof. intros H. apply get_ok, truthy_not_nullish, H. Qed.

Lemma orElseR_Ret a b :
  (Ret a ||> Ret b) = Ret (if truthy a then a else b).
Proof. unfold orElseR. simpl. destruct (truthy a); reflexivity. Qed.

Lemma findR_pure p q l :
  (forall x, p x = Ret (q x)) ->
  findR p l = Ret (default JUndefined (List.find q l)).
Proof.
  intros H. induction l as [|x l IH]; simpl; [reflexivity|].
  rewrite H. simpl. destruct (q x); [reflexivity|exact IH].
Qed.

Lemma someR_pure p q l :
  Forall (fun x => p x = Ret (q x)) l -> someR p l = Ret (existsb q l).
Proof.
  induction 1 as [|x l Hx _ IH]; simpl; [reflexivity|].
  rewrite Hx. simpl. destruct (q x); [reflexivity|exact IH].
Qed.

Lemma findR_skip p before x after :
  Forall (fun y => p y = Ret false) before -> p x = Ret true ->
  findR p (before ++ x :: after)%list = Ret x.
Proof.
  intros H Hx. induction H as [|y before Hy _ IH]; simpl.
  - rewrite Hx. reflexivity.
  - rewrite Hy. simpl. exact IH.
Qed.

Lemma length_gt0 l :
  l <> [] -> gt0 (prop (JArr l) "length") = true.
Proof. destruct l; [congruence|reflexivity]. Qed.

Lemma prop_object v p s :
  prop v p = JStr s -> p <> "length" -> exists fs, v = JObj fs.
Proof.
  intros H Hp. apply String.eqb_neq in Hp.
  destruct v; unfold prop in H; try rewrite Hp in H; try discriminate;
    [|eauto].
  destruct (mem_str p array_methods); discriminate.
Qed.

Lemma prop_truthy_base v p : truthy (prop v p) = true -> truthy v = true.
Proof.
  destruct v as [| |b|n|s|l|fs|]; simpl; try congruence; try reflexivity.
  destruct s; [|reflexivity].
  destruct (String.eqb p "length"); discriminate.
Qed.

Lemma append_cons c s t : String c s ++ t = String c (s ++ t).
Proof. reflexivity. Qed.

Lemma append_empty_r s : s ++ "" = s.
Proof.
  induction s as [|c s IH]; [reflexivity|]. rewrite append_cons, IH. reflexivity.
Qed.

Lemma append_assoc (a b c : string) : (a ++ b) ++ c = a ++ (b ++ c).
Proof.
  induction a as [|x a IH]; [reflexivity|]. rewrite !append_cons, IH. reflexivity.
Qed.

Lemma join_cons c cs : join (c :: cs) = c ++ join cs.
Proof.
  unfold join. simpl. destruct cs; [symmetry; apply append_empty_r|reflexivity].
Qed.

(** [mapR] with a callback that ignores the index. *)
Lemma mapR_index {B} (f : JsVal -> Res B) i j l :
  mapR (fun _ => f) i l = mapR (fun _ => f) j l.
Proof.
  revert i j. induction l as [|x l IH]; intros i j; simpl; [reflexivity|].
  rewrite (IH (S i) (S j)). reflexivity.
Qed.

Lemma mapR_Forall2 {B} (f : JsVal -> Res B) l :
  Forall (fun x => exists y, f x = Ret y) l ->
  exists ys, mapR (fun _ => f) 0 l = Ret ys
             /\ Forall2 (fun x y => f x = Ret y) l ys.
Proof.
  induction 1 as [|x l [y Hy] _ (ys & Hys & IH)].
  - exists []. split; [reflexivity|constructor].
  - exists (y :: ys). simpl. rewrite Hy. simpl.
    rewrite (mapR_index f 1 0 l), Hys. split; [reflexivity|].
    constructor; assumption.
Qed.

(** [map] with a callback that returns or throws a [TypeError], on a list
    with an entry on which it throws. *)
Lemma mapR_throws {B} (f : JsVal -> Res B) i l :
  (forall x, In x l -> (exists y, f x = Ret y) \/ f x = Throw TypeError) ->
  Exists (fun x => f x = Throw TypeError) l ->
  mapR (fun _ => f) i l = Throw TypeError.
Proof.
  intros Hall Hex. revert i.
  induction Hex as [x l Hx|x l _ IH]; intros i; cbn [mapR].
  - rewrite Hx. reflexivity.
  - destruct (Hall x (or_introl eq_refl)) as [[y Hy]|Hx];
      [|rewrite Hx; reflexivity].
    rewrite Hy. cbn [bind].
    rewrite IH; [reflexivity|]. intros z Hz. apply Hall. right. exact Hz.
Qed.



Lemma join_app a b : join (a ++ b)%list = join a ++ join b.
Proof.
  induction a as [|x a IH]; [reflexivity|].
  change ((x :: a) ++ b)%list with (x :: (a ++ b)%list).
  rewrite !join_cons, IH, append_assoc. reflexivity.
Qed.


Lemma rev_app_nonempty s acc : acc <> "" -> String.rev_app s acc <> "".
Proof.
  revert acc. induction s as [|c s IH]; intros acc H; simpl; [exact H|].
  apply IH. discriminate.
Qed.


Lemma toStr_error v e : toStr v = Throw e -> e = TypeError.
Proof.
  revert e. induction v as [| |b|n|s|l IH|fs|] using JsVal_ind'; intros e;
    try discriminate.
  - destruct b; discriminate.
  - cbn [toStr]. induction IH as [|x l Hx _ IHl]; [discriminate|].
    destruct (match x with JUndefined | JNull => Ret "" | _ => toStr x end)
      as [sx|ex] eqn:Ex.
    + cbn [bind] in *.
      destruct ((fix elems (l : list JsVal) : Res (list string) := _) l)
        as [ss|es] eqn:Es; cbn [bind] in *; [discriminate|].
      intros [= <-]. apply IHl. reflexivity.
    + cbn [bind]. intros [= <-]. apply Hx.
      destruct x; try discriminate Ex; exact Ex.
  - cbn [toStr]. destruct (hasOwn "toString" fs); [|discriminate].
    intros [= <-]. reflexivity.
Qed.

Lemma converts_false v : converts v = false -> toStr v = Throw TypeError.
Proof.
  unfold converts. destruct (toStr v) as [s|e] eqn:E; [discriminate|].
  intros _. rewrite (toStr_error v e E). reflexivity.
Qed.

Lemma converts_true v : converts v = true -> toStr v = Ret (shown v).
Proof.
  unfold converts, shown. destruct (toStr v); [reflexivity|discriminate].
Qed.

Lemma converts_truthy v :
  truthy v = false -> converts v = true.
Proof. destruct v as [| |[|]|n|s|l|fs|]; try discriminate; reflexivity. Qed.

(** *** Documents without a property named [toString] *)

Lemma plain_assoc k fs :
  forallb (fun kv : string * JsVal => let '(_, x) := kv in plain x) fs = true ->
  plain (assoc k fs) = true.
Proof.
  induction fs as [|[k' x] fs IH]; [reflexivity|]. cbn [forallb assoc].
  intros H. apply andb_prop in H as [Hx Hfs].
  destruct (String.eqb k k'); [exact Hx|exact (IH Hfs)].
Qed.

Lemma plain_prop v p : plain v = true -> plain (prop v p) = true.
Proof.
  destruct v as [| |b|n|s|l|fs|]; try reflexivity.
  - intros _. unfold prop. destruct (String.eqb p "length"); reflexivity.
  - intros _. unfold prop. destruct (String.eqb p "length"); [reflexivity|].
    destruct (mem_str p array_methods); reflexivity.
  - cbn [plain prop]. intros H. apply andb_prop in H as [_ H].
    exact (plain_assoc p fs H).
Qed.

Lemma plain_entry l x : plain (JArr l) = true -> In x l -> plain x = true.
Proof.
  cbn [plain]. intros H Hin. rewrite List.forallb_forall in H.
  exact (H x Hin).
Qed.

Lemma plain_item0 v : plain v = true -> plain (item0 v) = true.
Proof.
  destruct v as [| |b|n|s|l|fs|]; try reflexivity.
  - intros _. destruct s; reflexivity.
  - destruct l as [|x l]; [reflexivity|]. intros H.
    exact (plain_entry _ x H (or_introl eq_refl)).
  - cbn [plain item0]. intros H. apply andb_prop in H as [_ H].
    exact (plain_assoc "0" fs H).
Qed.

Lemma plain_found q l :
  plain (JArr l) = true -> plain (default JUndefined (List.find q l)) = true.
Proof.
  intros H. destruct (List.find q l) as [x|] eqn:E; [|reflexivity].
  apply find_some in E as [Hin _]. exact (plain_entry l x H Hin).
Qed.

Lemma plain_if (b : bool) x y :
  plain x = true -> plain y = true -> plain (if b then x else y) = true.
Proof. destruct b; auto. Qed.

Lemma plain_converts v : plain v = true -> converts v = true.
Proof.
  unfold converts.
  induction v as [| |b|n|s|l IH|fs|] using JsVal_ind'; try reflexivity.
  - intros _. destruct b; reflexivity.
  - cbn [plain toStr]. intros H.
    assert (exists ss,
               (fix elems (l : list JsVal) : Res (list string) :=
                  match l with
                  | [] => Ret []
                  | x :: r =>
                      let* s := match x with
                                | JUndefined | JNull => Ret ""
                                | _ => toStr x
                                end in
                      let* ss := elems r in
                      Ret (s :: ss)
                  end) l = Ret ss) as [ss ->]; [|reflexivity].
    induction IH as [|x l Hx _ IHl]; [eexists; reflexivity|].
    cbn [forallb] in H. apply andb_prop in H as [Hpx Hpl].
    destruct (IHl Hpl) as [ss Hss]. rewrite Hss.
    specialize (Hx Hpx).
    destruct x as [| |b|n|s|l'|fs|]; try (eexists; reflexivity).
    + destruct b; eexists; reflexivity.
    + destruct (toStr (JArr l')); [eexists; reflexivity|discriminate Hx].
    + destruct (toStr (JObj fs)); [eexists; reflexivity|discriminate Hx].
  - cbn [plain toStr]. intros H. apply andb_prop in H as [H _].
    apply negb_true_iff in H. rewrite H. reflexivity.
Qed.

Lemma toStr_plain v : plain v = true -> toStr v = Ret (shown v).
Proof. intros H. apply converts_true, plain_converts, H. Qed.

(** The parts of a plain document are plain. *)
Ltac plain_parts :=
  repeat match goal with
    | |- plain (if ?b then ?x else ?y) = true => apply (plain_if b x y)
    | |- plain (prop _ _) = true => apply plain_prop
    | |- plain (item0 _) = true => apply plain_item0
    | |- plain (JStr _) = true => reflexivity
    | |- plain _ = true => assumption
    end.

(** *** What can be thrown *)

Lemma only_Ret {A} (a : A) : OnlyTypeError (Ret a).
Proof. intros e H. discriminate H. Qed.

Lemma only_Throw {A} : OnlyTypeError (@Throw A TypeError).
Proof. intros e [= <-]. reflexivity. Qed.

Lemma only_bind {A B} (m : Res A) (k : A -> Res B) :
  OnlyTypeError m -> (forall a, OnlyTypeError (k a)) ->
  OnlyTypeError (bind m k).
Proof.
  intros Hm Hk e. destruct m as [a|e']; cbn [bind]; [apply Hk|].
  intros [= <-]. apply Hm. reflexivity.
Qed.

Lemma only_get v p : OnlyTypeError (get v p).
Proof. unfold get. destruct (nullish v); [apply only_Throw|apply only_Ret]. Qed.

Lemma only_index0 v : OnlyTypeError (index0 v).
Proof.
  unfold index0. destruct (nullish v); [apply only_Throw|apply only_Ret].
Qed.

Lemma only_toStr v : OnlyTypeError (toStr v).
Proof. intros e. apply toStr_error. Qed.

Lemma only_T m : OnlyTypeError m -> OnlyTypeError (T m).
Proof. intros H. apply only_bind; [exact H|intros a; apply only_Ret]. Qed.

Lemma only_notR m : OnlyTypeError m -> OnlyTypeError (notR m).
Proof. intros H. apply only_bind; [exact H|intros a; apply only_Ret]. Qed.

Lemma only_andR a b :
  OnlyTypeError a -> OnlyTypeError b -> OnlyTypeError (a &&& b).
Proof.
  intros Ha Hb. apply only_bind; [exact Ha|].
  intros [|]; [exact Hb|apply only_Ret].
Qed.

Lemma only_orR a b :
  OnlyTypeError a -> OnlyTypeError b -> OnlyTypeError (a ||| b).
Proof.
  intros Ha Hb. apply only_bind; [exact Ha|].
  intros [|]; [apply only_Ret|exact Hb].
Qed.

Lemma only_orElseR a b :
  OnlyTypeError a -> OnlyTypeError b -> OnlyTypeError (a ||> b).
Proof.
  intros Ha Hb. apply only_bind; [exact Ha|].
  intros v. destruct (truthy v); [apply only_Ret|exact Hb].
Qed.

Lemma only_andThenR a b :
  OnlyTypeError a -> OnlyTypeError b -> OnlyTypeError (a &&> b).
Proof.
  intros Ha Hb. apply only_bind; [exact Ha|].
  intros v. destruct (truthy v); [exact Hb|apply only_Ret].
Qed.

Lemma only_findR p l :
  (forall x, OnlyTypeError (p x)) -> OnlyTypeError (findR p l).
Proof.
  intros Hp. induction l as [|x l IH]; cbn [findR]; [apply only_Ret|].
  apply only_bind; [apply Hp|]. intros [|]; [apply only_Ret|exact IH].
Qed.

Lemma only_find v p :
  (forall x, OnlyTypeError (p x)) -> OnlyTypeError (find v p).
Proof.
  intros Hp. destruct v; try apply only_Throw. apply only_findR, Hp.
Qed.

(** One step after the other. *)
Ltac only_steps :=
  repeat first
    [ apply only_Ret | apply only_Throw | apply only_get | apply only_index0
    | apply only_toStr | apply only_T | apply only_notR | apply only_andR
    | apply only_orR | apply only_orElseR | apply only_andThenR
    | apply only_find; intros ?
    | apply only_bind; [|intros ?]
    | match goal with
      | |- OnlyTypeError (if ?b then _ else _) => destruct b
      end ].

(** A computation that throws nothing else returns, or throws a
    [TypeError]. *)
Lemma only_cases {A} (m : Res A) :
  OnlyTypeError m -> (exists a, m = Ret a) \/ m = Throw TypeError.
Proof.
  intros H. destruct m as [a|e]; [eauto|].
  right. rewrite (H e eq_refl). reflexivity.
Qed.

End JsFacts.

(** ** Properties of the normalizers *)

Module NormalizerProps.
Import Js Normalizers Engine Terms Shapes JsFacts EngineProps.

(** *** Podcasts *)

Lemma podcastCard_item p :
  isPodcastItem p = true ->
  exists card, podcastCard p = Ret card
               /\ (hasSource p = false -> card = "")
               /\ (hasSource p = true -> card <> "").
Proof.
  unfold isPodcastItem, converts. intros H.
  apply andb_prop in H as [H Hsrc]. apply andb_prop in H as [Hp Htitle].
  apply negb_true_iff in Hp.
  unfold podcastCard, hasSource.
  rewrite !(get_ok p _ Hp), !orElseR_Ret. cbn [bind].
  assert (exists text,
             toStr (if truthy (prop p "title") then prop p "title"
                    else JStr "Untitled Podcast") = Ret text)
    as [text Ht].
  { destruct (truthy (prop p "title")); [|eexists; reflexivity].
    destruct (toStr (prop p "title")); [eauto|discriminate Htitle]. }
  destruct (truthy (prop p "src")) eqn:Hs; cbn [truthy negb].
  - rewrite Hs. cbn [negb]. rewrite Ht. cbn [bind].
    destruct (toStr (prop p "src")) as [src|]; [|discriminate Hsrc].
    cbn [bind]. eexists. split; [reflexivity|]. split; [discriminate|].
    intros _. discriminate.
  - cbn [String.eqb negb]. rewrite Ht. cbn [bind].
    eexists. split; [reflexivity|]. split; [reflexivity|discriminate].
Qed.

Lemma podcastCard_no_item p :
  isPodcastItem p = false -> podcastCard p = Throw TypeError.
Proof.
  unfold isPodcastItem. intros H. unfold podcastCard, get.
  destruct (nullish p) eqn:Hp; [reflexivity|]. cbn [negb andb] in H.
  rewrite !orElseR_Ret. cbn [bind].
  destruct (converts (prop p "title")) eqn:Htitle; cbn [andb] in H.
  - assert (truthy (prop p "src") = true) as Hs.
    { destruct (truthy (prop p "src")) eqn:Hs; [reflexivity|].
      rewrite (converts_truthy _ Hs) in H. discriminate H. }
    rewrite Hs. cbn [truthy negb].
    destruct (String.eqb_spec
                (match prop p "src" with JStr s => s | _ => "x" end) "")
      as [E|E].
    { destruct (prop p "src") as [| |b|n|s|l|fs|]; try discriminate E.
      subst s. discriminate Hs. }
    replace (truthy (prop p "src")) with true by (symmetry; exact Hs).
    cbn [negb].
    destruct (toStr (if truthy (prop p "title") then prop p "title"
                     else JStr "Untitled Podcast")) as [text|e] eqn:Ht.
    + cbn [bind]. rewrite (converts_false _ H). reflexivity.
    + cbn [bind]. rewrite (toStr_error _ e Ht). reflexivity.
  - assert (truthy (prop p "title") = true) as Ht.
    { destruct (truthy (prop p "title")) eqn:Ht; [reflexivity|].
      rewrite (converts_truthy _ Ht) in Htitle. discriminate Htitle. }
    rewrite Ht, (converts_false _ Htitle).
    destruct (negb (truthy (if truthy (prop p "src") then prop p "src"
                            else JStr ""))); reflexivity.
Qed.




Lemma podcastCard_cases p :
  (exists card, podcastCard p = Ret card) \/ podcastCard p = Throw TypeError.
Proof.
  destruct (isPodcastItem p) eqn:H.
  - destruct (podcastCard_item p H) as (card & Hc & _). eauto.
  - right. apply podcastCard_no_item, H.
Qed.





(** *** Standings *)

Lemma statPredicate_pure name s :
  (Ret (truthy s)
   &&& ((let* n := s @. "name" in Ret (eq_str n name))
        ||| (let* a := s @. "abbreviation" in
             Ret (eq_str a (upperInitial name)))))
  = Ret (truthy s
         && (eq_str (prop s "name") name
             || eq_str (prop s "abbreviation") (upperInitial name))).
Proof.
  destruct (truthy s) eqn:Hs; [|reflexivity].
  rewrite !(get_truthy s _ Hs). simpl.
  destruct (eq_str (prop s "name") name); reflexivity.
Qed.

Lemma getStatValue_found record stats name s :
  nullish record = false -> prop record "stats" = JArr stats ->
  statEntry stats name = Some s ->
  getStatValue record name = Ret (statNumber s).
Proof.
  intros Hr Hstats Hs. unfold getStatValue.
  rewrite (get_ok record _ Hr), Hstats. cbn [bind find].
  rewrite (findR_pure _ _ stats (statPredicate_pure name)).
  unfold statEntry in Hs. rewrite Hs. cbn [default from_option id bind].
  apply find_some in Hs as [_ Hs]. apply andb_true_iff in Hs as [Ht _].
  rewrite Ht, (get_truthy s _ Ht). unfold statNumber. simpl.
  destruct (prop s "value"); reflexivity.
Qed.

(** The slip of [getStatValue]: without an entry for [name] it does not
    return 0, it throws. *)
Lemma getStatValue_missing record stats name :
  nullish record = false -> prop record "stats" = JArr stats ->
  statEntry stats name = None ->
  getStatValue record name = Throw TypeError.
Proof.
  intros Hr Hstats Hs. unfold getStatValue.
  rewrite (get_ok record _ Hr), Hstats. cbn [bind find].
  rewrite (findR_pure _ _ stats (statPredicate_pure name)).
  unfold statEntry in Hs. rewrite Hs. reflexivity.
Qed.

Lemma summaryUnusable_None record :
  SummaryUnusable record ->
  (if truthy (prop record "summary") && typeof_string (prop record "summary")
   then match prop record "summary" with
        | JStr s => summaryMatch s
        | _ => None
        end
   else None) = None.
Proof.
  intros H. destruct (prop record "summary") eqn:E; simpl;
    try reflexivity; try (destruct b; reflexivity);
    try (rewrite andb_false_r; reflexivity).
  rewrite (H s E). destruct (negb _); reflexivity.
Qed.

Lemma namedWins_some stats :
  Forall (fun s => nullish s = false) stats ->
  someR (fun s => let* n := s @. "name" in Ret (eq_str n "wins")) stats
  = Ret (hasNamedWins stats).
Proof.
  intros H. apply someR_pure. eapply Forall_impl; [exact H|].
  intros s Hs. simpl in Hs. rewrite (get_ok s _ Hs). reflexivity.
Qed.

(** C5 (as amended). For a record object whose summary is absent or does
    not parse: without a [stats] array the normalizer gives the empty
    signal; with a [stats] array of entries other than [null] that holds an
    entry for each of wins, losses and ties (by name or by capital
    initial), the statistics are accepted if and only if one of the three
    values is positive or an entry is named ['wins'] (be its value zero),
    and the empty signal is given otherwise. *)
Theorem stats_fallback_acceptance (fields : list (string * JsVal)) :
  let record := JObj fields in
  SummaryUnusable record ->
  (isArray (prop record "stats") = false -> recordLine record = Ret None)
  /\ (forall stats sw sl st,
        prop record "stats" = JArr stats ->
        Forall (fun s => nullish s = false) stats ->
        statEntry stats "wins" = Some sw ->
        statEntry stats "losses" = Some sl ->
        statEntry stats "ties" = Some st ->
        let wins := statNumber sw in
        let losses := statNumber sl in
        let ties := statNumber st in
        recordLine record
        = Ret (if (0 <? wins) || (0 <? losses) || (0 <? ties)
                  || hasNamedWins stats
               then Some (standingsLine wins losses ties "Stats Array")
               else None)).
Proof.
  intros record Hsum. split.
  - intros Harr. unfold recordLine. rewrite (get_ok record "summary" eq_refl).
    cbn [bind]. rewrite (summaryUnusable_None record Hsum).
    unfold fromStats. rewrite !(get_ok record "stats" eq_refl).
    unfold T. cbn [bind andR]. rewrite Harr.
    destruct (truthy (prop record "stats")); reflexivity.
  - intros stats sw sl st Hstats Hnn Hw Hl Ht. cbn zeta.
    unfold recordLine. rewrite (get_ok record "summary" eq_refl).
    cbn [bind]. rewrite (summaryUnusable_None record Hsum).
    unfold fromStats.
    rewrite (getStatValue_found record stats "wins" sw eq_refl Hstats Hw).
    rewrite (getStatValue_found record stats "losses" sl eq_refl Hstats Hl).
    rewrite (getStatValue_found record stats "ties" st eq_refl Hstats Ht).
    rewrite !(get_ok record "stats" eq_refl), Hstats.
    unfold T. cbn [bind andR truthy isArray some].
    rewrite (namedWins_some stats Hnn).
    destruct (0 <? statNumber sw), (0 <? statNumber sl),
      (0 <? statNumber st), (hasNamedWins stats); reflexivity.
Qed.

Lemma stats_fallback_acceptance_witness :
  recordLine (JObj [("type", JStr "total")]) = Ret None
  /\ recordLine Samples.fullStatsRecord
     = Ret (Some (standingsLine 0 0 0 "Stats Array")).
Proof.
  split.
  - apply (proj1 (stats_fallback_acceptance [("type", JStr "total")]
                    ltac:(intros s; discriminate))).
    reflexivity.
  - apply (proj2 (stats_fallback_acceptance
                    [("stats", JArr [Samples.stat "name" "wins" 0;
                                     Samples.stat "name" "losses" 0;
                                     Samples.stat "name" "ties" 0])]
                    ltac:(intros s; discriminate))
             _ (Samples.stat "name" "wins" 0) (Samples.stat "name" "losses" 0)
             (Samples.stat "name" "ties" 0) eq_refl);
      [repeat constructor|reflexivity|reflexivity|reflexivity].
Defined.

(** C5, the claim as stated fails. A record whose statistics come by
    abbreviation has no entry named ['wins'], and is accepted all the same
    when a value is positive; and when its values are all zero it gets the
    empty signal, although the list holds the entry that [getStatValue]
    takes for the wins. *)
Lemma stats_acceptance_is_not_wins_presence :
  (SummaryUnusable (Samples.abbreviatedRecord 3 1 0)
   /\ hasNamedWins (Samples.abbreviatedStats 3 1 0) = false
   /\ recordLine (Samples.abbreviatedRecord 3 1 0)
      = Ret (Some "<p>Washington Commanders: 3V - 1D - 0E (Source: Stats Array)</p>"))
  /\ (SummaryUnusable (Samples.abbreviatedRecord 0 0 0)
      /\ statEntry (Samples.abbreviatedStats 0 0 0) "wins"
         = Some (Samples.stat "abbreviation" "W" 0)
      /\ recordLine (Samples.abbreviatedRecord 0 0 0) = Ret None).
Proof.
  repeat split; try reflexivity; intros s; discriminate.
Qed.

(** The example of the specification, wins 7 and losses 9 with no entry for
    the ties, meets the slip of [getStatValue]: the normalizer throws. *)
Lemma stats_without_ties_entry_throw :
  getStatValue Samples.winsLossesRecord "wins" = Ret 7
  /\ getStatValue Samples.winsLossesRecord "ties" = Throw TypeError
  /\ recordLine Samples.winsLossesRecord = Throw TypeError.
Proof. repeat split; reflexivity. Qed.

(** With nothing found among the children and a non-empty [record.items],
    the record is looked for in the items and nowhere else. *)
Lemma findTeamRecord_items data r items :
  truthy data = true ->
  attempt1 data = Ret r -> truthy r = false ->
  truthy (prop data "record") = true ->
  prop (prop data "record") "items" = JArr items -> items <> [] ->
  findTeamRecord data = findR isOverallItem items.
Proof.
  intros Hd Ha Hr Hrec Hitems Hne. unfold findTeamRecord.
  rewrite Ha. cbn [bind]. rewrite Hr.
  rewrite !(get_truthy data _ Hd). unfold T. cbn [bind andR negb].
  rewrite Hrec, !(get_truthy _ _ Hrec), Hitems. cbn [bind isArray].
  rewrite (get_ok (JArr items) "length" eq_refl). cbn [bind].
  rewrite (length_gt0 items Hne). reflexivity.
Qed.

(** C4. When nothing is found among the children and the first overall
    item of [record.items] has type ['total'] and summary ['11-5-1'], the
    normalizer gives the line of the Washington Commanders with 11 wins, 5
    losses and 1 tie, the three numbers parsed from the summary. *)
Theorem total_item_summary_gives_line
  (data r : JsVal) (before after : list JsVal) (item : JsVal) :
  truthy data = true -> typeof_object data = true ->
  attempt1 data = Ret r -> truthy r = false ->
  truthy (prop data "record") = true ->
  prop (prop data "record") "items" = JArr (before ++ item :: after)%list ->
  Forall (fun i => isOverallItem i = Ret false) before ->
  prop item "type" = JStr "total" ->
  prop item "summary" = JStr "11-5-1" ->
  summaryMatch "11-5-1" = Some (JStr "11", JStr "5", JStr "1")
  /\ (parseInt_or0 (JStr "11"), parseInt_or0 (JStr "5"), parseInt_or0 (JStr "1"))
     = (Ret 11, Ret 5, Ret 1)
  /\ processStandingsData data
     = Ret (Some "<p>Washington Commanders: 11V - 5D - 1E (Source: Summary String)</p>").
Proof.
  intros Hd Ho Ha Hr Hrec Hitems Hbefore Htype Hsum.
  split; [reflexivity|]. split; [reflexivity|].
  destruct (prop_object item "type" "total" Htype ltac:(discriminate))
    as [fs ->].
  unfold processStandingsData. rewrite Hd, Ho. cbn [negb orb].
  rewrite (findTeamRecord_items data r _ Hd Ha Hr Hrec Hitems)
    by (destruct before; discriminate).
  rewrite (findR_skip isOverallItem before (JObj fs) after Hbefore).
  - cbn [bind truthy negb]. unfold recordLine.
    rewrite (get_ok (JObj fs) "summary" eq_refl). cbn [bind].
    rewrite Hsum. reflexivity.
  - unfold isOverallItem. rewrite (get_ok (JObj fs) "type" eq_refl).
    cbn [bind]. rewrite Htype. reflexivity.
Qed.

Lemma total_item_summary_gives_line_witness :
  processStandingsData Samples.itemsStandings
  = Ret (Some "<p>Washington Commanders: 11V - 5D - 1E (Source: Summary String)</p>").
Proof.
  apply (total_item_summary_gives_line Samples.itemsStandings JUndefined
           [] [] Samples.totalItem);
    solve [reflexivity | constructor].
Defined.

(** C2, at the input that breaks it. [record.items] is there and holds no
    overall item, the overall record is in [records]: the [else if] keeps
    the normalizer from looking into [records], no record is found and the
    result is the empty signal, whereas the same [records] list alone gives
    the line. *)
Theorem records_skipped_after_items_without_match :
  findTeamRecord Samples.itemsWithoutTotal = Ret JUndefined
  /\ processStandingsData Samples.itemsWithoutTotal = Ret None
  /\ findTeamRecord Samples.recordsOnly = Ret Samples.overallRecord
  /\ processStandingsData Samples.recordsOnly
     = Ret (Some "<p>Washington Commanders: 10V - 6D - 0E (Source: Summary String)</p>").
Proof. repeat split; reflexivity. Qed.

(** *** Team events *)

Section EventProps.
Variable formatDate : JsVal -> option string.
Variable numLtTwo : string -> bool.

Local Abbreviation eventLine' := (eventLine formatDate numLtTwo).

Lemma eventDateStr_total event :
  nullish event = false -> plain event = true ->
  eventDateStr formatDate event = Ret (dateOf formatDate event).
Proof.
  intros H Hp. unfold eventDateStr, dateOf. rewrite (get_ok event _ H).
  cbn [bind]. destruct (truthy (prop event "date")); [|reflexivity].
  rewrite (toStr_plain _ (plain_prop event "date" Hp)). reflexivity.
Qed.

Lemma nameOf_text event :
  plain event = true ->
  toStr (if truthy (prop event "name") then prop event "name"
         else JStr "Unnamed Event") = Ret (nameOf event).
Proof.
  intros Hp. apply toStr_plain. plain_parts.
Qed.

Lemma lt2_plain v :
  plain v = true -> lt2 numLtTwo v = Ret (belowTwo numLtTwo v).
Proof.
  intros Hp. unfold belowTwo.
  destruct v as [| |b|n|s|l|fs|]; try reflexivity; cbn [lt2];
    rewrite (toStr_plain _ Hp); reflexivity.
Qed.

Lemma plain_competitionOf event :
  plain event = true -> plain (competitionOf event) = true.
Proof.
  intros Hp. unfold competitionOf. plain_parts.
Qed.

Lemma eventName_total event :
  nullish event = false ->
  (event @. "name" ||> Ret (JStr "Unnamed Event"))
  = Ret (if truthy (prop event "name") then prop event "name"
         else JStr "Unnamed Event").
Proof. intros H. rewrite (get_ok event _ H). apply orElseR_Ret. Qed.

Lemma competition_total event :
  nullish event = false ->
  (event @. "competitions" &&> (event @. "competitions" @@@ index0))
  = Ret (competitionOf event).
Proof.
  intros H. rewrite (get_ok event _ H). unfold andThenR, competitionOf.
  cbn [bind]. destruct (truthy (prop event "competitions")) eqn:E;
    [|reflexivity].
  unfold index0. rewrite (truthy_not_nullish _ E). reflexivity.
Qed.

Local Abbreviation tooLittle' := (tooLittle numLtTwo).

(** The test for a competition with too little in it, when the number of
    the competitors converts. *)
Lemma incomplete_total c :
  lt2 numLtTwo (prop (prop c "competitors") "length")
  = Ret (belowTwo numLtTwo (prop (prop c "competitors") "length")) ->
  (Ret (negb (truthy c))
   ||| notR (T (c @. "competitors"))
   ||| (let* n := c @. "competitors" @@ "length" in lt2 numLtTwo n))
  = Ret (tooLittle' c).
Proof.
  intros Hlt. unfold tooLittle. destruct (truthy c) eqn:Hc; [|reflexivity].
  rewrite !(get_truthy c _ Hc). unfold T, notR. cbn [bind orR negb orb].
  destruct (truthy (prop c "competitors")) eqn:Hcs; [|reflexivity].
  cbn [negb]. rewrite (get_truthy _ _ Hcs). cbn [bind]. exact Hlt.
Qed.

Lemma sidePredicate_pure side t :
  (Ret (truthy t) &&& (let* h := t @. "homeAway" in Ret (eq_str h side)))
  = Ret (truthy t && eq_str (prop t "homeAway") side).
Proof.
  destruct (truthy t) eqn:Ht; [|reflexivity].
  rewrite (get_truthy t _ Ht). reflexivity.
Qed.

Lemma noTeams_total home away :
  (Ret (negb (truthy home))
   ||| Ret (negb (truthy away))
   ||| notR (T (home @. "team"))
   ||| notR (T (away @. "team")))
  = Ret (noTeams home away).
Proof.
  unfold noTeams.
  destruct (truthy home) eqn:Hh.
  - destruct (truthy away) eqn:Ha.
    + rewrite (get_truthy _ _ Hh), (get_truthy _ _ Ha). unfold T, notR.
      cbn [bind orR negb].
      destruct (truthy (prop home "team")); reflexivity.
    + cbn [bind orR negb].
      destruct (truthy (prop away "team")) eqn:E;
        [apply prop_truthy_base in E; congruence|].
      rewrite orb_true_r. reflexivity.
  - cbn [bind orR negb].
    destruct (truthy (prop home "team")) eqn:E;
      [apply prop_truthy_base in E; congruence|reflexivity].
Qed.

Lemma formatTeamInfo_total teamData :
  truthy (prop teamData "team") = true -> plain teamData = true ->
  exists display, formatTeamInfo teamData = Ret display.
Proof.
  intros Ht Hp. pose proof (prop_truthy_base _ _ Ht) as Hd.
  pose proof (plain_prop teamData "team" Hp) as Hteam.
  unfold formatTeamInfo. rewrite (get_truthy _ _ Hd). cbn [bind].
  rewrite !(get_truthy _ _ Ht), !orElseR_Ret.
  destruct (truthy (prop (prop teamData "team") "displayName")); cbn [bind];
    rewrite ?orElseR_Ret; cbn [bind];
    rewrite !toStr_plain by plain_parts;
    cbn [bind]; eexists; reflexivity.
Qed.

Lemma scoreText_total c home away :
  truthy c = true -> truthy home = true -> truthy away = true ->
  plain c = true -> plain home = true -> plain away = true ->
  scoreText c home away
  = Ret (if isCompleted c then scoreOr0 home ++ " - " ++ scoreOr0 away
         else if hasDescription c then descriptionOf c
         else "Pendiente").
Proof.
  intros Hc Hh Ha Hpc Hph Hpa.
  unfold scoreText, isCompleted, hasDescription, descriptionOf, scoreOr0.
  rewrite !(get_truthy c _ Hc), !(get_truthy home _ Hh),
    !(get_truthy away _ Ha), !orElseR_Ret.
  unfold T. cbn [bind andR].
  destruct (truthy (prop c "status")) eqn:Hs; [|reflexivity].
  rewrite !(get_truthy _ _ Hs). cbn [bind andb].
  destruct (truthy (prop (prop c "status") "type")) eqn:Hty; [|reflexivity].
  rewrite !(get_truthy _ _ Hty). cbn [bind andb].
  destruct (truthy (prop (prop (prop c "status") "type") "completed"));
    cbn [bind andR].
  { rewrite !toStr_plain by plain_parts. reflexivity. }
  destruct (truthy (prop (prop (prop c "status") "type") "description"));
    cbn [bind andR]; [|reflexivity].
  apply toStr_plain. plain_parts.
Qed.

(** The line of an event object, case by case. *)
Lemma eventLine_cases event :
  isEventObject event = true -> plain event = true ->
  let c := competitionOf event in
  if tooLittle' c then
    eventLine' event
    = Ret (fallbackLine (nameOf event) (dateOf formatDate event) "competición")
  else
    match prop c "competitors" with
    | JArr cs =>
        let home := sideOf "home" cs in
        let away := sideOf "away" cs in
        if noTeams home away then
          eventLine' event
          = Ret (fallbackLine (nameOf event) (dateOf formatDate event) "equipo")
        else
          exists homeDisplay awayDisplay,
            formatTeamInfo home = Ret homeDisplay
            /\ formatTeamInfo away = Ret awayDisplay
            /\ eventLine' event
               = Ret ("<p>" ++ awayDisplay ++ " @ " ++ homeDisplay
                      ++ " | Fecha: " ++ dateOf formatDate event
                      ++ " | Estado: "
                      ++ (if isCompleted c
                          then scoreOr0 home ++ " - " ++ scoreOr0 away
                          else if hasDescription c then descriptionOf c
                          else "Pendiente")
                      ++ "</p>")
    | _ => eventLine' event = Throw TypeError
    end.
Proof.
  intros Hobj Hp. pose proof Hobj as Hobj'.
  apply andb_true_iff in Hobj' as [Ht Hty].
  pose proof (truthy_not_nullish _ Ht) as Hn.
  pose proof (plain_competitionOf event Hp) as Hpc.
  cbn zeta. unfold eventLine. rewrite Ht, Hty. cbn [negb orb].
  rewrite (eventDateStr_total event Hn Hp), (competition_total event Hn).
  cbn [bind].
  rewrite incomplete_total
    by (apply lt2_plain; plain_parts).
  cbn [bind].
  destruct (tooLittle numLtTwo (competitionOf event)) eqn:Hlittle.
  { rewrite (eventName_total event Hn). cbn [bind].
    rewrite (nameOf_text event Hp). reflexivity. }
  unfold tooLittle in Hlittle.
  apply orb_false_iff in Hlittle as [Hlittle _].
  apply orb_false_iff in Hlittle as [Hc Hcs].
  apply negb_false_iff in Hc, Hcs.
  rewrite (get_truthy _ _ Hc). cbn [bind].
  destruct (prop (competitionOf event) "competitors") as [| | | | |cs| |] eqn:E;
    try reflexivity.
  cbn [find].
  rewrite (findR_pure _ _ cs (sidePredicate_pure "home")).
  rewrite (findR_pure _ _ cs (sidePredicate_pure "away")).
  fold (sideOf "home" cs). fold (sideOf "away" cs). cbn [bind].
  rewrite noTeams_total. cbn [bind].
  destruct (noTeams (sideOf "home" cs) (sideOf "away" cs)) eqn:Hno.
  { rewrite (eventName_total event Hn). cbn [bind].
    rewrite (nameOf_text event Hp). reflexivity. }
  unfold noTeams in Hno. apply orb_false_iff in Hno as [Hh Ha].
  apply negb_false_iff in Hh, Ha.
  assert (plain (JArr cs) = true) as Hpcs
    by (rewrite <- E; apply plain_prop, Hpc).
  pose proof (plain_found (fun t => truthy t
                                    && eq_str (prop t "homeAway") "home")
                cs Hpcs) as Hph.
  pose proof (plain_found (fun t => truthy t
                                    && eq_str (prop t "homeAway") "away")
                cs Hpcs) as Hpa.
  fold (sideOf "home" cs) in Hph. fold (sideOf "away" cs) in Hpa.
  destruct (formatTeamInfo_total _ Hh Hph) as [hd Hhd].
  destruct (formatTeamInfo_total _ Ha Hpa) as [ad Had].
  exists hd, ad. split; [exact Hhd|]. split; [exact Had|].
  rewrite Hhd, Had. cbn [bind].
  rewrite (scoreText_total _ _ _ Hc (prop_truthy_base _ _ Hh)
             (prop_truthy_base _ _ Ha) Hpc Hph Hpa).
  reflexivity.
Qed.


Lemma tooLittle_false c :
  tooLittle' c = false ->
  truthy c = true /\ truthy (prop c "competitors") = true.
Proof.
  unfold tooLittle. intros H.
  apply orb_false_iff in H as [H _]. apply orb_false_iff in H as [Hc Hcs].
  apply negb_false_iff in Hc, Hcs. split; assumption.
Qed.









(** The two sides are two competitors. *)
Lemma sideOf_found side cs :
  truthy (prop (sideOf side cs) "team") = true ->
  In (sideOf side cs) cs
  /\ eq_str (prop (sideOf side cs) "homeAway") side = true.
Proof.
  unfold sideOf. destruct (List.find _ cs) as [t|] eqn:E; [|discriminate].
  intros _. apply find_some in E as [Hin E].
  apply andb_true_iff in E as [_ E]. split; assumption.
Qed.

Lemma two_sides cs :
  truthy (prop (sideOf "home" cs) "team") = true ->
  truthy (prop (sideOf "away" cs) "team") = true ->
  (2 <= length cs)%nat.
Proof.
  intros Hh Ha.
  destruct (sideOf_found "home" cs Hh) as [Hin1 H1].
  destruct (sideOf_found "away" cs Ha) as [Hin2 H2].
  assert (sideOf "home" cs <> sideOf "away" cs) as Hne.
  { intros E. rewrite E in H1. unfold eq_str in H1, H2.
    destruct (prop (sideOf "away" cs) "homeAway"); try discriminate.
    apply String.eqb_eq in H1, H2. congruence. }
  set (a := sideOf "home" cs) in *. set (b := sideOf "away" cs) in *.
  clearbody a b.
  destruct cs as [|x [|y cs]]; simpl in *; [contradiction| |lia].
  destruct Hin1 as [<-|[]], Hin2 as [<-|[]]. congruence.
Qed.

(** C6 (as amended). For an event in which no object has a property named
    [toString], with its competition and with the home and the away
    competitor, each with its team, the line shows as state the score,
    home then away, each ['0'] when absent, exactly when the status of the
    competition says completed; else the description of the status when
    there is one, else ['Pendiente']. *)
Theorem score_shown_when_completed (event : JsVal) (competitors : list JsVal) :
  isEventObject event = true ->
  plain event = true ->
  let competition := competitionOf event in
  let home := sideOf "home" competitors in
  let away := sideOf "away" competitors in
  prop competition "competitors" = JArr competitors ->
  truthy (prop home "team") = true ->
  truthy (prop away "team") = true ->
  exists homeDisplay awayDisplay,
    formatTeamInfo home = Ret homeDisplay
    /\ formatTeamInfo away = Ret awayDisplay
    /\ eventLine' event
       = Ret ("<p>" ++ awayDisplay ++ " @ " ++ homeDisplay
              ++ " | Fecha: " ++ dateOf formatDate event
              ++ " | Estado: "
              ++ (if isCompleted competition
                  then scoreOr0 home ++ " - " ++ scoreOr0 away
                  else if hasDescription competition
                       then descriptionOf competition
                       else "Pendiente")
              ++ "</p>").
Proof.
  intros Hobj Hp competition home away Hcs Hh Ha.
  pose proof (two_sides competitors Hh Ha) as Hlen.
  pose proof (eventLine_cases event Hobj Hp) as H. cbn zeta in H.
  fold competition in H.
  assert (tooLittle' competition = false) as Hlittle.
  { unfold tooLittle. rewrite Hcs.
    assert (truthy competition = true) as ->
      by (apply (prop_truthy_base _ "competitors"); rewrite Hcs; reflexivity).
    simpl. apply Z.ltb_ge. lia. }
  rewrite Hlittle, Hcs in H. cbn zeta in H.
  fold home away in H.
  assert (noTeams home away = false) as Hno
    by (unfold noTeams; rewrite Hh, Ha; reflexivity).
  rewrite Hno in H. exact H.
Qed.


(** *** What the normalizer of the events can throw *)

Lemma only_lt2 v : OnlyTypeError (lt2 numLtTwo v).
Proof. destruct v; cbn [lt2]; only_steps. Qed.

Lemma only_eventDateStr event : OnlyTypeError (eventDateStr formatDate event).
Proof. unfold eventDateStr. only_steps. Qed.

Lemma only_formatTeamInfo teamData : OnlyTypeError (formatTeamInfo teamData).
Proof. unfold formatTeamInfo. only_steps. Qed.

Lemma only_scoreText c home away : OnlyTypeError (scoreText c home away).
Proof. unfold scoreText. only_steps. Qed.

Lemma only_eventLine event : OnlyTypeError (eventLine' event).
Proof.
  unfold eventLine.
  destruct (negb (truthy event) || negb (typeof_object event));
    [apply only_Ret|].
  apply only_bind; [apply only_eventDateStr|intros date].
  apply only_bind; [only_steps|intros competition].
  apply only_bind; [only_steps; apply only_lt2|intros incomplete].
  destruct incomplete; [only_steps|].
  apply only_bind; [only_steps|intros competitors].
  apply only_bind; [only_steps|intros home].
  apply only_bind; [only_steps|intros away].
  apply only_bind; [only_steps|intros noTeams].
  destruct noTeams; [only_steps|].
  apply only_bind; [apply only_formatTeamInfo|intros homeDisplay].
  apply only_bind; [apply only_formatTeamInfo|intros awayDisplay].
  apply only_bind; [apply only_scoreText|intros score]. apply only_Ret.
Qed.

(** An event whose competitors are there and come as something that is no
    array has no line: the normalizer throws on it. *)
Lemma eventLine_malformed bad :
  isEventObject bad = true ->
  tooLittle' (competitionOf bad) = false ->
  isArray (prop (competitionOf bad) "competitors") = false ->
  eventLine' bad = Throw TypeError.
Proof.
  intros Hobj Hlittle Harr. pose proof Hobj as Hobj'.
  apply andb_true_iff in Hobj' as [Ht Hty].
  pose proof (truthy_not_nullish _ Ht) as Hn.
  destruct (tooLittle_false _ Hlittle) as [Hc Hcs].
  unfold eventLine. rewrite Ht, Hty. cbn [negb orb].
  destruct (eventDateStr formatDate bad) as [d|e] eqn:Hd;
    [|rewrite (only_eventDateStr bad e Hd); reflexivity].
  cbn [bind]. rewrite (competition_total bad Hn). cbn [bind].
  rewrite Hc, !(get_truthy _ _ Hc). unfold T, notR.
  cbn [bind orR negb]. rewrite Hcs. cbn [bind orR negb].
  rewrite (get_truthy _ _ Hcs). cbn [bind].
  destruct (lt2 numLtTwo (prop (prop (competitionOf bad) "competitors")
                            "length")) as [b|e] eqn:Hlt;
    [|rewrite (only_lt2 _ e Hlt); reflexivity].
  assert (b = false) as ->.
  { unfold tooLittle in Hlittle. apply orb_false_iff in Hlittle as [_ H].
    unfold belowTwo in H. rewrite Hlt in H. exact H. }
  cbn [bind].
  destruct (prop (competitionOf bad) "competitors"); try reflexivity.
  discriminate Harr.
Qed.

End EventProps.

Lemma score_shown_when_completed_witness :
  exists homeDisplay awayDisplay,
    formatTeamInfo (Samples.competitor "home" "DAL" "Dallas Cowboys" "34")
    = Ret homeDisplay
    /\ formatTeamInfo
         (Samples.competitor "away" "WSH" "Washington Commanders" "26")
       = Ret awayDisplay
    /\ eventLine Samples.noDate Samples.noNumber Samples.finishedGame
       = Ret ("<p>" ++ awayDisplay ++ " @ " ++ homeDisplay
              ++ " | Fecha: Date N/A | Estado: 34 - 26</p>").
Proof.
  apply (score_shown_when_completed Samples.noDate Samples.noNumber
           Samples.finishedGame Samples.finishedCompetitors);
    reflexivity.
Defined.

(** C6, the claim as stated fails for an event whose values do not all
    convert to text. The finished game has its competition and both
    competitors with their teams, and its status says completed; with the
    score of the home side sent as an object that has a property named
    [toString], the normalizer shows no score: it throws, for the event
    and for the list that holds it. *)
Lemma score_that_is_an_object_throws :
  isEventObject Samples.oddScoreGame = true
  /\ (let competition := competitionOf Samples.oddScoreGame in
      exists competitors,
        prop competition "competitors" = JArr competitors
        /\ truthy (prop (sideOf "home" competitors) "team") = true
        /\ truthy (prop (sideOf "away" competitors) "team") = true
        /\ isCompleted competition = true)
  /\ eventLine Samples.noDate Samples.noNumber Samples.oddScoreGame
     = Throw TypeError
  /\ processTeamEventsData Samples.noDate Samples.noNumber
       (JObj [("events", JArr [Samples.oddScoreGame])])
     = Throw TypeError.
Proof.
  split; [reflexivity|]. split; [|split; reflexivity].
  cbn zeta. eexists. repeat split; reflexivity.
Qed.


End NormalizerProps.

(** ** Further properties of the engine *)

Module OutcomeProps.
Import Js Engine Terms Outcomes EngineProps.

Section Run.
Context (accepts : string -> string -> bool)
        (network : string -> FetchOutcome) (url elementId cacheKey : string)
        (processDataFunction : JsVal -> Res (option string))
        (emptyDataMessage : string).

Local Abbreviation run :=
  (fetchDataAndDisplay accepts network url elementId cacheKey
     processDataFunction emptyDataMessage).
Local Abbreviation runT :=
  (runOnTarget accepts network url cacheKey processDataFunction
     emptyDataMessage).
Local Abbreviation render :=
  (fetchAndRender accepts network url cacheKey processDataFunction
     emptyDataMessage).
Local Abbreviation begun fr :=
  {| target := started (target fr); storage := storage fr;
     issued := issued fr |}.

(** The [catch] and [finally] blocks after an exception with [message]. *)
Lemma caught_message fr t s i e message :
  tryBlock accepts network url cacheKey processDataFunction emptyDataMessage fr
  = (Throw e, {| target := started t; storage := s; issued := i |}) ->
  catchBlock e = showError message ->
  runT fr = (Ret tt, {| target := showingError message t; storage := s;
                        issued := i |}).
Proof.
  intros Htry Hcatch. unfold runOnTarget, tryFinally, tryCatch.
  rewrite Htry, Hcatch.
  destruct t as [[lo|] [er|] [d|] own]; reflexivity.
Qed.

(** A run with the storage blocked. *)
Lemma run_no_storage fr :
  storage fr = None ->
  runT fr = (Ret tt, {| target := showingError unexpectedMessage (target fr);
                        storage := None; issued := issued fr |}).
Proof.
  intros Hs. apply (caught_message fr _ _ _ DOMException); [|reflexivity].
  rewrite (tryBlock_no_storage _ _ _ _ _ _ fr Hs), Hs. reflexivity.
Qed.

Local Abbreviation asking fr :=
  {| target := target fr; storage := storage fr;
     issued := url :: issued fr |}.

(** *** The request and its checks *)

Lemma retrieve_network fr :
  network url = NetworkFailure ->
  retrieve network url fr
  = (Throw (FetchDataError networkMessage "NetworkError" None), asking fr).
Proof. intros H. unfold retrieve, andThen, fetch. rewrite H. reflexivity. Qed.

Lemma retrieve_http fr r :
  network url = Responded r -> ok r = false ->
  retrieve network url fr
  = (Throw (FetchDataError (httpMessage r) "HttpError" (Some (status r))),
     asking fr).
Proof.
  intros H Hok. unfold retrieve, andThen, fetch. rewrite H. cbn beta iota.
  rewrite Hok. reflexivity.
Qed.

Lemma notJson_fails r :
  NotJson r ->
  match contentType r with
  | None => true
  | Some ct => negb (truthy (JStr ct)) || negb (includes ct "application/json")
  end = true.
Proof.
  unfold NotJson. destruct (contentType r) as [ct|]; [|reflexivity].
  intros ->. apply orb_true_r.
Qed.

Lemma retrieve_format fr r :
  network url = Responded r -> ok r = true -> NotJson r ->
  retrieve network url fr
  = (Throw (FetchDataError formatMessage "JsonParseError" None), asking fr).
Proof.
  intros H Hok Hct. unfold retrieve, andThen, fetch. rewrite H.
  cbn beta iota. rewrite Hok, (notJson_fails r Hct). reflexivity.
Qed.

Lemma retrieve_parse fr r :
  network url = Responded r -> JsonResponse r -> json r = None ->
  retrieve network url fr
  = (Throw (FetchDataError parseMessage "JsonParseError" None), asking fr).
Proof.
  intros H Hr Hj. destruct (jsonResponse_passes r Hr) as [Hok Hct].
  unfold retrieve, andThen, fetch. rewrite H. cbn beta iota.
  rewrite Hok, Hct, Hj. reflexivity.
Qed.

(** A response passes the check of its content type or it does not. *)
Lemma json_or_not r : ok r = true -> JsonResponse r \/ NotJson r.
Proof.
  intros Hok. unfold JsonResponse, NotJson.
  destruct (contentType r) as [ct|]; [|right; exact I].
  destruct (includes ct "application/json") eqn:E; [left|right; reflexivity].
  split; [exact Hok|]. exists ct. split; [reflexivity|exact E].
Qed.

(** *** Runs that fail *)

Lemma run_retrieve_failed fr m message type status :
  storage fr = Some m ->
  (m !! cacheKey = None \/ m !! cacheKey = Some "") ->
  retrieve network url (begun fr)
  = (Throw (FetchDataError message type status), asking (begun fr)) ->
  runT fr = (Ret tt, {| target := showingError message (target fr);
                        storage := storage fr;
                        issued := url :: issued fr |}).
Proof.
  intros Hs Hk Hret.
  apply (caught_message fr _ _ _ (FetchDataError message type status));
    [|reflexivity].
  rewrite (tryBlock_miss _ _ _ _ _ _ fr m Hs Hk).
  unfold fetchAndRender, andThen. rewrite Hret. reflexivity.
Qed.

Lemma run_process_failed fr m r data e :
  storage fr = Some m ->
  (m !! cacheKey = None \/ m !! cacheKey = Some "") ->
  network url = Responded r -> JsonResponse r -> json r = Some data ->
  processDataFunction data = Throw e ->
  runT fr = (Ret tt, {| target := showingError (shownFor e) (target fr);
                        storage := storage fr;
                        issued := url :: issued fr |}).
Proof.
  intros Hs Hk Hn Hr Hj Hp.
  apply (caught_message fr _ _ _
           (match e with
            | FetchDataError _ _ _ => e
            | _ => FetchDataError processingMessage "DataProcessingError" None
            end)); [|destruct e; reflexivity].
  rewrite (tryBlock_miss _ _ _ _ _ _ fr m Hs Hk).
  unfold fetchAndRender, andThen.
  rewrite (retrieve_ok _ _ (begun fr) r data Hn Hr Hj).
  unfold process, tryCatch, lift, raise. rewrite Hp.
  destruct e; reflexivity.
Qed.

(** *** The run that shows a fragment *)

Lemma run_fragment fr m r data html :
  storage fr = Some m ->
  (m !! cacheKey = None \/ m !! cacheKey = Some "") ->
  network url = Responded r -> JsonResponse r -> json r = Some data ->
  processDataFunction data = Ret (Some html) ->
  hasContent (Some html) = true ->
  accepts cacheKey html = true ->
  runT fr = (Ret tt, {| target := showing html (target fr);
                        storage := Some (<[cacheKey := html]> m);
                        issued := url :: issued fr |}).
Proof.
  intros Hs Hk Hn Hr Hj Hp Hc Ha.
  unfold runOnTarget, tryFinally, tryCatch.
  rewrite (tryBlock_miss _ _ _ _ _ _ fr m Hs Hk).
  unfold fetchAndRender, andThen.
  rewrite (retrieve_ok _ _ (begun fr) r data Hn Hr Hj).
  unfold process, tryCatch, lift. rewrite Hp, Hc.
  destruct fr as [[[lo|] [er|] [d|] own] st iss]; simpl in *; subst st;
    unfold setItem; simpl; rewrite Ha; reflexivity.
Qed.

(** The run of which the storage refuses the fragment. *)
Lemma run_refused fr m r data html :
  storage fr = Some m ->
  (m !! cacheKey = None \/ m !! cacheKey = Some "") ->
  network url = Responded r -> JsonResponse r -> json r = Some data ->
  processDataFunction data = Ret (Some html) ->
  hasContent (Some html) = true ->
  accepts cacheKey html = false ->
  runT fr = (Ret tt, {| target := showingRefused html (target fr);
                        storage := Some m;
                        issued := url :: issued fr |}).
Proof.
  intros Hs Hk Hn Hr Hj Hp Hc Ha.
  unfold runOnTarget, tryFinally, tryCatch.
  rewrite (tryBlock_miss _ _ _ _ _ _ fr m Hs Hk).
  unfold fetchAndRender, andThen.
  rewrite (retrieve_ok _ _ (begun fr) r data Hn Hr Hj).
  unfold process, tryCatch, lift. rewrite Hp, Hc.
  destruct fr as [[[lo|] [er|] [d|] own] st iss]; simpl in *; subst st;
    unfold setItem; simpl; rewrite Ha; reflexivity.
Qed.

(** *** Every run, by its effect *)

Local Abbreviation frame t s i := {| target := t; storage := s; issued := i |}.
Local Abbreviation quiet := {| written := None; asked := false |}.
Local Abbreviation asked_only := {| written := None; asked := true |}.

Lemma cached_miss s look :
  cached cacheKey s = Some look -> look = None \/ look = Some "" ->
  exists m, s = Some m /\ (m !! cacheKey = None \/ m !! cacheKey = Some "").
Proof.
  unfold cached. destruct s as [m|]; [|discriminate].
  intros [= <-] H. exists m. split; [reflexivity|exact H].
Qed.

(** What a run that misses the cache does, whatever else the storage
    holds. *)
Lemma run_effect_miss t look :
  look = None \/ look = Some "" ->
  exists t' e,
    Ending t t' /\
    forall s i,
      cached cacheKey s = Some look ->
      runT (frame t s i)
      = (Ret tt, frame t' (store cacheKey e s) (ask url e i)).
Proof.
  intros Hlook.
  destruct (network url) as [|r] eqn:Hn.
  { exists (showingError networkMessage t), asked_only.
      split; [eexists; right; left; reflexivity|]. intros s i Hs.
    destruct (cached_miss s look Hs Hlook) as (m & -> & Hk).
    eapply (run_retrieve_failed (frame t (Some m) i) m);
        [reflexivity|exact Hk|].
    apply retrieve_network, Hn. }
  destruct (ok r) eqn:Hok.
  2:{ exists (showingError (httpMessage r) t), asked_only.
      split; [eexists; right; left; reflexivity|]. intros s i Hs.
      destruct (cached_miss s look Hs Hlook) as (m & -> & Hk).
      eapply (run_retrieve_failed (frame t (Some m) i) m);
        [reflexivity|exact Hk|].
      apply (retrieve_http _ r); assumption. }
  destruct (json_or_not r Hok) as [Hr|Hct].
  2:{ exists (showingError formatMessage t), asked_only.
      split; [eexists; right; left; reflexivity|]. intros s i Hs.
      destruct (cached_miss s look Hs Hlook) as (m & -> & Hk).
      eapply (run_retrieve_failed (frame t (Some m) i) m);
        [reflexivity|exact Hk|].
      apply (retrieve_format _ r); assumption. }
  destruct (json r) as [data|] eqn:Hj.
  2:{ exists (showingError parseMessage t), asked_only.
      split; [eexists; right; left; reflexivity|]. intros s i Hs.
      destruct (cached_miss s look Hs Hlook) as (m & -> & Hk).
      eapply (run_retrieve_failed (frame t (Some m) i) m);
        [reflexivity|exact Hk|].
      apply (retrieve_parse _ r); assumption. }
  destruct (processDataFunction data) as [res|e] eqn:Hp.
  2:{ exists (showingError (shownFor e) t), asked_only.
      split; [eexists; right; left; reflexivity|]. intros s i Hs.
      destruct (cached_miss s look Hs Hlook) as (m & -> & Hk).
      exact (run_process_failed (frame t (Some m) i) m r data e eq_refl Hk
               Hn Hr Hj Hp). }
  destruct (hasContent res) eqn:Hc.
  - destruct res as [html|]; [|discriminate Hc].
    destruct (accepts cacheKey html) eqn:Ha.
    + exists (showing html t), {| written := Some html; asked := true |}.
      split; [eexists; left; reflexivity|]. intros s i Hs.
      destruct (cached_miss s look Hs Hlook) as (m & -> & Hk).
      exact (run_fragment (frame t (Some m) i) m r data html eq_refl Hk
               Hn Hr Hj Hp Hc Ha).
    + exists (showingRefused html t), asked_only.
      split; [eexists; right; right; reflexivity|]. intros s i Hs.
      destruct (cached_miss s look Hs Hlook) as (m & -> & Hk).
      exact (run_refused (frame t (Some m) i) m r data html eq_refl Hk
               Hn Hr Hj Hp Hc Ha).
  - exists (showing ("<p>" ++ emptyDataMessage ++ "</p>") t), asked_only.
    split; [eexists; left; reflexivity|]. intros s i Hs.
    destruct (cached_miss s look Hs Hlook) as (m & -> & Hk).
    exact (run_nothing_to_show _ _ _ _ _ _ (frame t (Some m) i) m r data res
             eq_refl Hk Hn Hr Hj Hp Hc).
Qed.

(** What any run does: it ends without an exception, in a target that
    depends on the target it found and on what the storage gave for its
    key, with at most one fragment written and at most one request. *)
Lemma run_effect t look :
  exists t' e,
    Ending t t' /\
    forall s i,
      cached cacheKey s = look ->
      runT (frame t s i)
      = (Ret tt, frame t' (store cacheKey e s) (ask url e i)).
Proof.
  destruct look as [[c|]|].
  - destruct (String.eqb_spec c "") as [->|Hne].
    + apply run_effect_miss. right. reflexivity.
    + exists (showing c t), quiet.
      split; [eexists; left; reflexivity|]. intros s i Hs.
      unfold cached in Hs. destruct s as [m|]; [|discriminate].
      injection Hs as Hk.
      exact (run_cache_hit _ _ _ _ _ _ (frame t (Some m) i) m c eq_refl Hk Hne).
  - apply run_effect_miss. left. reflexivity.
  - exists (showingError unexpectedMessage t), quiet.
      split; [eexists; right; left; reflexivity|]. intros s i Hs.
    unfold cached in Hs. destruct s as [m|]; [discriminate|].
    exact (run_no_storage (frame t None i) eq_refl).
Qed.

(** The same for the whole function. *)
Lemma run_world_effect t look :
  exists t' e,
    Ending t t' /\
    forall w,
      document w !! elementId = Some t ->
      cached cacheKey (localStorage w) = look ->
      run w = {| document := <[elementId := t']> (document w);
                 localStorage := store cacheKey e (localStorage w);
                 requests := ask url e (requests w) |}.
Proof.
  destruct (run_effect t look) as (t' & e & Hend & H). exists t', e.
  split; [exact Hend|]. intros w Ht Hs. unfold fetchDataAndDisplay. rewrite Ht.
  rewrite (H (localStorage w) (requests w) Hs). reflexivity.
Qed.

(** *** Worlds after a run *)

Local Abbreviation after w t' s' i' :=
  {| document := <[elementId := t']> (document w);
     localStorage := s'; requests := i' |}.

Lemma content_showingError message t :
  content (showingError message t)
  = if present (errorMessageElement t)
    then (if present (dataContent t) then "" else ownHTML t)
    else "<p>" ++ message ++ "</p>".
Proof. destruct t as [lo [e|] [d|] own]; reflexivity. Qed.

(** The run that reaches the transform, by what the transform gives. *)
Lemma reaches_fragment (w : World) t data html :
  document w !! elementId = Some t ->
  ReachesTransform network url elementId cacheKey w data ->
  processDataFunction data = Ret (Some html) ->
  hasContent (Some html) = true ->
  accepts cacheKey html = true ->
  run w = after w (showing html t)
            ((fun m => <[cacheKey := html]> m) <$> localStorage w)
            (url :: requests w).
Proof.
  intros Ht (_ & (m & Hm & Hk) & r & Hn & Hr & Hj) Hp Hc Ha.
  unfold fetchDataAndDisplay. rewrite Ht.
  rewrite (run_fragment (frame t (localStorage w) (requests w)) m r data html
             Hm Hk Hn Hr Hj Hp Hc Ha).
  rewrite Hm. reflexivity.
Qed.

Lemma reaches_refusal (w : World) t data html :
  document w !! elementId = Some t ->
  ReachesTransform network url elementId cacheKey w data ->
  processDataFunction data = Ret (Some html) ->
  hasContent (Some html) = true ->
  accepts cacheKey html = false ->
  run w = after w (showingRefused html t) (localStorage w)
            (url :: requests w).
Proof.
  intros Ht (_ & (m & Hm & Hk) & r & Hn & Hr & Hj) Hp Hc Ha.
  unfold fetchDataAndDisplay. rewrite Ht.
  rewrite (run_refused (frame t (localStorage w) (requests w)) m r data html
             Hm Hk Hn Hr Hj Hp Hc Ha).
  rewrite Hm. reflexivity.
Qed.

Lemma reaches_failure (w : World) t data e :
  document w !! elementId = Some t ->
  ReachesTransform network url elementId cacheKey w data ->
  processDataFunction data = Throw e ->
  run w = after w (showingError (shownFor e) t) (localStorage w)
            (url :: requests w).
Proof.
  intros Ht (_ & (m & Hm & Hk) & r & Hn & Hr & Hj) Hp.
  unfold fetchDataAndDisplay. rewrite Ht.
  rewrite (run_process_failed (frame t (localStorage w) (requests w)) m r
             data e Hm Hk Hn Hr Hj Hp).
  reflexivity.
Qed.

(** X1. A run that reaches the transform and gets a fragment with content
    has issued its one request; when the storage has room for the
    fragment, the run shows it, hides loader and error element, and
    stores the fragment under the cache key; when the storage refuses the
    fragment, the run shows the message for the unexpected as an error and
    stores nothing. *)
Theorem fragment_shown_and_cached (w : World) t m data html :
  document w !! elementId = Some t ->
  localStorage w = Some m ->
  ReachesTransform network url elementId cacheKey w data ->
  processDataFunction data = Ret (Some html) ->
  hasContent (Some html) = true ->
  run w = if accepts cacheKey html
          then after w (showing html t) (Some (<[cacheKey := html]> m))
                 (url :: requests w)
          else after w (showingRefused html t) (Some m) (url :: requests w).
Proof.
  intros Ht Hm Hreach Hp Hc. destruct (accepts cacheKey html) eqn:Ha.
  - rewrite (reaches_fragment w t data html Ht Hreach Hp Hc Ha), Hm.
    reflexivity.
  - rewrite (reaches_refusal w t data html Ht Hreach Hp Hc Ha), Hm.
    reflexivity.
Qed.

(** X2. After a run that got a fragment with content and stored it, on a
    target that has its content child (so that the run wrote into the
    child and left the elements of the target in place), a further run for
    the same target and cache key changes nothing at all, whatever the
    network would answer, whatever room the storage has by then and
    whatever the URL, transform and message of that run are: no request,
    the same markup. *)
Theorem rerun_after_fragment_changes_nothing (w : World) t m data html :
  document w !! elementId = Some t ->
  present (dataContent t) = true ->
  localStorage w = Some m ->
  ReachesTransform network url elementId cacheKey w data ->
  processDataFunction data = Ret (Some html) ->
  hasContent (Some html) = true ->
  accepts cacheKey html = true ->
  forall accepts' network' url' processDataFunction' emptyDataMessage',
    fetchDataAndDisplay accepts' network' url' elementId cacheKey
      processDataFunction' emptyDataMessage' (run w)
    = run w.
Proof.
  intros Ht _ Hm (_ & (m' & Hm' & Hk) & r & Hn & Hr & Hj) Hp Hc Ha
    accepts' network' url' f' msg'.
  assert (m' = m) as -> by congruence.
  assert (html <> "") as Hne by (intros ->; discriminate Hc).
  assert (run w = after w (showing html t) (Some (<[cacheKey := html]> m))
                    (url :: requests w)) as ->.
  { unfold fetchDataAndDisplay. rewrite Ht.
    rewrite (run_fragment (frame t (localStorage w) (requests w)) m r data
               html Hm Hk Hn Hr Hj Hp Hc Ha).
    reflexivity. }
  unfold fetchDataAndDisplay at 1.
  cbn [document localStorage requests]. rewrite lookup_insert_eq.
  rewrite (run_cache_hit accepts' network' url' cacheKey f' msg'
             (frame (showing html t) (Some (<[cacheKey := html]> m))
                (url :: requests w))
             (<[cacheKey := html]> m) html eq_refl (lookup_insert_eq _ _ _)
             Hne).
  cbn [target storage issued]. rewrite insert_insert_eq.
  assert (showing html (showing html t) = showing html t) as ->
    by (destruct t as [[lo|] [er|] [d|] own]; reflexivity).
  reflexivity.
Qed.

(** X3. When the request fails on the network, the run shows the message
    for it, leaves the storage as it was, and never calls the transform. *)
Theorem network_failure_shown (w : World) t :
  document w !! elementId = Some t ->
  CacheMiss w cacheKey ->
  network url = NetworkFailure ->
  run w = after w (showingError networkMessage t) (localStorage w)
            (url :: requests w).
Proof.
  intros Ht (m & Hm & Hk) Hn. unfold fetchDataAndDisplay. rewrite Ht.
  rewrite (run_retrieve_failed (frame t (localStorage w) (requests w)) m
             networkMessage "NetworkError" None Hm Hk
             (retrieve_network _ Hn)).
  reflexivity.
Qed.

(** X4. When the response has a status that is not ok, the run shows a
    message that carries the status code and the status text, and leaves
    the storage as it was; the body of the response is not looked at. *)
Theorem http_error_shown (w : World) t r :
  document w !! elementId = Some t ->
  CacheMiss w cacheKey ->
  network url = Responded r -> ok r = false ->
  run w = after w (showingError (httpMessage r) t) (localStorage w)
            (url :: requests w).
Proof.
  intros Ht (m & Hm & Hk) Hn Hok. unfold fetchDataAndDisplay. rewrite Ht.
  rewrite (run_retrieve_failed (frame t (localStorage w) (requests w)) m
             (httpMessage r) "HttpError" (Some (status r)) Hm Hk
             (retrieve_http _ r Hn Hok)).
  reflexivity.
Qed.

(** X5. When an ok response does not announce JSON, or announces it and
    does not parse, the run shows the message for the format or for the
    parsing, and leaves the storage as it was. *)
Theorem unreadable_response_shown (w : World) t r :
  document w !! elementId = Some t ->
  CacheMiss w cacheKey ->
  network url = Responded r -> ok r = true ->
  (NotJson r ->
   run w = after w (showingError formatMessage t) (localStorage w)
             (url :: requests w))
  /\ (JsonResponse r -> json r = None ->
      run w = after w (showingError parseMessage t) (localStorage w)
                (url :: requests w)).
Proof.
  intros Ht (m & Hm & Hk) Hn Hok. unfold fetchDataAndDisplay. rewrite Ht.
  split.
  - intros Hct.
    rewrite (run_retrieve_failed (frame t (localStorage w) (requests w)) m
               formatMessage "JsonParseError" None Hm Hk
               (retrieve_format _ r Hn Hok Hct)).
    reflexivity.
  - intros Hr Hj.
    rewrite (run_retrieve_failed (frame t (localStorage w) (requests w)) m
               parseMessage "JsonParseError" None Hm Hk
               (retrieve_parse _ r Hn Hr Hj)).
    reflexivity.
Qed.

(** X6. When the transform throws, the run shows the message of the
    exception if it is a [FetchDataError] and the message for processing
    otherwise, and leaves the storage as it was. *)
Theorem transform_exception_shown (w : World) t data e :
  document w !! elementId = Some t ->
  ReachesTransform network url elementId cacheKey w data ->
  processDataFunction data = Throw e ->
  run w = after w (showingError (shownFor e) t) (localStorage w)
            (url :: requests w).
Proof.
  intros Ht (_ & (m & Hm & Hk) & r & Hn & Hr & Hj) Hp.
  unfold fetchDataAndDisplay. rewrite Ht.
  rewrite (run_process_failed (frame t (localStorage w) (requests w)) m r
             data e Hm Hk Hn Hr Hj Hp).
  reflexivity.
Qed.

(** X7. When the browser blocks the storage, the run shows the message for
    the unexpected and issues no request. *)
Theorem blocked_storage_shown (w : World) t :
  document w !! elementId = Some t ->
  localStorage w = None ->
  run w = after w (showingError unexpectedMessage t) None (requests w).
Proof.
  intros Ht Hs. unfold fetchDataAndDisplay. rewrite Ht.
  rewrite (run_no_storage (frame t (localStorage w) (requests w)) Hs).
  reflexivity.
Qed.

(** X8. A run on a target never ends in an exception. *)
Theorem run_never_throws (fr : Frame) : fst (runT fr) = Ret tt.
Proof.
  destruct fr as [t s i].
  destruct (run_effect t (cached cacheKey s)) as (t' & e & _ & H).
  rewrite (H s i eq_refl). reflexivity.
Qed.


(** X9. Of the storage a run touches the entry of its own cache key
    only: every other entry is as before, there or not; and the requests
    are as before or one more, to the URL of the run. *)
Theorem run_leaves_the_rest (w : World) :
  (forall key, key <> cacheKey ->
               cached key (localStorage (run w))
               = cached key (localStorage w))
  /\ (requests (run w) = requests w \/ requests (run w) = url :: requests w).
Proof.
  destruct (document w !! elementId) as [t|] eqn:Ht.
  2:{ rewrite (run_without_target accepts network url elementId cacheKey
                 processDataFunction emptyDataMessage w Ht). auto. }
  destruct (run_world_effect t (cached cacheKey (localStorage w)))
    as (t' & e & _ & H).
  rewrite (H w Ht eq_refl). cbn [document localStorage requests].
  split.
  - intros key Hne. unfold store, cached.
    destruct (written e) as [html|]; [|reflexivity].
    destruct (localStorage w) as [m|]; [|reflexivity].
    simpl. f_equal. apply lookup_insert_ne. congruence.
  - unfold ask. destruct (asked e); auto.
Qed.

End Run.

(** *** The properties at sample pages *)

Lemma sample_target (cache : gmap string string) :
  document (Samples.page cache) !! "podcast-list"
  = Some Samples.preparedSection.
Proof. apply lookup_singleton_eq. Qed.

Lemma sample_miss : CacheMiss (Samples.page ∅) "podcasts-cache".
Proof. exists ∅. split; [reflexivity|left; apply lookup_empty]. Qed.

Lemma fragment_shown_and_cached_witness :
  exists html,
    Normalizers.processPodcasts Samples.onePodcast = Ret (Some html)
    /\ Samples.podcastsRun (Samples.serving Samples.onePodcast)
         Normalizers.processPodcasts (Samples.page ∅)
       = {| document := <["podcast-list" := showing html Samples.preparedSection]>
                          (document (Samples.page ∅));
            localStorage := Some (<["podcasts-cache" := html]> ∅);
            requests := ["/api/content"] |}
    /\ fetchDataAndDisplay Samples.full (Samples.serving Samples.onePodcast)
         "/api/content" "podcast-list" "podcasts-cache"
         Normalizers.processPodcasts Samples.noPodcasts (Samples.page ∅)
       = {| document :=
              <["podcast-list" := showingRefused html Samples.preparedSection]>
                (document (Samples.page ∅));
            localStorage := Some ∅;
            requests := ["/api/content"] |}
    /\ showingRefused html Samples.preparedSection
       = showingError unexpectedMessage Samples.preparedSection.
Proof.
  eexists. split; [reflexivity|]. split; [|split; [|reflexivity]].
  - apply (fragment_shown_and_cached Samples.roomy
             (Samples.serving Samples.onePodcast)
             "/api/content" "podcast-list" "podcasts-cache"
             Normalizers.processPodcasts Samples.noPodcasts (Samples.page ∅)
             Samples.preparedSection ∅ Samples.onePodcast).
    + apply sample_target.
    + reflexivity.
    + apply sample_reaches.
    + reflexivity.
    + reflexivity.
  - apply (fragment_shown_and_cached Samples.full
             (Samples.serving Samples.onePodcast)
             "/api/content" "podcast-list" "podcasts-cache"
             Normalizers.processPodcasts Samples.noPodcasts (Samples.page ∅)
             Samples.preparedSection ∅ Samples.onePodcast).
    + apply sample_target.
    + reflexivity.
    + apply sample_reaches.
    + reflexivity.
    + reflexivity.
Defined.

Lemma rerun_after_fragment_changes_nothing_witness :
  let w' := Samples.podcastsRun (Samples.serving Samples.onePodcast)
              Normalizers.processPodcasts (Samples.page ∅) in
  fetchDataAndDisplay Samples.full Samples.offline "/api/content"
    "podcast-list" "podcasts-cache" Answers.failingTransform
    Samples.noPodcasts w'
  = w'.
Proof.
  eapply (rerun_after_fragment_changes_nothing Samples.roomy
            (Samples.serving Samples.onePodcast) "/api/content"
            "podcast-list" "podcasts-cache" Normalizers.processPodcasts
            Samples.noPodcasts (Samples.page ∅) Samples.preparedSection ∅
            Samples.onePodcast).
  - apply sample_target.
  - reflexivity.
  - reflexivity.
  - apply sample_reaches.
  - reflexivity.
  - reflexivity.
  - reflexivity.
Defined.

Lemma network_failure_shown_witness :
  Samples.podcastsRun Samples.offline Normalizers.processPodcasts
    (Samples.page ∅)
  = {| document :=
         <["podcast-list" := showingError networkMessage Samples.preparedSection]>
           (document (Samples.page ∅));
       localStorage := Some ∅;
       requests := ["/api/content"] |}.
Proof.
  apply (network_failure_shown Samples.roomy Samples.offline "/api/content"
           "podcast-list" "podcasts-cache" Normalizers.processPodcasts
           Samples.noPodcasts (Samples.page ∅) Samples.preparedSection).
  - apply sample_target.
  - apply sample_miss.
  - reflexivity.
Defined.

Lemma http_error_shown_witness :
  Samples.podcastsRun (Answers.answering Answers.serverError)
    Normalizers.processPodcasts (Samples.page ∅)
  = {| document :=
         <["podcast-list" :=
             showingError
               "Failed to load data: Server responded with 500 (Internal Server Error)."
               Samples.preparedSection]>
           (document (Samples.page ∅));
       localStorage := Some ∅;
       requests := ["/api/content"] |}.
Proof.
  apply (http_error_shown Samples.roomy (Answers.answering Answers.serverError)
           "/api/content" "podcast-list" "podcasts-cache"
           Normalizers.processPodcasts Samples.noPodcasts (Samples.page ∅)
           Samples.preparedSection Answers.serverError).
  - apply sample_target.
  - apply sample_miss.
  - reflexivity.
  - reflexivity.
Defined.

Lemma unreadable_response_shown_witness :
  Samples.podcastsRun (Answers.answering Answers.htmlPage)
    Normalizers.processPodcasts (Samples.page ∅)
  = {| document :=
         <["podcast-list" := showingError formatMessage Samples.preparedSection]>
           (document (Samples.page ∅));
       localStorage := Some ∅;
       requests := ["/api/content"] |}
  /\ Samples.podcastsRun (Answers.answering Answers.brokenJson)
       Normalizers.processPodcasts (Samples.page ∅)
     = {| document :=
            <["podcast-list" := showingError parseMessage Samples.preparedSection]>
              (document (Samples.page ∅));
          localStorage := Some ∅;
          requests := ["/api/content"] |}.
Proof.
  split.
  - apply (proj1 (unreadable_response_shown Samples.roomy
                    (Answers.answering Answers.htmlPage) "/api/content"
                    "podcast-list" "podcasts-cache"
                    Normalizers.processPodcasts Samples.noPodcasts
                    (Samples.page ∅) Samples.preparedSection Answers.htmlPage
                    (sample_target ∅) sample_miss eq_refl eq_refl)).
    reflexivity.
  - apply (proj2 (unreadable_response_shown Samples.roomy
                    (Answers.answering Answers.brokenJson) "/api/content"
                    "podcast-list" "podcasts-cache"
                    Normalizers.processPodcasts Samples.noPodcasts
                    (Samples.page ∅) Samples.preparedSection
                    Answers.brokenJson
                    (sample_target ∅) sample_miss eq_refl eq_refl)).
    + split; [reflexivity|]. eexists. split; reflexivity.
    + reflexivity.
Defined.

Lemma transform_exception_shown_witness :
  Samples.podcastsRun (Samples.serving JNull) Answers.failingTransform
    (Samples.page ∅)
  = {| document :=
         <["podcast-list" := showingError processingMessage Samples.preparedSection]>
           (document (Samples.page ∅));
       localStorage := Some ∅;
       requests := ["/api/content"] |}
  /\ Samples.podcastsRun (Samples.serving JNull) Answers.refusingTransform
       (Samples.page ∅)
     = {| document :=
            <["podcast-list" := showingError "No podcasts today." Samples.preparedSection]>
              (document (Samples.page ∅));
          localStorage := Some ∅;
          requests := ["/api/content"] |}.
Proof.
  split.
  - apply (transform_exception_shown Samples.roomy (Samples.serving JNull)
             "/api/content" "podcast-list" "podcasts-cache"
             Answers.failingTransform Samples.noPodcasts (Samples.page ∅)
             Samples.preparedSection
             JNull TypeError);
      [apply sample_target|apply sample_reaches|reflexivity].
  - apply (transform_exception_shown Samples.roomy (Samples.serving JNull)
             "/api/content" "podcast-list" "podcasts-cache"
             Answers.refusingTransform Samples.noPodcasts (Samples.page ∅)
             Samples.preparedSection
             JNull (FetchDataError "No podcasts today." "Custom" None));
      [apply sample_target|apply sample_reaches|reflexivity].
Defined.

Lemma blocked_storage_shown_witness :
  Samples.podcastsRun (Samples.serving Samples.onePodcast)
    Normalizers.processPodcasts Answers.blockedPage
  = {| document :=
         <["podcast-list" := showingError unexpectedMessage Samples.preparedSection]>
           (document Answers.blockedPage);
       localStorage := None;
       requests := [] |}.
Proof.
  apply (blocked_storage_shown Samples.roomy
           (Samples.serving Samples.onePodcast) "/api/content"
           "podcast-list" "podcasts-cache" Normalizers.processPodcasts
           Samples.noPodcasts Answers.blockedPage
           Samples.preparedSection).
  - apply lookup_singleton_eq.
  - reflexivity.
Defined.

Lemma run_leaves_the_rest_witness :
  let w := Cases.fullPage {["articles-cache" := "<p>Victoria</p>"]} in
  let w' := Samples.podcastsRun (Samples.serving Samples.onePodcast)
              Normalizers.processPodcasts w in
  cached "articles-cache" (localStorage w') = Some (Some "<p>Victoria</p>")
  /\ cached "podcasts-cache" (localStorage w')
     <> cached "podcasts-cache" (localStorage w)
  /\ requests w' = ["/api/content"].
Proof.
  cbn zeta.
  destruct (run_leaves_the_rest Samples.roomy
              (Samples.serving Samples.onePodcast)
              "/api/content" "podcast-list" "podcasts-cache"
              Normalizers.processPodcasts Samples.noPodcasts
              (Cases.fullPage {["articles-cache" := "<p>Victoria</p>"]}))
    as (H1 & H2).
  split; [|split].
  - unfold Samples.podcastsRun. rewrite H1 by discriminate.
    vm_compute. reflexivity.
  - vm_compute. discriminate.
  - destruct H2 as [H2|H2]; [vm_compute in H2; discriminate H2|].
    unfold Samples.podcastsRun. rewrite H2. reflexivity.
Defined.

(** *** Two runs *)






End OutcomeProps.

(** ** The preparation of the page and the four tasks *)

Module PageProps.
Import Js Normalizers Engine Terms Outcomes Page EngineProps OutcomeProps.

Lemma lookup_alter_all {A} (f : A -> A) (l : list string)
  (d : gmap string A) (id : string) :
  NoDup l ->
  fold_left (fun d i => alter f i d) l d !! id
  = if decide (id ∈ l) then f <$> d !! id else d !! id.
Proof.
  intros Hl. revert d. induction Hl as [|i l Hi _ IH]; intros d.
  - rewrite decide_False by apply not_elem_of_nil. reflexivity.
  - simpl. rewrite IH, lookup_alter.
    destruct (decide (i = id)) as [->|Hne].
    + rewrite (decide_False (P := id ∈ l)) by exact Hi.
      rewrite decide_True by apply list_elem_of_here. reflexivity.
    + destruct (decide (id ∈ l)) as [Hin|Hnot].
      * rewrite decide_True by (apply list_elem_of_further; exact Hin).
        reflexivity.
      * rewrite decide_False; [reflexivity|].
        intros [E|Hin]%elem_of_cons; [congruence|contradiction].
Qed.

Lemma mainDataSections_NoDup : NoDup mainDataSections.
Proof. apply (bool_decide_unpack _). vm_compute. exact I. Qed.

Lemma podcastList_main : "podcast-list" ∈ mainDataSections.
Proof. apply (bool_decide_unpack _). vm_compute. exact I. Qed.

Lemma prepare_twice t : prepare (prepare t) = prepare t.
Proof. destruct t as [[lo|] [er|] [d|] own]; reflexivity. Qed.

Lemma prepare_prepared t : Prepared (prepare t).
Proof. destruct t as [[lo|] [er|] [d|] own]; repeat split. Qed.

(** The target that the preparation leaves under each id. *)
Lemma prepareSections_lookup w id :
  document (prepareSections w) !! id
  = if decide (id ∈ mainDataSections)
    then prepare <$> document w !! id
    else document w !! id.
Proof.
  unfold prepareSections. cbn [document].
  apply lookup_alter_all, mainDataSections_NoDup.
Qed.

(** X11. The preparation gives each of the four sections that is on the
    page its loader, its error element and its content child, keeping the
    ones that were there; it leaves every other target, the storage and the
    requests as they were; and done twice it is as done once. *)
Theorem prepareSections_prepares (w : World) :
  (forall id t,
      id ∈ mainDataSections -> document w !! id = Some t ->
      exists t',
        document (prepareSections w) !! id = Some t'
        /\ Prepared t'
        /\ (forall l, loader t = Some l -> loader t' = Some l)
        /\ (forall e, errorMessageElement t = Some e ->
                      errorMessageElement t' = Some e)
        /\ (forall html, dataContent t = Some html ->
                         dataContent t' = Some html))
  /\ (forall id,
        id ∉ mainDataSections \/ document w !! id = None ->
        document (prepareSections w) !! id = document w !! id)
  /\ localStorage (prepareSections w) = localStorage w
  /\ requests (prepareSections w) = requests w
  /\ prepareSections (prepareSections w) = prepareSections w.
Proof.
  split; [|split; [|split; [|split]]]; try reflexivity.
  - intros id t Hin Ht. exists (prepare t).
    rewrite prepareSections_lookup, Ht. rewrite decide_True by exact Hin.
    split; [reflexivity|]. split; [apply prepare_prepared|].
    destruct t as [lo er d own]. simpl.
    repeat split; intros x ->; reflexivity.
  - intros id H. rewrite prepareSections_lookup.
    destruct (decide (id ∈ mainDataSections)); [|reflexivity].
    destruct H as [H|H]; [contradiction|]. rewrite H. reflexivity.
  - assert (document (prepareSections (prepareSections w))
            = document (prepareSections w)) as E.
    { apply map_eq. intros id. rewrite !prepareSections_lookup.
      destruct (decide (id ∈ mainDataSections)); [|reflexivity].
      destruct (document w !! id) as [t|]; simpl; [|reflexivity].
      rewrite prepare_twice. reflexivity. }
    change (prepareSections (prepareSections w))
      with {| document := document (prepareSections (prepareSections w));
              localStorage := localStorage w; requests := requests w |}.
    rewrite E. reflexivity.
Qed.

Lemma prepareSections_prepares_witness :
  exists t',
    document (prepareSections
                {| document := {["podcast-list" :=
                                   {| loader := None;
                                      errorMessageElement := None;
                                      dataContent := None;
                                      ownHTML := "" |}]};
                   localStorage := Some ∅; requests := [] |})
    !! "podcast-list" = Some t'
    /\ Prepared t'.
Proof.
  destruct (proj1 (prepareSections_prepares
                     {| document := {["podcast-list" :=
                                        {| loader := None;
                                           errorMessageElement := None;
                                           dataContent := None;
                                           ownHTML := "" |}]};
                        localStorage := Some ∅; requests := [] |})
              "podcast-list"
              {| loader := None; errorMessageElement := None;
                 dataContent := None; ownHTML := "" |})
    as (t' & Ht' & Hp & _).
  - apply podcastList_main.
  - apply lookup_singleton_eq.
  - exists t'. split; assumption.
Defined.

(** X12. On a target that has its three elements a run never writes the
    markup of the target itself, and it ends in one of two ways: the error
    element hidden and the content child showing what the run rendered, or
    the error element shown with the message and the content child
    empty. *)
Theorem run_on_prepared_target
  accepts network url elementId cacheKey processDataFunction emptyDataMessage
  (w : World) (t : Target) :
  document w !! elementId = Some t -> Prepared t ->
  exists t',
    document (fetchDataAndDisplay accepts network url elementId cacheKey
                processDataFunction emptyDataMessage w) !! elementId
    = Some t'
    /\ Prepared t'
    /\ ownHTML t' = ownHTML t
    /\ ((exists e, errorMessageElement t' = Some e /\ hidden e = true)
        \/ (exists message,
              errorMessageElement t'
              = Some {| hidden := false; textContent := message |}
              /\ content t' = "")).
Proof.
  intros Ht (Hlo & Her & Hdc).
  destruct (run_world_effect accepts network url elementId cacheKey
              processDataFunction emptyDataMessage t
              (cached cacheKey (localStorage w)))
    as (t' & e & (text & Hend) & H).
  rewrite (H w Ht eq_refl). cbn [document]. exists t'.
  split; [apply lookup_insert_eq|].
  destruct t as [[lo|] [er|] [d|] own]; try discriminate.
  destruct Hend as [-> | [-> | ->]]; simpl.
  - split; [repeat split|]. split; [reflexivity|]. left. eauto.
  - split; [repeat split|]. split; [reflexivity|]. right. eauto.
  - split; [repeat split|]. split; [reflexivity|]. right. eauto.
Qed.

Lemma run_on_prepared_target_witness :
  exists t',
    document (Samples.podcastsRun Samples.offline processPodcasts
                (Samples.page ∅)) !! "podcast-list" = Some t'
    /\ Prepared t'
    /\ ownHTML t' = ""
    /\ ((exists e, errorMessageElement t' = Some e /\ hidden e = true)
        \/ (exists message,
              errorMessageElement t'
              = Some {| hidden := false; textContent := message |}
              /\ content t' = "")).
Proof.
  apply (run_on_prepared_target Samples.roomy Samples.offline "/api/content"
           "podcast-list" "podcasts-cache" processPodcasts Samples.noPodcasts
           (Samples.page ∅) Samples.preparedSection).
  - apply lookup_singleton_eq.
  - repeat split.
Defined.


End PageProps.
(** ** Numbers written and read back *)

Module NumberFacts.
Import Js Normalizers Documents JsFacts.

Lemma digit_char k :
  (k < 10)%N ->
  is_digit (pretty_N_char k) = true
  /\ Z.of_nat (byte (pretty_N_char k)) - 48 = Z.of_N k.
Proof.
  intros H.
  assert (k = 0 \/ k = 1 \/ k = 2 \/ k = 3 \/ k = 4 \/ k = 5 \/ k = 6
          \/ k = 7 \/ k = 8 \/ k = 9)%N as Hk by lia.
  repeat (destruct Hk as [->|Hk]; [split; reflexivity|]).
  subst k. split; reflexivity.
Qed.

Lemma digits_value_acc acc s :
  digits_value acc s
  = acc * 10 ^ Z.of_nat (String.length s) + digits_value 0 s.
Proof.
  revert acc. induction s as [|c s IH]; intros acc.
  - simpl. lia.
  - cbn [digits_value String.length]. rewrite IH, (IH (10 * 0 + _)).
    rewrite Nat2Z.inj_succ, Z.pow_succ_r by lia. lia.
Qed.

(** The digits that [pretty] puts before [s] have the value of [x]. *)
Lemma value_pretty_go x s :
  digits_value 0 (pretty_N_go x s)
  = Z.of_N x * 10 ^ Z.of_nat (String.length s) + digits_value 0 s.
Proof.
  revert s. induction (N.lt_wf_0 x) as [x _ IH]. intros s.
  destruct (N.eq_dec x 0%N) as [->|Hx].
  - rewrite pretty_N_go_0. lia.
  - rewrite pretty_N_go_step by lia.
    rewrite IH by (apply N.div_lt; lia).
    cbn [digits_value String.length].
    destruct (digit_char (x `mod` 10)) as [_ Hd];
      [apply N.mod_lt; lia|].
    rewrite (digits_value_acc (10 * 0 + _)), Hd.
    rewrite Nat2Z.inj_succ, Z.pow_succ_r by lia.
    pose proof (N.div_mod x 10 ltac:(lia)) as E.
    apply (f_equal Z.of_N) in E. rewrite N2Z.inj_add, N2Z.inj_mul in E.
    change (Z.of_N 10) with 10 in E. nia.
Qed.

(** They are digits, so the scan for digits takes them all. *)
Lemma span_pretty_go x s d r :
  span_digits s = (d, r) ->
  span_digits (pretty_N_go x s) = (pretty_N_go x d, r).
Proof.
  revert s d. induction (N.lt_wf_0 x) as [x _ IH]. intros s d Hs.
  destruct (N.eq_dec x 0%N) as [->|Hx].
  - rewrite !pretty_N_go_0. exact Hs.
  - rewrite (pretty_N_go_step x s), (pretty_N_go_step x d) by lia.
    apply IH; [apply N.div_lt; lia|].
    cbn [span_digits].
    destruct (digit_char (x `mod` 10)) as [Hd _];
      [apply N.mod_lt; lia|].
    rewrite Hd, Hs. reflexivity.
Qed.

Lemma pretty_go_append x a b :
  pretty_N_go x (a ++ b) = pretty_N_go x a ++ b.
Proof.
  revert a. induction (N.lt_wf_0 x) as [x _ IH]. intros a.
  destruct (N.eq_dec x 0%N) as [->|Hx].
  - rewrite !pretty_N_go_0. reflexivity.
  - rewrite (pretty_N_go_step x (a ++ b)), (pretty_N_go_step x a) by lia.
    rewrite <- IH by (apply N.div_lt; lia). reflexivity.
Qed.

Lemma pretty_append (n : N) s :
  pretty n ++ s = if decide (n = 0)%N then String "0" s else pretty_N_go n s.
Proof.
  unfold pretty, pretty_N. destruct (decide (n = 0)%N); [reflexivity|].
  rewrite <- pretty_go_append. reflexivity.
Qed.

Lemma span_pretty (n : N) s :
  NoDigitAhead s -> span_digits (pretty n ++ s) = (pretty n, s).
Proof.
  intros Hs. rewrite pretty_append. unfold pretty, pretty_N.
  destruct (decide (n = 0)%N).
  - cbn [span_digits]. change (is_digit "0") with true. cbn iota.
    rewrite Hs. reflexivity.
  - apply span_pretty_go. exact Hs.
Qed.

Lemma value_pretty (n : N) : digits_value 0 (pretty n) = Z.of_N n.
Proof.
  unfold pretty, pretty_N. destruct (decide (n = 0)%N) as [->|];
    [reflexivity|].
  rewrite value_pretty_go. simpl. lia.
Qed.

Lemma pretty_starts_with_digit (n : N) :
  exists c t, pretty n = String c t /\ is_digit c = true.
Proof.
  pose proof (span_pretty n "" eq_refl) as H.
  rewrite append_empty_r in H.
  destruct (pretty n) as [|c t] eqn:E.
  - exfalso. pose proof (value_pretty n) as V. rewrite E in V. simpl in V.
    assert (n = 0%N) as -> by lia. discriminate E.
  - exists c, t. split; [reflexivity|].
    cbn [span_digits] in H. destruct (is_digit c); [reflexivity|].
    discriminate H.
Qed.

Lemma pretty_Z_of_N (n : N) : pretty (Z.of_N n) = pretty n.
Proof. destruct n; reflexivity. Qed.

End NumberFacts.

(** ** Further properties of the normalizers *)

Module DocumentProps.
Import Js Normalizers Engine Terms Shapes Outcomes Documents Page JsFacts
  EngineProps OutcomeProps NormalizerProps NumberFacts.

(** *** White space around markup *)

Lemma rev_app_acc s acc :
  String.rev_app s acc = String.rev_app s "" ++ acc.
Proof.
  revert acc. induction s as [|c s IH]; intros acc; [reflexivity|].
  simpl. rewrite (IH (String c acc)), (IH (String c "")), append_assoc.
  reflexivity.
Qed.

(** The scan from the end stops at a [<] at the latest. *)
Lemma trimStart_rev_keeps z : trimStart_rev (z ++ "<") <> "".
Proof.
  remember (String.length z) as n eqn:Hn. revert z Hn.
  induction n as [n IH] using lt_wf_ind. intros z Hn.
  destruct z as [|a z]; [discriminate|].
  rewrite append_cons. cbn [trimStart_rev].
  destruct (ws1 a); [apply (IH (String.length z)); [subst n; simpl; lia|reflexivity]|].
  destruct z as [|b z]; [discriminate|].
  rewrite append_cons. cbn iota.
  destruct (ws2 b a);
    [apply (IH (String.length z)); [subst n; simpl; lia|reflexivity]|].
  destruct z as [|c z]; [discriminate|].
  rewrite append_cons. cbn iota.
  destruct (ws3 c b a);
    [apply (IH (String.length z)); [subst n; simpl; lia|reflexivity]|].
  discriminate.
Qed.

Lemma trimEnd_tag x : trimEnd (String "<" x) <> "".
Proof.
  unfold trimEnd, String.rev.
  change (String.rev_app (String "<" x) "") with (String.rev_app x "<").
  rewrite (rev_app_acc x "<").
  destruct (trimStart_rev (String.rev_app x "" ++ "<")) as [|c r] eqn:E.
  - exfalso. exact (trimStart_rev_keeps _ E).
  - simpl. apply rev_app_nonempty. discriminate.
Qed.

Lemma indented_hasContent s : Indented s -> hasContent (Some s) = true.
Proof.
  intros [body ->]. unfold hasContent, trim.
  assert (trimStart (nl ++ "        <" ++ body) = String "<" body) as ->
    by (destruct body as [|b [|c t]]; reflexivity).
  destruct (String.eqb_spec (trimEnd (String "<" body)) "") as [E|_];
    [exfalso; exact (trimEnd_tag body E)|].
  reflexivity.
Qed.

Lemma indented_append s rest : Indented s -> Indented (s ++ rest).
Proof.
  intros [body ->]. exists (body ++ rest). rewrite !append_assoc. reflexivity.
Qed.

(** *** Lists of articles and podcasts *)

Lemma prop_array_object v p l :
  prop v p = JArr l -> exists fs, v = JObj fs.
Proof.
  intros H. destruct v as [| |b|n|s|items|fs|]; unfold prop in H;
    try discriminate H; [| |eauto].
  - destruct (String.eqb p "length"); discriminate H.
  - destruct (String.eqb p "length"); [discriminate H|].
    destruct (mem_str p array_methods); discriminate H.
Qed.

(** The test that opens the three list normalizers. *)
Lemma listCheck data key :
  (Ret (negb (truthy data))
   ||| notR (T (data @. key))
   ||| notR (let* l := data @. key in Ret (isArray l))
   ||| (let* n := data @. key @@ "length" in Ret (eq_num n 0)))
  = Ret (negb (isFilledArray (prop data key))).
Proof.
  destruct (truthy data) eqn:Hd.
  - rewrite !(get_truthy data _ Hd). unfold T, notR. cbn [bind orR negb].
    destruct (prop data key) as [| |b|n|s|[|x l]|fs|]; try reflexivity.
    + destruct b; reflexivity.
    + simpl. destruct (n =? 0); reflexivity.
    + simpl. destruct (String.eqb s ""); reflexivity.
  - cbn [bind orR negb].
    destruct data as [| |b|n|s|l|fs|]; try discriminate Hd; try reflexivity.
    destruct s; [|discriminate Hd].
    unfold prop. destruct (String.eqb key "length"); reflexivity.
Qed.

Section Articles.
Variable linkSource : string.

Lemma articleCard_total a :
  isArticleEntry a = true ->
  exists card, articleCard linkSource a = Ret card /\ Indented card.
Proof.
  unfold isArticleEntry. intros H.
  apply andb_prop in H as [H Hlink]. apply andb_prop in H as [H Hsummary].
  apply andb_prop in H as [Ha Htitle]. apply negb_true_iff in Ha.
  assert (forall v d, converts v = true ->
                      toStr (if truthy v then v else JStr d)
                      = Ret (shown (if truthy v then v else JStr d)))
    as Htext.
  { intros v d Hv. apply converts_true.
    destruct (truthy v); [exact Hv|reflexivity]. }
  unfold articleCard, articleLink.
  rewrite !(get_ok a _ Ha), !orElseR_Ret. cbn [bind].
  rewrite (Htext _ "Untitled Article" Htitle),
    (Htext _ "No summary available." Hsummary). cbn [bind].
  destruct a as [| |b|n|s|l|fs|]; try discriminate Ha;
    cbn [bind]; rewrite ?orElseR_Ret; cbn [bind];
    rewrite ?(Htext _ "#" Hlink); cbn [bind];
    (eexists; split; [reflexivity|]; eexists; reflexivity).
Qed.

Lemma articleCard_null a :
  nullish a = true -> articleCard linkSource a = Throw TypeError.
Proof. destruct a; try discriminate; reflexivity. Qed.

Lemma only_articleCard a : OnlyTypeError (articleCard linkSource a).
Proof.
  unfold articleCard, articleLink.
  apply only_bind; [only_steps|intros title].
  apply only_bind; [only_steps|intros summary].
  apply only_bind; [only_steps|intros titleText].
  apply only_bind; [only_steps|intros summaryText].
  apply only_bind; [destruct a; only_steps|intros link]. apply only_Ret.
Qed.

End Articles.

Lemma podcastCard_null p :
  nullish p = true -> podcastCard p = Throw TypeError.
Proof. destruct p; try discriminate; reflexivity. Qed.

(** A callback that throws a [TypeError] on [null], and nothing else
    anywhere, makes [map] throw when the list holds a [null]. *)
Lemma mapR_null {B} (f : JsVal -> Res B) i l :
  (forall x, OnlyTypeError (f x)) ->
  (forall x, nullish x = true -> f x = Throw TypeError) ->
  (exists x, In x l /\ nullish x = true) ->
  mapR (fun _ => f) i l = Throw TypeError.
Proof.
  intros Honly Hnull (a & Hin & Ha). apply mapR_throws.
  - intros x _. apply only_cases, Honly.
  - apply List.Exists_exists. exists a. split; [exact Hin|apply Hnull, Ha].
Qed.

Lemma articleCards linkSource items :
  Forall (fun a => isArticleEntry a = true) items ->
  exists cards,
    mapR (fun _ => articleCard linkSource) 0 items = Ret cards
    /\ Forall2 (fun a card => articleCard linkSource a = Ret card
                              /\ Indented card) items cards.
Proof.
  intros H.
  destruct (mapR_Forall2 (articleCard linkSource) items) as (cards & Hc & Hf).
  { eapply Forall_impl; [exact H|]. intros a Ha. simpl in Ha.
    destruct (articleCard_total linkSource a Ha) as (card & Hcard & _).
    eauto. }
  exists cards. split; [exact Hc|].
  clear Hc. induction Hf as [|a card items cards Hcard _ IH]; [constructor|].
  apply Forall_cons in H as [Ha H]. constructor; [|exact (IH H)].
  split; [exact Hcard|].
  destruct (articleCard_total linkSource a Ha) as (card' & Hcard' & Hi).
  congruence.
Qed.

Lemma join_indented cards :
  cards <> [] -> Forall Indented cards -> Indented (join cards).
Proof.
  intros Hne H. destruct H as [|card cards Hcard _]; [congruence|].
  rewrite join_cons. apply indented_append, Hcard.
Qed.

(** X13. Of a filled articles list whose entries are articles (none is
    [null], and titles, summaries and links convert to text) nothing is
    skipped: every entry has its card, in order, whatever it lacks; the
    result has content, so a run that reaches the transform, on a storage
    that has room for the cards, shows them and stores them. *)
Theorem articles_all_rendered linkSource (data : JsVal) (items : list JsVal) :
  prop data "articles" = JArr items -> items <> [] ->
  Forall (fun a => isArticleEntry a = true) items ->
  exists cards,
    Forall2 (fun a card => articleCard linkSource a = Ret card
                           /\ Indented card) items cards
    /\ processArticles linkSource data = Ret (Some (join cards))
    /\ forall accepts network w t,
         document w !! "articles-list" = Some t ->
         ReachesTransform network contentUrl "articles-list" "articles-cache"
           w data ->
         accepts "articles-cache" (join cards) = true ->
         fetchArticles accepts network linkSource w
         = {| document :=
                <["articles-list" := showing (join cards) t]> (document w);
              localStorage :=
                (fun m => <["articles-cache" := join cards]> m)
                <$> localStorage w;
              requests := contentUrl :: requests w |}.
Proof.
  intros Hp Hne Hitems.
  destruct (articleCards linkSource items Hitems) as (cards & Hc & Hf).
  exists cards. split; [exact Hf|].
  assert (processArticles linkSource data = Ret (Some (join cards))) as Hr.
  { unfold processArticles. rewrite listCheck, Hp.
    destruct (prop_array_object _ _ _ Hp) as [fs ->].
    rewrite (get_ok (JObj fs) _ eq_refl), Hp.
    destruct items as [|a items]; [congruence|].
    cbn [isFilledArray negb bind]. rewrite Hc. reflexivity. }
  split; [exact Hr|].
  intros accepts network w t Ht Hreach Hroom.
  apply (reaches_fragment accepts network contentUrl "articles-list"
           "articles-cache" (processArticles linkSource) _ w t data
           (join cards) Ht Hreach Hr); [|exact Hroom].
  apply indented_hasContent, join_indented.
  - destruct Hf; [congruence|discriminate].
  - clear -Hf. induction Hf as [|a card items cards [_ Hi] _ IH];
      constructor; assumption.
Qed.

(** X14. One [null] entry in the list makes the normalizer of the articles
    and the one of the podcasts throw, whatever the other entries are: the
    run then shows the message for a failed processing in place of every
    card, and stores nothing. *)
Theorem null_entry_fails_the_list linkSource (data : JsVal)
  (items : list JsVal) :
  (exists a, In a items /\ nullish a = true) ->
  (prop data "articles" = JArr items ->
   processArticles linkSource data = Throw TypeError
   /\ forall accepts network w t,
        document w !! "articles-list" = Some t ->
        ReachesTransform network contentUrl "articles-list" "articles-cache"
          w data ->
        fetchArticles accepts network linkSource w
        = {| document :=
               <["articles-list" := showingError processingMessage t]>
                 (document w);
             localStorage := localStorage w;
             requests := contentUrl :: requests w |})
  /\ (prop data "podcasts" = JArr items ->
      processPodcasts data = Throw TypeError
      /\ forall accepts network w t,
           document w !! "podcast-list" = Some t ->
           ReachesTransform network contentUrl "podcast-list" "podcasts-cache"
             w data ->
           fetchPodcasts accepts network w
           = {| document :=
                  <["podcast-list" := showingError processingMessage t]>
                    (document w);
                localStorage := localStorage w;
                requests := contentUrl :: requests w |}).
Proof.
  intros Hnull.
  assert (items <> []) as Hne
    by (destruct Hnull as (a & Hin & _); destruct items; [contradiction|discriminate]).
  split; intros Hp; destruct (prop_array_object _ _ _ Hp) as [fs ->].
  - assert (processArticles linkSource (JObj fs) = Throw TypeError) as Hr.
    { unfold processArticles. rewrite listCheck, Hp.
      rewrite (get_ok (JObj fs) _ eq_refl), Hp.
      destruct items as [|a items]; [congruence|].
      cbn [isFilledArray negb bind].
      rewrite (mapR_null (articleCard linkSource) 0 (a :: items));
        [reflexivity|apply only_articleCard|apply articleCard_null
        |exact Hnull]. }
    split; [exact Hr|]. intros accepts network w t Ht Hreach.
    exact (reaches_failure accepts network contentUrl "articles-list"
             "articles-cache"
             (processArticles linkSource) _ w t _ TypeError Ht Hreach Hr).
  - assert (processPodcasts (JObj fs) = Throw TypeError) as Hr.
    { unfold processPodcasts. rewrite listCheck, Hp.
      rewrite (get_ok (JObj fs) _ eq_refl), Hp.
      destruct items as [|a items]; [congruence|].
      cbn [isFilledArray negb bind].
      rewrite (mapR_null podcastCard 0 (a :: items));
        [reflexivity| |apply podcastCard_null|exact Hnull].
      intros x e Hx. destruct (podcastCard_cases x) as [[c Hc]|Hc];
        congruence. }
    split; [exact Hr|]. intros accepts network w t Ht Hreach.
    exact (reaches_failure accepts network contentUrl "podcast-list"
             "podcasts-cache"
             processPodcasts _ w t _ TypeError Ht Hreach Hr).
Qed.

(** X15. Each of the three list normalizers gives [null], and throws
    nothing, for every document whose list is not an array with at least
    one entry: a document that is [null], a number or a string, a list that
    is absent, empty, or an object. *)
Theorem lists_not_filled_give_null linkSource formatDate numLtTwo
  (data : JsVal) :
  (isFilledArray (prop data "articles") = false ->
   processArticles linkSource data = Ret None)
  /\ (isFilledArray (prop data "podcasts") = false ->
      processPodcasts data = Ret None)
  /\ (isFilledArray (prop data "events") = false ->
      processTeamEventsData formatDate numLtTwo data = Ret None).
Proof.
  split; [|split]; intros H.
  - unfold processArticles. rewrite listCheck, H. reflexivity.
  - unfold processPodcasts. rewrite listCheck, H. reflexivity.
  - unfold processTeamEventsData. rewrite listCheck, H. reflexivity.
Qed.

(** *** Standings: the summary string *)

Lemma parseInt_digit c t :
  is_digit c = true ->
  parseInt (String c t)
  = Some (digits_value 0 (fst (span_digits (String c t)))).
Proof.
  intros H.
  destruct c as [[] [] [] [] [] [] [] []];
    try (exfalso; vm_compute in H; discriminate H); clear H;
    unfold parseInt;
    match goal with
    | |- context [trimStart ?s] =>
        replace (trimStart s) with s
          by (destruct t as [|b [|c' t']]; reflexivity)
    end;
    cbn [span_digits]; destruct (span_digits t) as [d r]; reflexivity.
Qed.

Lemma parseInt_pretty (n : N) :
  parseInt_or0 (JStr (pretty n)) = Ret (Z.of_N n).
Proof.
  unfold parseInt_or0. cbn [toStr bind].
  destruct (pretty_starts_with_digit n) as (c & t & E & Hc).
  pose proof (span_pretty n "" eq_refl) as Hs.
  rewrite append_empty_r in Hs.
  pose proof (value_pretty n) as Hv.
  rewrite E in *. rewrite (parseInt_digit c t Hc), Hs.
  cbn [fst] in *. rewrite Hv. reflexivity.
Qed.

Lemma pretty_nonempty (n : N) : String.eqb (pretty n) "" = false.
Proof.
  destruct (pretty_starts_with_digit n) as (c & t & -> & _). reflexivity.
Qed.

Lemma summaryMatch_summaryOf wins losses ties :
  summaryMatch (summaryOf wins losses ties)
  = Some (JStr (pretty wins), JStr (pretty losses),
          match ties with
          | Some t => JStr (pretty t)
          | None => JUndefined
          end).
Proof.
  unfold summaryMatch, summaryOf.
  rewrite (span_pretty wins ("-" ++ _) eq_refl), pretty_nonempty.
  change ("-" ++ pretty losses
          ++ match ties with Some t => "-" ++ pretty t | None => "" end)
    with (String "-" (pretty losses
          ++ match ties with Some t => "-" ++ pretty t | None => "" end)).
  cbn iota.
  destruct ties as [t|].
  - rewrite (span_pretty losses ("-" ++ pretty t) eq_refl), pretty_nonempty.
    change ("-" ++ pretty t) with (String "-" (pretty t)). cbn iota.
    pose proof (span_pretty t "" eq_refl) as Hs.
    rewrite append_empty_r in Hs. rewrite Hs, pretty_nonempty. reflexivity.
  - rewrite (span_pretty losses "" eq_refl), pretty_nonempty. reflexivity.
Qed.

(** X16. A summary string written from the numbers of wins and losses, and
    of ties when given, each a count that a number holds exactly (up to
    2^53), is read back to the same numbers: the line shows them, and zero
    ties for a two-part summary. *)
Theorem summary_round_trip (data record : JsVal) (wins losses : N)
  (ties : option N) :
  Exact wins -> Exact losses -> Exact (default 0%N ties) ->
  truthy data = true -> typeof_object data = true ->
  findTeamRecord data = Ret record ->
  prop record "summary" = JStr (summaryOf wins losses ties) ->
  processStandingsData data
  = Ret (Some (standingsLine (Z.of_N wins) (Z.of_N losses)
                 (Z.of_N (default 0%N ties)) "Summary String")).
Proof.
  intros _ _ _ Hd Ho Hfind Hsum.
  destruct (prop_object record "summary" _ Hsum ltac:(discriminate))
    as [fs ->].
  unfold processStandingsData. rewrite Hd, Ho, Hfind.
  cbn [negb orb bind truthy]. unfold recordLine.
  rewrite (get_ok (JObj fs) "summary" eq_refl), Hsum. cbn [bind].
  assert (truthy (JStr (summaryOf wins losses ties)) = true) as ->.
  { unfold summaryOf.
    destruct (pretty_starts_with_digit wins) as (c & t & -> & _).
    reflexivity. }
  cbn [andb typeof_string]. rewrite summaryMatch_summaryOf.
  rewrite !parseInt_pretty. cbn [bind].
  destruct ties as [t|]; cbn [default from_option id].
  - rewrite parseInt_pretty. reflexivity.
  - reflexivity.
Qed.

(** *** Standings: where the record is looked for *)

Lemma findR_none p l :
  Forall (fun x => p x = Ret false) l -> findR p l = Ret JUndefined.
Proof.
  induction 1 as [|x l Hx _ IH]; simpl; [reflexivity|].
  rewrite Hx. exact IH.
Qed.

(** The test of a group for its entries. *)
Lemma hasEntries_total child :
  nullish child = false ->
  (T (child @. "standings")
   &&& T (child @. "standings" @@ "entries")
   &&& (let* e := child @. "standings" @@ "entries" in Ret (isArray e)))
  = Ret (match groupEntries child with Some _ => true | None => false end).
Proof.
  intros Hc. unfold groupEntries. rewrite !(get_ok child _ Hc).
  unfold T. cbn [bind andR].
  destruct (truthy (prop child "standings")) eqn:Hs; [|reflexivity].
  rewrite !(get_truthy _ _ Hs). cbn [bind].
  destruct (prop (prop child "standings") "entries") as [| |b|n|s|l|fs|];
    try reflexivity.
  - destruct b; reflexivity.
  - simpl. destruct (n =? 0); reflexivity.
  - simpl. destruct (String.eqb s ""); reflexivity.
Qed.

Lemma groupEntries_get child entries :
  nullish child = false -> groupEntries child = Some entries ->
  child @. "standings" @@ "entries" = Ret (JArr entries).
Proof.
  intros Hc. unfold groupEntries. rewrite (get_ok child _ Hc).
  destruct (truthy (prop child "standings")) eqn:Hs; [|discriminate].
  cbn [bind]. rewrite (get_truthy _ _ Hs).
  destruct (prop (prop child "standings") "entries"); try discriminate.
  intros [= ->]. reflexivity.
Qed.

Lemma searchChildren_skip before rest :
  Forall WithoutTrackedTeam before ->
  searchChildren JUndefined (before ++ rest)%list
  = searchChildren JUndefined rest.
Proof.
  induction 1 as [|child before [Hc Hno] _ IH]; [reflexivity|].
  change ((child :: before) ++ rest)%list with (child :: (before ++ rest))%list.
  cbn [searchChildren]. rewrite (hasEntries_total child Hc).
  destruct (groupEntries child) as [entries|] eqn:He; cbn [bind].
  - rewrite (groupEntries_get child entries Hc He). cbn [bind find].
    rewrite (findR_none _ _ (Hno entries eq_refl)). cbn [bind truthy].
    exact IH.
  - exact IH.
Qed.

Lemma trackedTeam_truthy entry :
  isTrackedTeam entry = Ret true -> truthy entry = true.
Proof.
  unfold isTrackedTeam, T, get. destruct (nullish entry) eqn:Hn;
    [discriminate|].
  cbn [bind andR].
  destruct (truthy (prop entry "team")) eqn:Ht; [|discriminate].
  intros _. exact (prop_truthy_base _ _ Ht).
Qed.

(** X17. When a group of [data.children] holds the tracked team among its
    entries, and the groups before it do not, the record of the standings
    is that entry: [record.items] and [records] are not consulted,
    whatever they hold. *)
Theorem tracked_team_among_children_is_the_record
  (data : JsVal) (before after : list JsVal) (group : JsVal)
  (earlier later : list JsVal) (entry : JsVal) :
  prop data "children" = JArr (before ++ group :: after)%list ->
  Forall WithoutTrackedTeam before ->
  nullish group = false ->
  groupEntries group = Some (earlier ++ entry :: later)%list ->
  Forall (fun e => isTrackedTeam e = Ret false) earlier ->
  isTrackedTeam entry = Ret true ->
  findTeamRecord data = Ret entry
  /\ processStandingsData data = recordLine entry.
Proof.
  intros Hch Hbefore Hg He Hearlier Hentry.
  destruct (prop_array_object _ _ _ Hch) as [fs ->].
  pose proof (trackedTeam_truthy entry Hentry) as Ht.
  assert (findTeamRecord (JObj fs) = Ret entry) as Hfind.
  { unfold findTeamRecord, attempt1.
    rewrite !(get_ok (JObj fs) _ eq_refl), Hch. unfold T.
    cbn [bind andR truthy isArray].
    rewrite (searchChildren_skip before (group :: after) Hbefore).
    cbn [searchChildren]. rewrite (hasEntries_total group Hg), He.
    cbn [bind]. rewrite (groupEntries_get group _ Hg He). cbn [bind find].
    rewrite (findR_skip isTrackedTeam earlier entry later Hearlier Hentry).
    cbn [bind]. rewrite Ht. cbn [bind]. rewrite Ht. reflexivity. }
  split; [exact Hfind|].
  unfold processStandingsData. rewrite Hfind. cbn [truthy typeof_object negb orb bind].
  rewrite Ht. reflexivity.
Qed.

(** X18. A document in which [children] is no array, and neither
    [record.items] nor [records] is an array with an entry, gives [null]:
    nothing is thrown, whatever the document is. *)
Theorem standings_without_known_shape (data : JsVal) :
  isArray (prop data "children") = false ->
  isFilledArray (prop (prop data "record") "items") = false ->
  isFilledArray (prop data "records") = false ->
  processStandingsData data = Ret None.
Proof.
  intros Hch Hitems Hrecords. unfold processStandingsData.
  destruct (truthy data) eqn:Hd; [|reflexivity].
  destruct (typeof_object data) eqn:Ho; [|reflexivity].
  cbn [negb orb].
  assert (findTeamRecord data = Ret JUndefined) as ->; [|reflexivity].
  unfold findTeamRecord, attempt1. rewrite !(get_truthy data _ Hd).
  unfold T. cbn [bind andR]. rewrite Hch.
  assert ((if truthy (prop data "children") then Ret false else Ret false)
          = Ret false :> Res bool) as ->
    by (destruct (truthy (prop data "children")); reflexivity).
  cbn [bind truthy negb].
  destruct (truthy (prop data "record")) eqn:Hr.
  - rewrite !(get_truthy _ _ Hr). cbn [bind].
    destruct (prop (prop data "record") "items") as [| |b|n|s|[|x l]|fs|];
      try discriminate Hitems; cbn [isArray bind];
      destruct (prop data "records") as [| |b'|n'|s'|[|x' l']|fs'|];
      try discriminate Hrecords; reflexivity.
  - destruct (prop data "records") as [| |b'|n'|s'|[|x' l']|fs'|];
      try discriminate Hrecords; reflexivity.
Qed.

(** *** Standings: the statistics *)

Lemma getStatValue_cases record stats name :
  nullish record = false -> prop record "stats" = JArr stats ->
  getStatValue record name
  = match statEntry stats name with
    | Some s => Ret (statNumber s)
    | None => Throw TypeError
    end.
Proof.
  intros Hr Hs. destruct (statEntry stats name) as [s|] eqn:E.
  - exact (getStatValue_found record stats name s Hr Hs E).
  - exact (getStatValue_missing record stats name Hr Hs E).
Qed.

(** X19. When the record has no usable summary and its [stats] array lacks
    the entry for wins, for losses or for ties, the normalizer does not
    count the missing value as zero: it throws, and the run shows the
    message for a failed processing and stores nothing. *)
Theorem missing_stat_entry_is_an_error (data : JsVal)
  (fields : list (string * JsVal)) (stats : list JsVal) :
  let record := JObj fields in
  truthy data = true -> typeof_object data = true ->
  findTeamRecord data = Ret record ->
  SummaryUnusable record ->
  prop record "stats" = JArr stats ->
  LacksStat stats ->
  processStandingsData data = Throw TypeError
  /\ forall accepts network w t,
       document w !! "temporada-data" = Some t ->
       ReachesTransform network standingsUrl "temporada-data"
         "commanders-standings" w data ->
       fetchStandingsData accepts network w
       = {| document :=
              <["temporada-data" := showingError processingMessage t]>
                (document w);
            localStorage := localStorage w;
            requests := standingsUrl :: requests w |}.
Proof.
  intros record Hd Ho Hfind Hsum Hstats Hlacks.
  assert (processStandingsData data = Throw TypeError) as Hr.
  { unfold processStandingsData. rewrite Hd, Ho, Hfind.
    cbn [negb orb bind truthy]. unfold recordLine.
    rewrite (get_ok record "summary" eq_refl). cbn [bind].
    rewrite (summaryUnusable_None record Hsum). unfold fromStats.
    rewrite !(get_ok record "stats" eq_refl), Hstats. unfold T.
    cbn [bind andR truthy isArray].
    rewrite !(getStatValue_cases record stats _ eq_refl Hstats).
    unfold LacksStat in Hlacks.
    destruct (statEntry stats "wins"); [|reflexivity].
    destruct (statEntry stats "losses"); [|reflexivity].
    destruct (statEntry stats "ties"); [|reflexivity].
    destruct Hlacks as [H|[H|H]]; discriminate H. }
  split; [exact Hr|]. intros accepts network w t Ht Hreach.
  exact (reaches_failure accepts network standingsUrl "temporada-data"
           "commanders-standings" processStandingsData _ w t data TypeError
           Ht Hreach Hr).
Qed.

Lemma parseInt_prefix (n : N) rest :
  NoDigitAhead rest -> parseInt (pretty n ++ rest) = Some (Z.of_N n).
Proof.
  intros Hrest.
  pose proof (span_pretty n rest Hrest) as Hs.
  pose proof (value_pretty n) as Hv.
  destruct (pretty_starts_with_digit n) as (c & t & E & Hc).
  rewrite E in *. rewrite append_cons in *.
  rewrite (parseInt_digit c (t ++ rest) Hc), Hs.
  cbn [fst] in *. rewrite Hv. reflexivity.
Qed.

(** X20. The value of a statistic is read leniently: a number counts as
    it is; a string counts by the decimal digits it begins with, when they
    make a count that a number holds exactly (up to 2^53), whatever follows
    them; everything else counts as zero. *)
Theorem stat_value_is_read_leniently (record : JsVal) (stats : list JsVal)
  (name : string) (entry : JsVal) :
  nullish record = false ->
  prop record "stats" = JArr stats ->
  statEntry stats name = Some entry ->
  (forall n, prop entry "value" = JNum n -> getStatValue record name = Ret n)
  /\ (forall (n : N) rest,
        Exact n ->
        NoDigitAhead rest ->
        prop entry "value" = JStr (pretty n ++ rest) ->
        getStatValue record name = Ret (Z.of_N n))
  /\ (typeof_number (prop entry "value") = false ->
      typeof_string (prop entry "value") = false ->
      getStatValue record name = Ret 0).
Proof.
  intros Hr Hstats Hentry.
  rewrite (getStatValue_found record stats name entry Hr Hstats Hentry).
  unfold statNumber. split; [|split].
  - intros n ->. reflexivity.
  - intros n rest _ Hrest ->. rewrite (parseInt_prefix n rest Hrest).
    reflexivity.
  - destruct (prop entry "value"); try discriminate; reflexivity.
Qed.

(** X21. When the search among the children finds nothing, the record is
    looked for in one list only: in [record.items] when that is an array
    with an entry, be there an overall item in it or not, and in [records]
    only when it is not. *)
Theorem records_consulted_only_without_items (data r : JsVal) :
  truthy data = true ->
  attempt1 data = Ret r -> truthy r = false ->
  (forall items,
      prop (prop data "record") "items" = JArr items -> items <> [] ->
      findTeamRecord data = findR isOverallItem items)
  /\ (forall records,
        isFilledArray (prop (prop data "record") "items") = false ->
        prop data "records" = JArr records -> records <> [] ->
        findTeamRecord data = findR isOverallRecord records).
Proof.
  intros Hd Ha Hr. split.
  - intros items Hitems Hne.
    apply (findTeamRecord_items data r items Hd Ha Hr); [|exact Hitems|exact Hne].
    destruct (truthy (prop data "record")) eqn:E; [reflexivity|].
    exfalso.
    destruct (prop_array_object _ _ _ Hitems) as [fs Hfs].
    rewrite Hfs in E. discriminate E.
  - intros records Hitems Hrecords Hne. unfold findTeamRecord.
    rewrite Ha. cbn [bind]. rewrite Hr.
    rewrite !(get_truthy data _ Hd). unfold T. cbn [bind andR negb].
    rewrite Hrecords. cbn [isArray].
    rewrite (get_ok (JArr records) "length" eq_refl). cbn [bind].
    rewrite (length_gt0 records Hne).
    destruct (truthy (prop data "record")) eqn:Hrec; [|reflexivity].
    rewrite !(get_truthy _ _ Hrec). cbn [bind].
    destruct (prop (prop data "record") "items") as [| |b|n|s|[|x l]|fs|];
      try discriminate Hitems; reflexivity.
Qed.

(** *** Events *)

Section Events.
Variable formatDate : JsVal -> option string.
Variable numLtTwo : string -> bool.

(** X22. One event whose competitors are there but come as something that
    is no array, after well-formed events, makes the whole normalizer
    throw: no line is shown for any event, the run shows the message for a
    failed processing and stores nothing. *)
Theorem malformed_event_fails_the_list (data : JsVal)
  (before after : list JsVal) (bad : JsVal) :
  prop data "events" = JArr (before ++ bad :: after)%list ->
  Forall WellFormedEvent before ->
  isEventObject bad = true ->
  tooLittle numLtTwo (competitionOf bad) = false ->
  isArray (prop (competitionOf bad) "competitors") = false ->
  processTeamEventsData formatDate numLtTwo data = Throw TypeError
  /\ forall accepts network w t,
       document w !! "teams-data" = Some t ->
       ReachesTransform network eventsUrl "teams-data" "commanders-events"
         w data ->
       fetchTeamEvents accepts network formatDate numLtTwo w
       = {| document :=
              <["teams-data" := showingError processingMessage t]>
                (document w);
            localStorage := localStorage w;
            requests := eventsUrl :: requests w |}.
Proof.
  intros Hev Hbefore Hobj Hlittle Harr.
  pose proof (eventLine_malformed formatDate numLtTwo bad Hobj Hlittle Harr)
    as Hbad.
  assert (processTeamEventsData formatDate numLtTwo data = Throw TypeError)
    as Hr.
  { destruct (prop_array_object _ _ _ Hev) as [fs ->].
    unfold processTeamEventsData. rewrite listCheck, Hev.
    rewrite (get_ok (JObj fs) _ eq_refl), Hev.
    destruct (before ++ bad :: after)%list as [|e l] eqn:E;
      [destruct before; discriminate E|].
    cbn [isFilledArray negb bind]. rewrite <- E. unfold eventLines.
    rewrite (mapR_throws (eventLine formatDate numLtTwo) 0
               (before ++ bad :: after)%list); [reflexivity| |].
    - intros x _. apply only_cases, only_eventLine.
    - apply List.Exists_exists. exists bad. split; [|exact Hbad].
      apply in_or_app. right. left. reflexivity. }
  split; [exact Hr|]. intros accepts network w t Ht Hreach.
  exact (reaches_failure accepts network eventsUrl "teams-data"
           "commanders-events"
           (processTeamEventsData formatDate numLtTwo) _ w t data TypeError
           Ht Hreach Hr).
Qed.

End Events.

(** *** The properties at sample documents *)

Lemma fullPage_target id :
  id ∈ mainDataSections ->
  document (Cases.fullPage ∅) !! id = Some Samples.preparedSection.
Proof.
  unfold mainDataSections. rewrite !elem_of_cons.
  intros [->|[->|[->|[->|H]]]]; try (vm_compute; reflexivity).
  apply not_elem_of_nil in H. contradiction.
Qed.

Lemma fullPage_reaches data url id key :
  id ∈ mainDataSections ->
  ReachesTransform (Samples.serving data) url id key (Cases.fullPage ∅) data.
Proof.
  intros Hid. split; [|split].
  - rewrite (fullPage_target id Hid). eexists. reflexivity.
  - exists ∅. split; [reflexivity|left; apply lookup_empty].
  - eexists. split; [reflexivity|]. split; [|reflexivity].
    split; [reflexivity|]. eexists. split; reflexivity.
Qed.

Lemma articlesList_main : "articles-list" ∈ mainDataSections.
Proof. apply (bool_decide_unpack _). vm_compute. exact I. Qed.

Lemma teamsData_main : "teams-data" ∈ mainDataSections.
Proof. apply (bool_decide_unpack _). vm_compute. exact I. Qed.

Lemma temporadaData_main : "temporada-data" ∈ mainDataSections.
Proof. apply (bool_decide_unpack _). vm_compute. exact I. Qed.

Lemma articles_all_rendered_witness :
  exists cards,
    length cards = 2%nat
    /\ processArticles "" Cases.twoArticles = Ret (Some (join cards))
    /\ fetchArticles Samples.roomy (Samples.serving Cases.twoArticles) ""
         (Cases.fullPage ∅)
       = {| document :=
              <["articles-list" := showing (join cards) Samples.preparedSection]>
                (document (Cases.fullPage ∅));
            localStorage := Some (<["articles-cache" := join cards]> ∅);
            requests := [contentUrl] |}.
Proof.
  destruct (articles_all_rendered "" Cases.twoArticles
              [JObj [("title", JStr "Victoria en casa");
                     ("summary", JStr "Resumen del partido.");
                     ("link", JStr "https://example.com/victoria")];
               JObj []])
    as (cards & Hf & Hr & Hrun).
  - reflexivity.
  - discriminate.
  - repeat constructor.
  - exists cards. split; [symmetry; exact (Forall2_length _ _ _ Hf)|].
    split; [exact Hr|].
    apply (Hrun Samples.roomy (Samples.serving Cases.twoArticles)
             (Cases.fullPage ∅) Samples.preparedSection).
    + apply fullPage_target, articlesList_main.
    + apply fullPage_reaches, articlesList_main.
    + reflexivity.
Defined.

Lemma null_entry_fails_the_list_witness :
  processArticles "" Cases.articlesWithNull = Throw TypeError
  /\ fetchArticles Samples.roomy (Samples.serving Cases.articlesWithNull) ""
       (Cases.fullPage ∅)
     = {| document :=
            <["articles-list" :=
                showingError processingMessage Samples.preparedSection]>
              (document (Cases.fullPage ∅));
          localStorage := Some ∅;
          requests := [contentUrl] |}.
Proof.
  destruct (proj1 (null_entry_fails_the_list "" Cases.articlesWithNull
                     [JObj [("title", JStr "Victoria en casa")]; JNull]
                     (ex_intro _ JNull (conj (or_intror (or_introl eq_refl))
                                          eq_refl)))
              eq_refl) as [Hr Hrun].
  split; [exact Hr|].
  apply (Hrun Samples.roomy (Samples.serving Cases.articlesWithNull)
           (Cases.fullPage ∅) Samples.preparedSection).
  - apply fullPage_target, articlesList_main.
  - apply fullPage_reaches, articlesList_main.
Defined.

Lemma lists_not_filled_give_null_witness :
  processArticles "" JNull = Ret None
  /\ processPodcasts (JObj [("podcasts", JArr [])]) = Ret None
  /\ processTeamEventsData Samples.noDate Samples.noNumber
       (JObj [("events", JObj [("length", JNum 3)])]) = Ret None.
Proof.
  split; [|split].
  - apply (proj1 (lists_not_filled_give_null "" Samples.noDate
                    Samples.noNumber JNull)).
    reflexivity.
  - apply (proj1 (proj2 (lists_not_filled_give_null "" Samples.noDate
                           Samples.noNumber
                           (JObj [("podcasts", JArr [])])))).
    reflexivity.
  - apply (proj2 (proj2 (lists_not_filled_give_null "" Samples.noDate
                           Samples.noNumber
                           (JObj [("events", JObj [("length", JNum 3)])])))).
    reflexivity.
Defined.

Lemma summary_round_trip_witness :
  processStandingsData Samples.recordsOnly
  = Ret (Some (standingsLine 10 6 0 "Summary String")).
Proof.
  apply (summary_round_trip Samples.recordsOnly Samples.overallRecord
           10 6 None);
    solve [reflexivity | unfold Exact; simpl; lia].
Defined.

Lemma tracked_team_among_children_is_the_record_witness :
  findTeamRecord Cases.leagueStandings = Ret Cases.trackedEntry
  /\ processStandingsData Cases.leagueStandings
     = recordLine Cases.trackedEntry.
Proof.
  apply (tracked_team_among_children_is_the_record Cases.leagueStandings
           [JObj [("name", JStr "American Football Conference")]] []
           (JObj [("standings",
                   JObj [("entries",
                          JArr [JObj [("team", JObj [("id", JStr "6")]);
                                      ("summary", JStr "7-10")];
                                Cases.trackedEntry])])])
           [JObj [("team", JObj [("id", JStr "6")]);
                  ("summary", JStr "7-10")]] []
           Cases.trackedEntry).
  - reflexivity.
  - constructor; [|constructor]. split; [reflexivity|].
    intros entries H. discriminate H.
  - reflexivity.
  - reflexivity.
  - constructor; [reflexivity|constructor].
  - reflexivity.
Defined.

Lemma standings_without_known_shape_witness :
  processStandingsData (JObj [("record", JObj [("items", JArr [])])])
  = Ret None.
Proof.
  apply (standings_without_known_shape
           (JObj [("record", JObj [("items", JArr [])])]));
    reflexivity.
Defined.

Lemma stat_value_is_read_leniently_witness :
  getStatValue
    (JObj [("stats", JArr [JObj [("name", JStr "wins");
                                 ("value", JStr "7 of 16")]])])
    "wins"
  = Ret 7.
Proof.
  apply (proj1 (proj2 (stat_value_is_read_leniently
                         (JObj [("stats",
                                 JArr [JObj [("name", JStr "wins");
                                             ("value", JStr "7 of 16")]])])
                         [JObj [("name", JStr "wins");
                                ("value", JStr "7 of 16")]]
                         "wins"
                         (JObj [("name", JStr "wins");
                                ("value", JStr "7 of 16")])
                         eq_refl eq_refl eq_refl))
           7%N " of 16");
    solve [reflexivity | unfold Exact; lia].
Defined.

Lemma records_consulted_only_without_items_witness :
  findTeamRecord Samples.itemsWithoutTotal
  = findR isOverallItem
      [JObj [("type", JStr "home"); ("summary", JStr "5-3")]]
  /\ findTeamRecord Samples.recordsOnly
     = findR isOverallRecord [Samples.overallRecord].
Proof.
  split.
  - apply (proj1 (records_consulted_only_without_items
                    Samples.itemsWithoutTotal JUndefined
                    eq_refl eq_refl eq_refl));
      [reflexivity|discriminate].
  - apply (proj2 (records_consulted_only_without_items
                    Samples.recordsOnly JUndefined
                    eq_refl eq_refl eq_refl));
      [reflexivity|reflexivity|discriminate].
Defined.

Lemma missing_stat_entry_is_an_error_witness :
  processStandingsData Cases.standingsWithoutTies = Throw TypeError
  /\ fetchStandingsData Samples.roomy
       (Samples.serving Cases.standingsWithoutTies) (Cases.fullPage ∅)
     = {| document :=
            <["temporada-data" :=
                showingError processingMessage Samples.preparedSection]>
              (document (Cases.fullPage ∅));
          localStorage := Some ∅;
          requests := [standingsUrl] |}.
Proof.
  destruct (missing_stat_entry_is_an_error Cases.standingsWithoutTies
              Cases.totalWithoutTies
              [Samples.stat "name" "wins" 7; Samples.stat "name" "losses" 9])
    as [Hr Hrun].
  - reflexivity.
  - reflexivity.
  - reflexivity.
  - intros s H. discriminate H.
  - reflexivity.
  - right. right. reflexivity.
  - split; [exact Hr|].
    apply (Hrun Samples.roomy (Samples.serving Cases.standingsWithoutTies)
             (Cases.fullPage ∅) Samples.preparedSection).
    + apply fullPage_target, temporadaData_main.
    + apply fullPage_reaches, temporadaData_main.
Defined.

Lemma malformed_event_fails_the_list_witness :
  processTeamEventsData Samples.noDate Samples.noNumber Cases.keyedSchedule
  = Throw TypeError
  /\ fetchTeamEvents Samples.roomy (Samples.serving Cases.keyedSchedule)
       Samples.noDate Samples.noNumber (Cases.fullPage ∅)
     = {| document :=
            <["teams-data" :=
                showingError processingMessage Samples.preparedSection]>
              (document (Cases.fullPage ∅));
          localStorage := Some ∅;
          requests := [eventsUrl] |}.
Proof.
  destruct (malformed_event_fails_the_list Samples.noDate Samples.noNumber
              Cases.keyedSchedule [Samples.finishedGame] [] Cases.keyedEvent)
    as [Hr Hrun].
  - reflexivity.
  - constructor; [|constructor]. intros _. reflexivity.
  - reflexivity.
  - reflexivity.
  - reflexivity.
  - split; [exact Hr|].
    apply (Hrun Samples.roomy (Samples.serving Cases.keyedSchedule)
             (Cases.fullPage ∅) Samples.preparedSection).
    + apply fullPage_target, teamsData_main.
    + apply fullPage_reaches, teamsData_main.
Defined.

End DocumentProps.

(** ** Properties of the proxy *)

Module ProxyProps.
Import Js Normalizers Engine Proxy JsFacts.

Lemma key_cases env :
  (env = None \/ env = Some "") \/ exists key, KeySet env key.
Proof.
  destruct env as [[|c key]|]; auto.
  right. exists (String c key). split; [reflexivity|discriminate].
Qed.

Lemma fetch_without_key env upstream path queryParams :
  env = None \/ env = Some "" ->
  fetchEspnApi env upstream path queryParams
  = (Rejected keyMissingMessage, []).
Proof. intros [-> | ->]; reflexivity. Qed.

Lemma fetch_with_key env key upstream path queryParams :
  KeySet env key ->
  fetchEspnApi env upstream path queryParams
  = (match upstream (requestUrl key path queryParams) with
     | NetworkFailure => Rejected unreachableMessage
     | Responded response =>
         if negb (ok response) then Rejected (statusMessage response)
         else match json response with
              | Some data => Resolved data
              | None => Rejected malformedMessage
              end
     end, [requestUrl key path queryParams]).
Proof.
  intros [-> Hne]. destruct key as [|c key]; [congruence|]. reflexivity.
Qed.

Lemma keySet_unique env key key' :
  KeySet env key -> KeySet env key' -> key = key'.
Proof. intros [H _] [H' _]. congruence. Qed.

(** X23. A handler answers 200 exactly when the key is set and the ESPN
    API gave an ok response whose body parses, and the body of the answer
    is then the parsed data, unchanged; in every other case it answers 500
    with an object whose one field is the error text of the handler
    followed by a message that is fixed or made of the status of the
    response alone. *)
Theorem reply_200_is_upstream_data path queryParams failure env upstream :
  let r := fst (handle path queryParams failure env upstream) in
  (code r = 200 <->
   exists key response,
     KeySet env key
     /\ upstream (requestUrl key path queryParams) = Responded response
     /\ ok response = true /\ json response = Some (body r))
  /\ (code r = 200
      \/ code r = 500
         /\ exists message,
              body r = JObj [("error", JStr (failure ++ " " ++ message))]
              /\ (message = keyMissingMessage
                  \/ exists key,
                       KeySet env key
                       /\ afterRequest
                            (upstream (requestUrl key path queryParams))
                            message)).
Proof.
  cbn zeta. unfold handle.
  destruct (key_cases env) as [Hno|[key Hkey]].
  - rewrite (fetch_without_key env upstream path queryParams Hno).
    cbn [fst reply code body]. split.
    + split; [discriminate|]. intros (key & _ & [Hk Hne] & _).
      destruct Hno as [H|H]; congruence.
    + right. split; [reflexivity|]. eexists. split; [reflexivity|]. auto.
  - rewrite (fetch_with_key env key upstream path queryParams Hkey).
    cbn [fst].
    destruct (upstream (requestUrl key path queryParams))
      as [|response] eqn:Hup.
    { cbn [reply code body]. split.
      - split; [discriminate|]. intros (key' & r' & Hkey' & Hup' & _).
        rewrite <- (keySet_unique env key key' Hkey Hkey') in Hup'.
        congruence.
      - right. split; [reflexivity|]. eexists. split; [reflexivity|].
        right. exists key. split; [exact Hkey|]. rewrite Hup. reflexivity. }
    destruct (ok response) eqn:Hok; cbn [negb].
    2:{ cbn [reply code body]. split.
        - split; [discriminate|]. intros (key' & r' & Hkey' & Hup' & Hok' & _).
          rewrite <- (keySet_unique env key key' Hkey Hkey') in Hup'.
          congruence.
        - right. split; [reflexivity|]. eexists. split; [reflexivity|].
          right. exists key. split; [exact Hkey|]. rewrite Hup. left.
          reflexivity. }
    destruct (json response) as [data|] eqn:Hj; cbn [reply code body].
    + split; [|left; reflexivity]. split; [|reflexivity]. intros _.
      exists key, response. auto.
    + split.
      * split; [discriminate|].
        intros (key' & r' & Hkey' & Hup' & _ & Hj').
        rewrite <- (keySet_unique env key key' Hkey Hkey') in Hup'.
        congruence.
      * right. split; [reflexivity|]. eexists. split; [reflexivity|].
        right. exists key. split; [exact Hkey|]. rewrite Hup. right.
        reflexivity.
Qed.

(** X24. A handler makes no request to the ESPN API exactly when the key
    is unset or empty, and it then answers 500 with the message for the
    configuration; with a key it makes one request, to the URL made of
    the path, the parameters and the key. *)
Theorem no_key_no_request path queryParams failure env upstream :
  let answer := handle path queryParams failure env upstream in
  (snd answer = [] <-> env = None \/ env = Some "")
  /\ (env = None \/ env = Some "" ->
      fst answer
      = {| code := 500;
           body := JObj [("error",
                          JStr (failure ++ " " ++ keyMissingMessage))] |})
  /\ (forall key, KeySet env key ->
                  snd answer = [requestUrl key path queryParams]).
Proof.
  cbn zeta. unfold handle.
  destruct (key_cases env) as [Hno|[key Hkey]].
  - rewrite (fetch_without_key env upstream path queryParams Hno).
    cbn [fst snd reply]. split; [tauto|]. split; [reflexivity|].
    intros key [Hk Hne]. destruct Hno as [H|H]; congruence.
  - rewrite (fetch_with_key env key upstream path queryParams Hkey).
    cbn [fst snd]. destruct Hkey as [Hk Hne]. split; [|split].
    + split; [discriminate|]. intros [H|H]; congruence.
    + intros [H|H]; congruence.
    + intros key' [Hk' _]. congruence.
Qed.

(** *** The key in the request *)

Lemma allChars_app p a b :
  allChars p (a ++ b) = allChars p a && allChars p b.
Proof.
  induction a as [|c a IH]; [reflexivity|].
  rewrite append_cons. cbn [allChars]. rewrite IH. apply andb_assoc.
Qed.

Lemma hexDigit_safe n : (n < 16)%nat -> formSafe (hexDigit n) = true.
Proof.
  intros H. do 16 (destruct n as [|n]; [reflexivity|]). lia.
Qed.

Lemma percentEncode_safe c : allChars formSafe (percentEncode c) = true.
Proof.
  unfold percentEncode. cbn [allChars].
  pose proof (nat_ascii_bounded c) as Hc. fold (byte c) in Hc.
  rewrite !hexDigit_safe; [reflexivity| |].
  - apply Nat.mod_upper_bound. lia.
  - apply Nat.Div0.div_lt_upper_bound. exact Hc.
Qed.

Lemma formEncode_safe s : allChars formSafe (formEncode s) = true.
Proof.
  induction s as [|c s IH]; [reflexivity|].
  cbn [formEncode]. rewrite allChars_app, IH, andb_true_r.
  destruct (byte c =? 32)%nat; [reflexivity|].
  destruct (formUnreserved c) eqn:Hu; [|apply percentEncode_safe].
  cbn [allChars]. unfold formSafe. rewrite Hu. reflexivity.
Qed.

(** X25. Whatever the key is, the request of each handler is the fixed
    address of its endpoint with its fixed parameters, followed by the key
    in encoded form; the encoded key is made of letters, digits and
    [* - . _ + %] only, so it holds no [&], [=], [#] or space, and cannot
    add to or change the parameters. *)
Theorem key_is_encoded_in_the_request (key : string)
  (upstream : string -> FetchOutcome) :
  key <> "" ->
  snd (EspnEvents.handler (Some key) upstream)
  = ["http://site.api.espn.com/apis/site/v2/sports/football/nfl/teams/28/schedule?seasontype=2&groups=all&limit=500&apikey="
     ++ formEncode key]
  /\ snd (EspnStandings.handler (Some key) upstream)
     = ["http://site.api.espn.com/apis/site/v2/sports/football/nfl/standings?groups=all&limit=500&apikey="
        ++ formEncode key]
  /\ allChars formSafe (formEncode key) = true
  /\ Forall (fun c => formSafe c = false) ["&"; "="; "#"; "?"; "/"; " "]%char.
Proof.
  intros Hne.
  split; [|split; [|split; [apply formEncode_safe|repeat constructor]]].
  - unfold EspnEvents.handler, handle.
    rewrite (fetch_with_key (Some key) key upstream _ _ (conj eq_refl Hne)).
    cbn [snd]. reflexivity.
  - unfold EspnStandings.handler, handle.
    rewrite (fetch_with_key (Some key) key upstream _ _ (conj eq_refl Hne)).
    cbn [snd]. reflexivity.
Qed.

Lemma reply_200_is_upstream_data_witness :
  code (fst (EspnEvents.handler (Some "k")
               (espnAnswers (JObj [("events", JArr [])]))))
  = 200.
Proof.
  apply (proj2 (proj1 (reply_200_is_upstream_data EspnEvents.API_PATH
                         EspnEvents.queryParams
                         "Failed to fetch ESPN team events." (Some "k")
                         (espnAnswers (JObj [("events", JArr [])]))))).
  exists "k". eexists. split; [split; [reflexivity|discriminate]|].
  split; [reflexivity|]. split; reflexivity.
Defined.

Lemma no_key_no_request_witness :
  fst (EspnStandings.handler None (espnAnswers JNull))
  = {| code := 500;
       body := JObj [("error",
                      JStr "Failed to fetch ESPN nfl standings. ESPN_API_KEY is not defined in environment variables. This is a server configuration issue.")] |}
  /\ snd (EspnStandings.handler None (espnAnswers JNull)) = [].
Proof.
  destruct (no_key_no_request EspnStandings.API_PATH
              EspnStandings.queryParams
              ("Failed to fetch ESPN " ++ EspnStandings.LEAGUE ++ " standings.")
              None (espnAnswers JNull)) as (H1 & H2 & _).
  split.
  - apply H2. left. reflexivity.
  - apply H1. left. reflexivity.
Defined.

Lemma key_is_encoded_in_the_request_witness :
  snd (EspnEvents.handler (Some "a b&c=d") (espnAnswers JNull))
  = ["http://site.api.espn.com/apis/site/v2/sports/football/nfl/teams/28/schedule?seasontype=2&groups=all&limit=500&apikey=a+b%26c%3Dd"].
Proof.
  apply (proj1 (key_is_encoded_in_the_request "a b&c=d" (espnAnswers JNull)
                  ltac:(discriminate))).
Defined.

End ProxyProps.

(** ** The calls of a page load, in any order of their responses *)

Module ConcurrentProps.
Import Js Normalizers Engine Terms Outcomes Page Concurrent JsFacts
  EngineProps OutcomeProps PageProps.

Local Abbreviation frame t s i := {| target := t; storage := s; issued := i |}.

(** *** A call is its two segments *)



(** *** What a segment does is local to its call *)



















(** *** The sections after the page load *)











End ConcurrentProps.
